(** * Edge monitoring system: sensor simulation, anomaly detection, health summary

    A shallow embedding of [edge_anamoly_detector.py] and the verification of
    its specification.

    - Python floats are binary64 doubles: Rocq's primitive [float], whose
      comparisons are the IEEE ones Python uses.
    - Python dicts are insertion-ordered association lists with unique keys.
    - Objects that are shared by reference (the reading dicts, the log list)
      live in a store inside [World], next to the module globals, the
      randomness source, the console/sleep trace and the file system.
    - Exceptions are the [Raise] results of the [Py] monad.
    - The standard-library functions the program calls ([round],
      [statistics.mean], [statistics.stdev], [random.uniform]) are modelled
      after CPython 3.11. *)

From Stdlib Require Import ZArith List String Floats Uint63 Lia Bool Permutation.
Import ListNotations.
Set Warnings "-inexact-float,-register-all".
Open Scope string_scope.
Open Scope list_scope.

(* ================================================================= *)
(** * Exceptions and results *)

Inductive exn :=
| KeyError (key : string)
| StatisticsError
| OverflowError
| AttributeError
| OSError.

Inductive result (A : Type) :=
| Ok (a : A)
| Raise (e : exn).
Arguments Ok {A} a.
Arguments Raise {A} e.

Definition result_bind {A B} (r : result A) (k : A -> result B) : result B :=
  match r with
  | Ok a => k a
  | Raise e => Raise e
  end.

(* ================================================================= *)
(** * Dicts *)

Definition dict (V : Type) := list (string * V).

Section Dict.
Context {V : Type}.

(** [d.get(k)] *)
Fixpoint lookup (d : dict V) (k : string) : option V :=
  match d with
  | [] => None
  | (k', v) :: rest => if String.eqb k' k then Some v else lookup rest k
  end.

(** [d[k]] *)
Definition getitem (d : dict V) (k : string) : result V :=
  match lookup d k with
  | Some v => Ok v
  | None => Raise (KeyError k)
  end.

(** [d[k] = v]: an existing key keeps its position, a new key goes last. *)
Fixpoint setitem (d : dict V) (k : string) (v : V) : dict V :=
  match d with
  | [] => [(k, v)]
  | (k', v') :: rest =>
      if String.eqb k' k then (k', v) :: rest else (k', v') :: setitem rest k v
  end.

(** [d.keys()] and [d.items()], in insertion order *)
Definition keys (d : dict V) : list string := map fst d.
Definition items (d : dict V) : list (string * V) := d.

(** A dict display [{k1: v1, k2: v2, ...}] *)
Definition dict_literal (kvs : list (string * V)) : dict V :=
  fold_left (fun d kv => setitem d (fst kv) (snd kv)) kvs [].

(** Truth value of a dict: non-empty *)
Definition truthy (d : dict V) : bool :=
  match d with [] => false | _ => true end.
End Dict.

(* ================================================================= *)
(** * Floats: exact values and correctly rounded conversions *)

Open Scope Z_scope.

(** The exact value of a finite double [x], as the integer [x * 2^1074]
    (every finite double is a multiple of [2^-1074]); [None] for
    infinities and NaN. *)
Definition SFexact (f : spec_float) : option Z :=
  match f with
  | S754_zero _ => Some 0
  | S754_finite s m e => Some (cond_Zopp s (Z.pos m * 2 ^ (e + 1074)))
  | _ => None
  end.

Definition exact (x : float) : option Z := SFexact (Prim2SF x).

Definition is_finite (x : float) : bool :=
  match exact x with Some _ => true | None => false end.

(** [p / q] rounded to the nearest integer, ties to the even one
    ([0 <= p], [0 < q]). *)
Definition round_half_even (p q : Z) : Z :=
  let k := p / q in
  match 2 * (p mod q) ?= q with
  | Lt => k
  | Gt => k + 1
  | Eq => if Z.even k then k else k + 1
  end.

(** The double nearest to [n / d] (ties to even) with sign [s], for
    positive integers [n] and [d]. *)
Definition nearest_ratio (s : bool) (n d : Z) : spec_float :=
  let '(q, e, l) := SFdiv_core_binary prec emax n 0 d 0 in
  binary_round_aux prec emax s q e l.

(** The double nearest to [sqrt (n / m)], for positive integers. *)
Definition nearest_sqrt (n m : Z) : spec_float :=
  let E := Z.div2 (Zdigits2 n - Zdigits2 m + 2) in
  let e := Z.min (fexp prec emax (E - 2)) 0 - 2 in
  let t := Z.shiftl n (2 * - e) in
  let a := Z.sqrt (t / m) in
  let l := if a * a * m =? t then loc_Exact
           else loc_Inexact ((2 * a + 1) * (2 * a + 1) * m ?= 4 * t) in
  binary_round_aux prec emax false a e l.

(** Reals at or above [2^1024 - 2^970] round to [2^1024], which is not a
    double. *)
Definition overflow_threshold : Z := 2 ^ 1024 - 2 ^ 970.

(** [n / d] on Python ints ([0 < d]): the correctly rounded quotient, or
    [OverflowError] ("integer division result too large for a float"). It
    is also [float(Fraction(n, d))]. *)
Definition int_truediv (n d : Z) : result float :=
  if overflow_threshold * d <=? Z.abs n then Raise OverflowError
  else Ok (if n =? 0 then 0%float
           else SF2Prim (nearest_ratio (n <? 0) (Z.abs n) d)).

(** [statistics._float_sqrt_of_frac(n, m)]: "Square root of n/m as a float,
    correctly rounded"; its final int division overflows as above. *)
Definition float_sqrt_of_frac (n m : Z) : result float :=
  if overflow_threshold * overflow_threshold * m <=? n then Raise OverflowError
  else Ok (if n =? 0 then 0%float else SF2Prim (nearest_sqrt n m)).

(** The double nearest to the decimal [d / 10^ndigits], signed by [s]. *)
Definition decimal (s : bool) (d : Z) (ndigits : nat) : float :=
  SF2Prim (if d =? 0 then S754_zero s
           else nearest_ratio s d (10 ^ Z.of_nat ndigits)).

(** The integer [d] such that [|x|] rounds to [d / 10^ndigits]: the exact
    value of the double, rounded half-even at that decimal position. *)
Definition decimal_digits (m : positive) (e : Z) (ndigits : nat) : Z :=
  let p := 10 ^ Z.of_nat ndigits in
  if 0 <=? e then Z.pos m * 2 ^ e * p
  else round_half_even (Z.pos m * p) (2 ^ (- e)).

(** Built-in [round(x, ndigits)] on a float, [0 <= ndigits]: "values are
    rounded to the closest multiple of 10 to the power minus ndigits; if
    two multiples are equally close, rounding is done toward the even
    choice"; the result is the double nearest to that decimal. Zeros,
    infinities and NaN round to themselves. *)
Definition round (x : float) (ndigits : nat) : float :=
  match Prim2SF x with
  | S754_finite s m e => decimal s (decimal_digits m e ndigits) ndigits
  | _ => x
  end.

(** Conversion of a Python int to float (small non-negative ints only). *)
Definition float_of_int (n : Z) : float := of_uint63 (Uint63.of_Z n).

(* ================================================================= *)
(** * The [statistics] module *)

Module statistics.

(** CPython's [Lib/statistics.py] on lists of floats. [_exact_ratio] maps a
    finite float to its exact value as a fraction and a NaN or infinity to
    itself (with denominator [None]); [_sum] and [_ss] add the fractions
    without rounding and, when a NaN or infinity is present, "ignore all
    the finite partials" and add the special values as floats, in data
    order, starting from [0]. Here the fraction of a finite float [x] is
    the integer [exact x] over the common denominator [2^1074]. *)
Definition finite_terms (data : list float) : list Z :=
  flat_map (fun x => match exact x with Some z => [z] | None => [] end) data.

Definition special_terms (data : list float) : list float :=
  filter (fun x => negb (is_finite x)) data.

Definition total (terms : list Z) : Z := fold_right Z.add 0 terms.

Definition special_total (sp : list float) : float :=
  fold_left PrimFloat.add sp 0%float.

(** [mean(data)]: [StatisticsError] on no data; otherwise [total / n], the
    exact mean, converted to float, that is, rounded once. *)
Definition mean (data : list float) : result float :=
  let n := Z.of_nat (List.length data) in
  if n <? 1 then Raise StatisticsError
  else match special_terms data with
       | [] => int_truediv (total (finite_terms data)) (n * 2 ^ 1074)
       | sp => Ok (special_total sp / float_of_int n)%float
       end.

(** [stdev(data)]: [StatisticsError] on fewer than two values; otherwise
    the square root of the sample variance
    [(n * sum x^2 - (sum x)^2) / (n * (n - 1))], computed exactly and
    rounded once. With a NaN or infinity in the data, [mss.numerator] is
    looked up on a float and raises [AttributeError]. *)
Definition stdev (data : list float) : result float :=
  let n := Z.of_nat (List.length data) in
  if n <? 2 then Raise StatisticsError
  else match special_terms data with
       | [] =>
           let xs := finite_terms data in
           let sx := total xs in
           let sxx := total (map (fun z => z * z) xs) in
           float_sqrt_of_frac (n * sxx - sx * sx) (n * (n - 1) * 2 ^ 2148)
       | _ => Raise AttributeError
       end.

End statistics.

Close Scope Z_scope.

(* ================================================================= *)
(** * The world: globals, object store, randomness, trace, files *)

Definition addr := nat.

(** The module-level names that the functions read. *)
Record Globals := {
  g_SENSOR_CONFIG : dict (dict float);
  g_READINGS : nat;
  g_DELAY_SEC : float
}.

(** What [print] writes, kept structured instead of formatted. *)
Inductive message :=
| Banner
| ReadingLine (number : nat) (data : dict float)
| AnomalyLine (anomalies : dict float)
| SummaryHeader
| SummaryBody (summary : dict (dict float))
| LoggedNotice.

Inductive event :=
| Print (m : message)
| Sleep (seconds : float).

(** The value [json.dump] serialises. *)
Inductive json :=
| JNumber (x : float)
| JArray (elements : list json)
| JObject (members : list (string * json)).

(** What a file holds: a complete JSON document, or something else (no
    text yet, or a text cut short). *)
Inductive content :=
| Document (value : json)
| Incomplete.

(** How the file system answers the program's attempt to write a file:
    the write goes through; [open] refuses (no permission, a directory of
    that name); the disk fails while [json.dump] writes; or the text
    stays in the file object's buffer and the disk fails when the buffer
    is flushed on close. *)
Inductive write_result :=
| Written
| Refused
| FailsInDump
| FailsAtClose.

Record World := {
  globals : Globals;
  (** reading dicts and list objects, by address *)
  dict_at : addr -> dict float;
  list_at : addr -> list addr;
  next_addr : addr;
  (** randomness source: the [k]-th call [random.uniform(a, b)] returns
      [uniform_outcome k a b] *)
  uniform_outcome : nat -> float -> float -> float;
  uniform_calls : nat;
  (** console output and pauses, oldest first *)
  trace : list event;
  (** the files of the working directory, by name *)
  files : dict content;
  (** the file system's answer to a write of the named file *)
  write_outcome : string -> write_result
}.

(** ** The [Py] monad: state and exceptions *)

Definition Py (A : Type) := World -> result A * World.

Definition ret {A} (a : A) : Py A := fun w => (Ok a, w).

Definition bind {A B} (m : Py A) (k : A -> Py B) : Py B :=
  fun w =>
    match m w with
    | (Ok a, w') => k a w'
    | (Raise e, w') => (Raise e, w')
    end.

Definition lift {A} (r : result A) : Py A := fun w => (r, w).

Declare Scope py_scope.
Delimit Scope py_scope with py.
Notation "x <- m ;; k" := (bind m (fun x => k))
  (at level 100, m at next level, right associativity) : py_scope.
Notation "m ;; k" := (bind m (fun _ => k))
  (at level 100, right associativity) : py_scope.
Open Scope py_scope.

(** [for x in xs: body], with the local variables the body rebinds or
    mutates carried as [s]. *)
Fixpoint for_each {A S} (xs : list A) (body : A -> S -> Py S) (s : S) : Py S :=
  match xs with
  | [] => ret s
  | x :: rest => s' <- body x s ;; for_each rest body s'
  end.

(** [[f(x) for x in xs]] *)
Fixpoint list_comp {A B} (xs : list A) (f : A -> Py B) : Py (list B) :=
  match xs with
  | [] => ret []
  | x :: rest => y <- f x ;; ys <- list_comp rest f ;; ret (y :: ys)
  end.

(** ** Primitive operations *)

Definition load_global {A} (name : Globals -> A) : Py A :=
  fun w => (Ok (name (globals w)), w).

Definition deref_dict (a : addr) : Py (dict float) :=
  fun w => (Ok (dict_at w a), w).

Definition deref_list (a : addr) : Py (list addr) :=
  fun w => (Ok (list_at w a), w).

(** Allocation of a fresh dict object holding [d]. *)
Definition new_dict (d : dict float) : Py addr :=
  fun w =>
    let a := next_addr w in
    (Ok a,
     {| globals := globals w;
        dict_at := fun a' => if Nat.eqb a' a then d else dict_at w a';
        list_at := list_at w;
        next_addr := S a;
        uniform_outcome := uniform_outcome w;
        uniform_calls := uniform_calls w;
        trace := trace w;
        files := files w;
        write_outcome := write_outcome w |}).

(** [[]]: allocation of a fresh empty list object. *)
Definition new_list : Py addr :=
  fun w =>
    let a := next_addr w in
    (Ok a,
     {| globals := globals w;
        dict_at := dict_at w;
        list_at := fun a' => if Nat.eqb a' a then [] else list_at w a';
        next_addr := S a;
        uniform_outcome := uniform_outcome w;
        uniform_calls := uniform_calls w;
        trace := trace w;
        files := files w;
        write_outcome := write_outcome w |}).

(** [l.append(x)] *)
Definition list_append (l : addr) (x : addr) : Py unit :=
  fun w =>
    (Ok tt,
     {| globals := globals w;
        dict_at := dict_at w;
        list_at := fun a' => if Nat.eqb a' l then list_at w l ++ [x] else list_at w a';
        next_addr := next_addr w;
        uniform_outcome := uniform_outcome w;
        uniform_calls := uniform_calls w;
        trace := trace w;
        files := files w;
        write_outcome := write_outcome w |}).

Definition emit (e : event) : Py unit :=
  fun w =>
    (Ok tt,
     {| globals := globals w;
        dict_at := dict_at w;
        list_at := list_at w;
        next_addr := next_addr w;
        uniform_outcome := uniform_outcome w;
        uniform_calls := uniform_calls w;
        trace := trace w ++ [e];
        files := files w;
        write_outcome := write_outcome w |}).

Definition print (m : message) : Py unit := emit (Print m).

Module time.
Definition sleep (seconds : float) : Py unit := emit (Sleep seconds).
End time.

Module random.
(** [random.uniform(a, b)]: "Return a random floating point number N
    such that a <= N <= b for a <= b". The number is the next outcome
    of the world's randomness source; that it lies within the bounds is
    the hypothesis [honest_randomness] of the theorems that need it. *)
Definition uniform (a b : float) : Py float :=
  fun w =>
    (Ok (uniform_outcome w (uniform_calls w) a b),
     {| globals := globals w;
        dict_at := dict_at w;
        list_at := list_at w;
        next_addr := next_addr w;
        uniform_outcome := uniform_outcome w;
        uniform_calls := S (uniform_calls w);
        trace := trace w;
        files := files w;
        write_outcome := write_outcome w |}).
End random.

(** The world with file [path] holding [c]. *)
Definition set_file (path : string) (c : content) (w : World) : World :=
  {| globals := globals w;
     dict_at := dict_at w;
     list_at := list_at w;
     next_addr := next_addr w;
     uniform_outcome := uniform_outcome w;
     uniform_calls := uniform_calls w;
     trace := trace w;
     files := setitem (files w) path c;
     write_outcome := write_outcome w |}.

(** [open(path, "w")]: when the file system refuses, [OSError] (or one of
    its subclasses) and the file, if there is one, stays as it was;
    otherwise the file exists and is empty. The file object is named by
    its path. *)
Definition open_w (path : string) : Py string :=
  fun w =>
    match write_outcome w path with
    | Refused => (Raise OSError, w)
    | _ => (Ok path, set_file path Incomplete w)
    end.

(** [json.dump(value, f, indent=2)]: the text of [value] goes to the file
    object, unless the disk fails on the way. *)
Definition json_dump (value : json) (f : string) : Py unit :=
  fun w =>
    match write_outcome w f with
    | FailsInDump => (Raise OSError, w)
    | _ => (Ok tt, set_file f (Document value) w)
    end.

(** [f.close()]: what is buffered is flushed; when that fails the file is
    left without the complete text. *)
Definition close (f : string) : Py unit :=
  fun w =>
    match write_outcome w f with
    | FailsAtClose => (Raise OSError, set_file f Incomplete w)
    | _ => (Ok tt, w)
    end.

(** [with open(path, "w") as f: body]: the file is closed on the way out,
    also when the body raises; an exception of [close] takes the place of
    the body's. *)
Definition with_open_w {A} (path : string) (body : string -> Py A) : Py A :=
  f <- open_w path ;;
  fun w =>
    match body f w with
    | (Ok a, w') => (close f ;; ret a) w'
    | (Raise e, w') =>
        match close f w' with
        | (Ok _, w'') => (Raise e, w'')
        | (Raise e', w'') => (Raise e', w'')
        end
    end.

(** The JSON values of the program's objects. *)
Definition json_of_floats (d : dict float) : json :=
  JObject (map (fun kv => (fst kv, JNumber (snd kv))) d).

Definition json_of_summary (s : dict (dict float)) : json :=
  JObject (map (fun kv => (fst kv, json_of_floats (snd kv))) s).

Definition json_of_log (l : addr) : Py json :=
  fun w => (Ok (JArray (map (fun a => json_of_floats (dict_at w a)) (list_at w l))), w).

(* ================================================================= *)
(** * The program *)

Open Scope float_scope.

(** Configuration for simulated sensors *)
Definition SENSOR_CONFIG : dict (dict float) :=
  dict_literal
    [("temperature", dict_literal [("min", 19.0); ("max", 24.0)]);
     ("vibration", dict_literal [("min", 0.1); ("max", 1.0)]);
     ("voltage", dict_literal [("min", 110.0); ("max", 125.0)])].

(** Number of readings and delay *)
Definition READINGS : nat := 10.
Definition DELAY_SEC : float := 1.0.

Definition module_globals : Globals :=
  {| g_SENSOR_CONFIG := SENSOR_CONFIG;
     g_READINGS := READINGS;
     g_DELAY_SEC := DELAY_SEC |}.

(** Simulates a single batch of sensor readings. *)
Definition generate_sensor_data : Py addr :=
  t <- random.uniform 18.5 24.5 ;;
  v <- random.uniform 0.05 1.1 ;;
  u <- random.uniform 108.0 127.0 ;;
  new_dict (dict_literal [("temperature", round t 2);
                          ("vibration", round v 2);
                          ("voltage", round u 2)]).

(** Detects if any readings are outside of normal thresholds.
    [detect_anomalies_body] is the body of its [for] loop, with the local
    dict [anomalies] carried through. *)
Definition detect_anomalies_body (sr : string * float) (anomalies : dict float)
  : Py (dict float) :=
  let '(sensor, reading) := sr in
  config <- load_global g_SENSOR_CONFIG ;;
  limits <- lift (getitem config sensor) ;;
  lo <- lift (getitem limits "min") ;;
  outside <- (if reading <? lo then ret true
              else hi <- lift (getitem limits "max") ;; ret (hi <? reading)) ;;
  if outside then ret (setitem anomalies sensor reading) else ret anomalies.

Definition detect_anomalies (data : addr) : Py (dict float) :=
  d <- deref_dict data ;;
  for_each (items d) detect_anomalies_body [].

(** Computes average values and gives basic health status.
    [health_status_body log] is the body of its [for] loop, with the local
    dict [status] carried through. *)
Definition health_status_body (log : addr) (sensor : string)
  (status : dict (dict float)) : Py (dict (dict float)) :=
  entries <- deref_list log ;;
  values <- list_comp entries (fun entry =>
              d <- deref_dict entry ;; lift (getitem d sensor)) ;;
  m <- lift (statistics.mean values) ;;
  let avg := round m 2 in
  sd <- (if Nat.ltb 1 (List.length values)
         then s <- lift (statistics.stdev values) ;; ret (round s 2)
         else ret 0.0) ;;
  ret (setitem status sensor (dict_literal [("avg", avg); ("std_dev", sd)])).

Definition health_status (log : addr) : Py (dict (dict float)) :=
  config <- load_global g_SENSOR_CONFIG ;;
  for_each (keys config) (health_status_body log) [].

(** One pass of the loop body of [main], for [i] in [range(READINGS)]. *)
Definition main_tick (log : addr) (i : nat) : Py unit :=
  data <- generate_sensor_data ;;
  list_append log data ;;
  anomalies <- detect_anomalies data ;;
  d <- deref_dict data ;;
  print (ReadingLine (i + 1) d) ;;
  (if truthy anomalies then print (AnomalyLine anomalies) else ret tt) ;;
  delay <- load_global g_DELAY_SEC ;;
  time.sleep delay.

Definition main_loop (log : addr) (n : nat) : Py unit :=
  for_each (seq 0 n) (fun i _ => main_tick log i) tt.

Definition main : Py unit :=
  print Banner ;;
  log <- new_list ;;
  n <- load_global g_READINGS ;;
  main_loop log n ;;
  print SummaryHeader ;;
  summary <- health_status log ;;
  print (SummaryBody summary) ;;
  with_open_w "edge_health_log.json" (fun f =>
    readings <- json_of_log log ;;
    json_dump
      (JObject [("readings", readings); ("summary", json_of_summary summary)])
      f ;;
    print LoggedNotice).

Close Scope float_scope.

(* ================================================================= *)
(** * Vocabulary of the specification *)

(** A computation that leaves the world as it found it, whether it
    returns or raises. *)
Definition reads_only {A} (m : Py A) : Prop := forall w, snd (m w) = w.

(** A dict has each key once. *)
Definition unique_keys {V} (d : dict V) : Prop := NoDup (keys d).

(** The configured bound ["min"] or ["max"] of a sensor. *)
Definition limit (sensor bound : string) : option float :=
  match lookup SENSOR_CONFIG sensor with
  | Some limits => lookup limits bound
  | None => None
  end.

(** [v] is strictly below the sensor's min or strictly above its max. *)
Definition out_of_range (sensor : string) (v : float) : Prop :=
  exists lo hi,
    limit sensor "min" = Some lo /\ limit sensor "max" = Some hi /\
    ((v <? lo)%float = true \/ (hi <? v)%float = true).

Definition out_of_rangeb (sensor : string) (v : float) : bool :=
  match limit sensor "min", limit sensor "max" with
  | Some lo, Some hi => (v <? lo)%float || (hi <? v)%float
  | _, _ => false
  end.

(** What one pass of the anomaly loop does to [anomalies]. *)
Definition flag (anomalies : dict float) (sr : string * float) : dict float :=
  if out_of_rangeb (fst sr) (snd sr)
  then setitem anomalies (fst sr) (snd sr) else anomalies.

(** The first key of [d] that [SENSOR_CONFIG] does not have. *)
Definition first_unconfigured (d : dict float) : option string :=
  find (fun k => match lookup SENSOR_CONFIG k with Some _ => false | None => true end)
       (keys d).

(** ** Example worlds *)

(** A world at program start, with the given globals and randomness. *)
Definition boot (g : Globals) (rng : nat -> float -> float -> float) : World :=
  {| globals := g;
     dict_at := fun _ => [];
     list_at := fun _ => [];
     next_addr := 0;
     uniform_outcome := rng;
     uniform_calls := 0;
     trace := [];
     files := [];
     write_outcome := fun _ => Written |}.

(** A randomness source that always returns the lower end. *)
Definition lowest : nat -> float -> float -> float := fun _ a _ => a.

(** The world right after [data = {...}] at address [0]. *)
Definition world_with_reading (d : dict float) : World :=
  snd (new_dict d (boot module_globals lowest)).

Definition hot_reading : World :=
  world_with_reading
    [("temperature", 25.0); ("vibration", 0.1); ("voltage", 109.99)]%float.

Definition humid_reading : World :=
  world_with_reading
    [("temperature", 20.0); ("humidity", 0.5); ("voltage", 115.0)]%float.

(** ** Moderate values *)

(** A finite double of magnitude at most [2^1023]. *)
Definition moderate (x : float) : bool :=
  match exact x with
  | Some z => (Z.abs z <=? 2 ^ 2097)%Z
  | None => false
  end.

(** ** The summary as a function of the log entries *)

(** The values of [sensor] across the entries, in log order; an entry
    without the sensor raises [KeyError]. *)
Fixpoint column_of (entries : list (dict float)) (sensor : string)
  : result (list float) :=
  match entries with
  | [] => Ok []
  | d :: rest =>
      result_bind (getitem d sensor) (fun v =>
      result_bind (column_of rest sensor) (fun vs => Ok (v :: vs)))
  end.

(** Mean and sample standard deviation of one sensor's values, each
    rounded to 2 decimals; the deviation of fewer than 2 values is [0.0]. *)
Definition summarize (values : list float) : result (dict float) :=
  result_bind (statistics.mean values) (fun m =>
  result_bind (if Nat.ltb 1 (List.length values)
               then result_bind (statistics.stdev values)
                                (fun s => Ok (round s 2))
               else Ok 0%float) (fun sd =>
  Ok [("avg", round m 2); ("std_dev", sd)])).

Definition sensor_summary (entries : list (dict float)) (sensor : string)
  : result (dict float) :=
  result_bind (column_of entries sensor) summarize.

Definition add_summary (entries : list (dict float))
  (acc : result (dict (dict float))) (sensor : string)
  : result (dict (dict float)) :=
  result_bind acc (fun status =>
  result_bind (sensor_summary entries sensor) (fun s =>
  Ok (setitem status sensor s))).

Definition summary_of (entries : list (dict float)) : result (dict (dict float)) :=
  fold_left (add_summary entries) (keys SENSOR_CONFIG) (Ok []).

(** The dicts a list object holds, in order. *)
Definition entries_of (w : World) (log : addr) : list (dict float) :=
  map (dict_at w) (list_at w log).

(** Every entry has every configured sensor. *)
Definition complete (entries : list (dict float)) : Prop :=
  forall d sensor,
    In d entries -> In sensor (keys SENSOR_CONFIG) -> In sensor (keys d).

(** Every value of a configured sensor is moderate. *)
Definition moderate_entries (entries : list (dict float)) : Prop :=
  forall d sensor v,
    In d entries -> In sensor (keys SENSOR_CONFIG) ->
    lookup d sensor = Some v -> moderate v = true.

(** The world after [log = [r1, r2, ...]]: the list at address [0], the
    dicts after it. *)
Definition world_with_log (readings : list (dict float)) : World :=
  snd ((log <- new_list ;;
        for_each readings
          (fun d _ => a <- new_dict d ;; list_append log a) tt)
         (boot module_globals lowest)).

(** Example logs. *)
Definition single_reading_log : World :=
  world_with_log
    [[("temperature", 20.0); ("vibration", 0.5); ("voltage", 115.0)]%float].

Definition three_reading_log : World :=
  world_with_log
    [[("temperature", 20.0); ("vibration", 0.5); ("voltage", 115.0)];
     [("temperature", 25.0); ("vibration", 0.25); ("voltage", 110.5)];
     [("temperature", 18.5); ("vibration", 1.1); ("voltage", 120.0)]]%float.

(** The same world with a second list object, at address [4], holding the
    same three dicts in another order. *)
Definition two_orders_log : World :=
  snd ((l <- new_list ;;
        list_append l 3 ;; list_append l 1 ;; list_append l 2)
         three_reading_log).

Definition extra_key_log : World :=
  world_with_log
    [[("temperature", 20.0); ("humidity", 40.0); ("vibration", 0.5);
      ("voltage", 115.0)];
     [("temperature", 21.0); ("vibration", 0.75); ("voltage", 116.0);
      ("pressure", 1013.25)]]%float.

Definition huge_temperature_log : World :=
  world_with_log
    [[("temperature", 1.5e308); ("vibration", 0.5); ("voltage", 115.0)];
     [("temperature", -1.5e308); ("vibration", 0.5); ("voltage", 115.0)]]%float.

Definition huge_voltage_log : World :=
  world_with_log
    [[("temperature", 20.0); ("vibration", 0.5); ("voltage", 1.7e308)];
     [("temperature", 20.0); ("vibration", 0.5); ("voltage", -1.7e308)]]%float.

(** ** The sampler *)

(** The randomness source keeps the documented promise of
    [random.uniform]: [a <= N <= b] whenever [a <= b]. *)
Definition honest_randomness (rng : nat -> float -> float -> float) : Prop :=
  forall k a b,
    (a <=? b)%float = true ->
    (a <=? rng k a b)%float = true /\ (rng k a b <=? b)%float = true.

(** [x] is the double nearest to a decimal with 2 fractional digits. *)
Definition two_decimals (x : float) : Prop :=
  exists (s : bool) (d : Z), (0 <= d)%Z /\ x = decimal s d 2.

(** The reading that [generate_sensor_data] builds in world [w]: the next
    three outcomes of the randomness source, each rounded. *)
Definition generated (w : World) : dict float :=
  let k := uniform_calls w in
  [("temperature", round (uniform_outcome w k 18.5 24.5) 2);
   ("vibration", round (uniform_outcome w (S k) 0.05 1.1) 2);
   ("voltage", round (uniform_outcome w (S (S k)) 108.0 127.0) 2)]%float.

(** The number of hundredths nearest to the value whose exact form is
    [z] (that is, to [z / 2^1074]), ties to even. *)
Definition hundredths (z : Z) : Z := round_half_even (z * 100) (2 ^ 1074).

(** The integers [lo, lo+1, ..., lo+n-1]. *)
Definition Zrange (lo : Z) (n : nat) : list Z :=
  map (fun i => (lo + Z.of_nat i)%Z) (seq 0 n).

(** Every decimal [d / 100] with [d] in the range is, as a double, within
    [lo, hi] and moderate. *)
Definition decimals_within (lo hi : float) (dlo : Z) (n : nat) : bool :=
  forallb (fun d => let x := decimal false d 2 in
                    (lo <=? x)%float && (x <=? hi)%float && moderate x)
          (Zrange dlo n).

(** The bounds [lo] and [hi] are positive and their hundredths lie in the
    range. *)
Definition range_digits (lo hi : float) (dlo : Z) (n : nat) : bool :=
  match exact lo, exact hi with
  | Some za, Some zb =>
      (0 <? za)%Z && (dlo <=? hundredths za)%Z
      && (hundredths zb <? dlo + Z.of_nat n)%Z
  | _, _ => false
  end.

(** ** The driver *)

(** The reading produced on tick [i] (from [0]) of a loop entered in world
    [w0]: the outcomes [3i], [3i+1], [3i+2] after the calls already made. *)
Definition reading_of_tick (w0 : World) (i : nat) : dict float :=
  let k := uniform_calls w0 + 3 * i in
  [("temperature", round (uniform_outcome w0 k 18.5 24.5) 2);
   ("vibration", round (uniform_outcome w0 (S k) 0.05 1.1) 2);
   ("voltage", round (uniform_outcome w0 (S (S k)) 108.0 127.0) 2)]%float.

(** The loop of [main] from tick [k] on, for [n] more ticks. *)
Definition main_loop_from (log : addr) (k n : nat) : Py unit :=
  for_each (seq k n) (fun i _ => main_tick log i) tt.

(** The program's globals with another reading count. *)
Definition globals_with_readings (n : nat) : Globals :=
  {| g_SENSOR_CONFIG := SENSOR_CONFIG;
     g_READINGS := n;
     g_DELAY_SEC := DELAY_SEC |}.

(* ================================================================= *)
(** * Further vocabulary *)

(** The items of a reading that are out of range, in the reading's order. *)
Definition anomalies_of (d : dict float) : dict float :=
  filter (fun sr => out_of_rangeb (fst sr) (snd sr)) d.

(** A reading with a NaN and both infinities. *)
Definition odd_reading : World :=
  world_with_reading
    [("temperature", nan); ("vibration", infinity);
     ("voltage", neg_infinity)]%float.

(** [hot_reading] with its anomalies stored as a second dict, at address
    [1]. *)
Definition hot_reading_and_anomalies : World :=
  snd (new_dict [("temperature", 25.0); ("voltage", 109.99)]%float hot_reading).

(** A log whose second entry lacks the vibration sensor. *)
Definition missing_vibration_log : World :=
  world_with_log
    [[("temperature", 20.0); ("vibration", 0.5); ("voltage", 115.0)];
     [("temperature", 21.0); ("voltage", 116.0)]]%float.

(** A log of one reading with a NaN, a huge value and an infinity. *)
Definition single_odd_reading_log : World :=
  world_with_log
    [[("temperature", nan); ("vibration", 1.7e308);
      ("voltage", infinity)]%float].

(** A log whose voltage never changes. *)
Definition steady_voltage_log : World :=
  world_with_log
    [[("temperature", 20.0); ("vibration", 0.5); ("voltage", 115.0)];
     [("temperature", 21.5); ("vibration", 0.25); ("voltage", 115.0)];
     [("temperature", 19.0); ("vibration", 0.75); ("voltage", 115.0)]]%float.

(** What tick [i] of a loop entered in world [w0] sends to the console and
    how long it pauses: the reading, a warning when something is flagged,
    the delay. *)
Definition tick_events (w0 : World) (i : nat) : list event :=
  let d := reading_of_tick w0 i in
  [Print (ReadingLine (i + 1) d)]
  ++ (if truthy (anomalies_of d) then [Print (AnomalyLine (anomalies_of d))] else [])
  ++ [Sleep (g_DELAY_SEC (globals w0))].

(** A value is within [lo, lower) or within (upper, hi]. *)
Definition in_margins (lo lower upper hi x : float) : bool :=
  ((lo <=? x)%float && (x <? lower)%float)
  || ((upper <? x)%float && (x <=? hi)%float).

(** Equality of two doubles, decided on their specifications. *)
Definition same_float (a b : float) : bool :=
  match Prim2SF a, Prim2SF b with
  | S754_zero s, S754_zero s' => Bool.eqb s s'
  | S754_infinity s, S754_infinity s' => Bool.eqb s s'
  | S754_nan, S754_nan => true
  | S754_finite s m e, S754_finite s' m' e' =>
      Bool.eqb s s' && Pos.eqb m m' && Z.eqb e e'
  | _, _ => false
  end.

(** The mean of the one value [x], after cancelling the power of two
    that the total [x * 2^1074] and the denominator [2^1074] share (for a
    finite [x] with a negative exponent). *)
Definition mean_of_one (x : float) : float :=
  match Prim2SF x with
  | S754_finite s m e => SF2Prim (nearest_ratio s (Z.pos m) (2 ^ (- e)))
  | _ => x
  end.

(** For every decimal [d / 100] with [d] in the range, the mean of the one
    value, rounded to 2 decimals, is the value itself. *)
Definition decimals_stable (dlo : Z) (n : nat) : bool :=
  forallb (fun d => let x := decimal false d 2 in
                    match Prim2SF x with
                    | S754_finite _ _ e =>
                        (e <? 0)%Z && same_float (round (mean_of_one x) 2) x
                    | _ => false
                    end)
          (Zrange dlo n).

(** A log holding one reading taken at the lower ends of the sampler's
    ranges. *)
Definition one_generated_log : World :=
  snd ((log <- new_list ;;
        data <- generate_sensor_data ;;
        list_append log data)
         (boot module_globals lowest)).

(** A world whose object 0 is a log without entries. *)
Definition empty_log : World := snd (new_list (boot module_globals lowest)).

(** ** The file system *)

(** A computation that leaves the file system's answers as they are. *)
Definition keeps_write_outcome {A} (m : Py A) : Prop :=
  forall w, write_outcome (snd (m w)) = write_outcome w.

(** The last statement of [main]: the [with] block that writes the log
    and the summary. *)
Definition main_save (log : addr) (summary : dict (dict float)) : Py unit :=
  with_open_w "edge_health_log.json" (fun f =>
    readings <- json_of_log log ;;
    json_dump
      (JObject [("readings", readings); ("summary", json_of_summary summary)])
      f ;;
    print LoggedNotice).

(** The document that [main] writes for the entries of a log and their
    summary. *)
Definition log_document (entries : list (dict float))
  (summary : dict (dict float)) : content :=
  Document (JObject [("readings", JArray (map json_of_floats entries));
                     ("summary", json_of_summary summary)]).

(** The world [w] on a file system that answers every write with
    [outcome]. *)
Definition on_disk (outcome : write_result) (w : World) : World :=
  {| globals := globals w;
     dict_at := dict_at w;
     list_at := list_at w;
     next_addr := next_addr w;
     uniform_outcome := uniform_outcome w;
     uniform_calls := uniform_calls w;
     trace := trace w;
     files := files w;
     write_outcome := fun _ => outcome |}.


(* ================================================================= *)
(** * The library model on known values

    Values printed by CPython 3.11 for the same calls. *)

Example round_ties_to_even :
  (round 0.125 2 = 0.12 /\ round 0.375 2 = 0.38 /\ round 2.675 2 = 2.67 /\
   round (-0.001) 2 = (-0.0) /\ round 24.499 2 = 24.5 /\
   round infinity 2 = infinity /\ round nan 2 = nan)%float.
Proof. vm_compute. repeat split. Qed.

Example mean_of_floats :
  (statistics.mean [0.1; 0.2; 0.4] = Ok 0.23333333333333334 /\
   statistics.mean [1.7e308; 1.7e308; 1.7e308] = Ok 1.7e308 /\
   statistics.mean [infinity; 1.0] = Ok infinity /\
   statistics.mean [infinity; neg_infinity] = Ok nan /\
   statistics.mean [] = Raise StatisticsError)%float.
Proof. vm_compute. repeat split. Qed.

Example stdev_of_floats :
  (statistics.stdev [0.1; 0.2; 0.4] = Ok 0.15275252316519466 /\
   statistics.stdev [1.5; 2.5; 2.5; 2.75; 3.25; 4.75] = Ok 1.0810874155219827 /\
   statistics.stdev [1.2e308; 1.0] = Ok 8.48528137423857e307 /\
   statistics.stdev [1.7e308; -1.7e308] = Raise OverflowError /\
   statistics.stdev [infinity; 1.0] = Raise AttributeError /\
   statistics.stdev [1.0] = Raise StatisticsError)%float.
Proof. vm_compute. repeat split. Qed.

(** A run of [main] with three readings, the randomness alternating
    between the ends of each range. *)
Example main_three_readings :
  files (snd (main (boot (globals_with_readings 3)
                         (fun k a b => if Nat.even k then a else b))))
  = [("edge_health_log.json",
      Document (JObject
        [("readings",
          JArray
            [JObject [("temperature", JNumber 18.5); ("vibration", JNumber 1.1);
                      ("voltage", JNumber 108.0)];
             JObject [("temperature", JNumber 24.5); ("vibration", JNumber 0.05);
                      ("voltage", JNumber 127.0)];
             JObject [("temperature", JNumber 18.5); ("vibration", JNumber 1.1);
                      ("voltage", JNumber 108.0)]]);
         ("summary",
          JObject
            [("temperature",
              JObject [("avg", JNumber 20.5); ("std_dev", JNumber 3.46)]);
             ("vibration",
              JObject [("avg", JNumber 0.75); ("std_dev", JNumber 0.61)]);
             ("voltage",
              JObject [("avg", JNumber 114.33); ("std_dev", JNumber 10.97)])])]))]%float.
Proof. vm_compute. reflexivity. Qed.


(* ================================================================= *)
(** * Dicts: lookup and update *)

Section DictFacts.
Context {V : Type}.
Implicit Types (d : dict V) (k : string) (v : V).

Lemma lookup_setitem_eq d k v : lookup (setitem d k v) k = Some v.
Proof.
  induction d as [|[k' v'] d IH]; simpl.
  - now rewrite String.eqb_refl.
  - destruct (String.eqb k' k) eqn:E; simpl; rewrite E; auto.
Qed.

Lemma lookup_setitem_neq d k k' v :
  k <> k' -> lookup (setitem d k v) k' = lookup d k'.
Proof.
  intros Hne. induction d as [|[k0 v0] d IH]; simpl.
  - destruct (String.eqb k k') eqn:E; auto.
    apply String.eqb_eq in E. contradiction.
  - destruct (String.eqb k0 k) eqn:E; simpl.
    + apply String.eqb_eq in E. subst k0.
      destruct (String.eqb k k') eqn:E'; auto.
      apply String.eqb_eq in E'. contradiction.
    + now rewrite IH.
Qed.

Lemma lookup_None d k : lookup d k = None <-> ~ In k (keys d).
Proof.
  induction d as [|[k' v'] d IH]; simpl.
  - tauto.
  - destruct (String.eqb k' k) eqn:E.
    + apply String.eqb_eq in E. split; [discriminate | tauto].
    + apply String.eqb_neq in E. rewrite IH. tauto.
Qed.

Lemma lookup_Some_In d k v : lookup d k = Some v -> In k (keys d).
Proof.
  intros H. destruct (in_dec string_dec k (keys d)) as [|n]; auto.
  apply lookup_None in n. congruence.
Qed.

Lemma In_keys_lookup d k : In k (keys d) -> exists v, lookup d k = Some v.
Proof.
  intros H. destruct (lookup d k) eqn:E; eauto.
  apply lookup_None in E. contradiction.
Qed.

Lemma keys_setitem_new d k v :
  ~ In k (keys d) -> keys (setitem d k v) = keys d ++ [k].
Proof.
  induction d as [|[k' v'] d IH]; simpl; intros H; auto.
  destruct (String.eqb k' k) eqn:E.
  - apply String.eqb_eq in E. tauto.
  - simpl. f_equal. apply IH. tauto.
Qed.

Lemma keys_setitem_old d k v :
  In k (keys d) -> keys (setitem d k v) = keys d.
Proof.
  induction d as [|[k' v'] d IH]; simpl; intros H; [tauto|].
  destruct (String.eqb k' k) eqn:E; simpl; auto.
  f_equal. apply IH. destruct H; auto.
  apply String.eqb_neq in E. contradiction.
Qed.

End DictFacts.

(* ================================================================= *)
(** * The [Py] monad: computations that only read the world *)

Lemma reads_only_ret {A} (a : A) : reads_only (ret a).
Proof. now intros w. Qed.

Lemma reads_only_lift {A} (r : result A) : reads_only (lift r).
Proof. now intros w. Qed.

Lemma reads_only_bind {A B} (m : Py A) (k : A -> Py B) :
  reads_only m -> (forall a, reads_only (k a)) -> reads_only (bind m k).
Proof.
  intros Hm Hk w. unfold bind. specialize (Hm w).
  destruct (m w) as [[a|e] w']; simpl in *; subst; auto. apply Hk.
Qed.

Lemma reads_only_load {A} (name : Globals -> A) : reads_only (load_global name).
Proof. now intros w. Qed.

Lemma reads_only_deref_dict a : reads_only (deref_dict a).
Proof. now intros w. Qed.

Lemma reads_only_deref_list a : reads_only (deref_list a).
Proof. now intros w. Qed.

Lemma reads_only_for_each {A S} (xs : list A) (body : A -> S -> Py S) :
  (forall x s, reads_only (body x s)) -> forall s, reads_only (for_each xs body s).
Proof.
  intros Hb. induction xs as [|x xs IH]; intros s; simpl.
  - apply reads_only_ret.
  - apply reads_only_bind; auto.
Qed.

Lemma reads_only_list_comp {A B} (xs : list A) (f : A -> Py B) :
  (forall x, reads_only (f x)) -> reads_only (list_comp xs f).
Proof.
  intros Hf. induction xs as [|x xs IH]; simpl.
  - apply reads_only_ret.
  - apply reads_only_bind; auto. intros y.
    apply reads_only_bind; auto. intros ys. apply reads_only_ret.
Qed.

Create HintDb reads.
#[local] Hint Resolve reads_only_ret reads_only_lift reads_only_load
  reads_only_deref_dict reads_only_deref_list : reads.

Ltac reads_only_step :=
  first [ solve [auto with reads]
        | apply reads_only_bind; [| intros ?]
        | apply reads_only_for_each; intros ? ?
        | apply reads_only_list_comp; intros ?
        | match goal with
          | |- reads_only (if ?b then _ else _) => destruct b
          end ].

Lemma reads_only_detect_anomalies_body sr anomalies :
  reads_only (detect_anomalies_body sr anomalies).
Proof.
  destruct sr as [sensor reading]. unfold detect_anomalies_body.
  repeat reads_only_step.
Qed.

#[local] Hint Resolve reads_only_detect_anomalies_body : reads.

Lemma reads_only_detect_anomalies data : reads_only (detect_anomalies data).
Proof. unfold detect_anomalies. repeat reads_only_step. Qed.

Lemma reads_only_health_status_body log sensor status :
  reads_only (health_status_body log sensor status).
Proof. unfold health_status_body. repeat reads_only_step. Qed.

#[local] Hint Resolve reads_only_health_status_body : reads.

Lemma reads_only_health_status log : reads_only (health_status log).
Proof. unfold health_status. repeat reads_only_step. Qed.


(* ================================================================= *)
(** * [detect_anomalies] *)

Lemma configured_sensors k :
  In k (keys SENSOR_CONFIG) <->
  k = "temperature" \/ k = "vibration" \/ k = "voltage".
Proof.
  vm_compute. intuition congruence.
Qed.

Lemma config_limits sensor limits :
  lookup SENSOR_CONFIG sensor = Some limits ->
  exists lo hi, lookup limits "min" = Some lo /\ lookup limits "max" = Some hi.
Proof.
  intros H. assert (Hin := lookup_Some_In _ _ _ H).
  apply configured_sensors in Hin.
  destruct Hin as [-> | [-> | ->]]; vm_compute in H; inversion H; subst;
    do 2 eexists; split; reflexivity.
Qed.

#[global] Opaque SENSOR_CONFIG.

Lemma detect_anomalies_body_configured w sensor reading anomalies limits :
  g_SENSOR_CONFIG (globals w) = SENSOR_CONFIG ->
  lookup SENSOR_CONFIG sensor = Some limits ->
  detect_anomalies_body (sensor, reading) anomalies w
  = (Ok (flag anomalies (sensor, reading)), w).
Proof.
  intros Hg Hl. destruct (config_limits _ _ Hl) as (lo & hi & Hlo & Hhi).
  unfold detect_anomalies_body, flag, out_of_rangeb, limit, bind, load_global,
    lift, getitem, ret, fst, snd.
  rewrite Hg, Hl, Hlo, Hhi.
  destruct (PrimFloat.ltb reading lo); cbn [orb]; auto.
  destruct (PrimFloat.ltb hi reading); auto.
Qed.

Lemma detect_anomalies_body_unconfigured w sensor reading anomalies :
  g_SENSOR_CONFIG (globals w) = SENSOR_CONFIG ->
  lookup SENSOR_CONFIG sensor = None ->
  detect_anomalies_body (sensor, reading) anomalies w
  = (Raise (KeyError sensor), w).
Proof.
  intros Hg Hl.
  unfold detect_anomalies_body, bind, load_global, lift, getitem.
  now rewrite Hg, Hl.
Qed.

Lemma first_unconfigured_cons sensor reading (d : dict float) :
  first_unconfigured ((sensor, reading) :: d)
  = match lookup SENSOR_CONFIG sensor with
    | Some _ => first_unconfigured d
    | None => Some sensor
    end.
Proof.
  unfold first_unconfigured. cbn [keys map fst find].
  now destruct (lookup SENSOR_CONFIG sensor).
Qed.

(** The loop either stops at the first unconfigured key, or flags the items
    one after the other. *)
Lemma detect_anomalies_loop w (d : dict float) :
  g_SENSOR_CONFIG (globals w) = SENSOR_CONFIG ->
  forall anomalies,
    for_each (items d) detect_anomalies_body anomalies w
    = match first_unconfigured d with
      | Some k => (Raise (KeyError k), w)
      | None => (Ok (fold_left flag d anomalies), w)
      end.
Proof.
  intros Hg. unfold items.
  induction d as [|[sensor reading] d IH]; intros anomalies; [reflexivity|].
  rewrite first_unconfigured_cons. cbn [for_each fold_left]. unfold bind at 1.
  destruct (lookup SENSOR_CONFIG sensor) as [limits|] eqn:Hl.
  - rewrite (detect_anomalies_body_configured _ _ _ _ _ Hg Hl). apply IH.
  - now rewrite (detect_anomalies_body_unconfigured _ _ _ _ Hg Hl).
Qed.

Lemma detect_anomalies_run w data :
  g_SENSOR_CONFIG (globals w) = SENSOR_CONFIG ->
  detect_anomalies data w
  = match first_unconfigured (dict_at w data) with
    | Some k => (Raise (KeyError k), w)
    | None => (Ok (fold_left flag (dict_at w data) []), w)
    end.
Proof.
  intros Hg. unfold detect_anomalies, bind at 1, deref_dict.
  now apply detect_anomalies_loop.
Qed.

Lemma first_unconfigured_None (d : dict float) :
  first_unconfigured d = None <->
  (forall k, In k (keys d) -> In k (keys SENSOR_CONFIG)).
Proof.
  unfold first_unconfigured. split.
  - intros H k Hk.
    assert (Hf := find_none _ _ H _ Hk). simpl in Hf.
    destruct (lookup SENSOR_CONFIG k) eqn:E; [|discriminate].
    eapply lookup_Some_In; eauto.
  - intros H. induction (keys d) as [|k ks IH]; simpl; auto.
    destruct (In_keys_lookup SENSOR_CONFIG k) as [v Hv]; [apply H; now left|].
    rewrite Hv. apply IH. intros k' Hk'. apply H. now right.
Qed.

Lemma first_unconfigured_Some (d : dict float) k :
  first_unconfigured d = Some k ->
  In k (keys d) /\ ~ In k (keys SENSOR_CONFIG).
Proof.
  unfold first_unconfigured. intros H. apply find_some in H.
  destruct H as [Hin Hl]. split; auto.
  destruct (lookup SENSOR_CONFIG k) eqn:E; [discriminate|].
  now apply lookup_None.
Qed.

(** With unique keys, what the loop leaves under a key depends on that
    key's item alone. *)
Lemma lookup_flagged (d : dict float) :
  unique_keys d ->
  forall anomalies k,
    lookup (fold_left flag d anomalies) k
    = match lookup d k with
      | Some v => if out_of_rangeb k v then Some v else lookup anomalies k
      | None => lookup anomalies k
      end.
Proof.
  unfold unique_keys.
  induction d as [|[sensor reading] d IH]; intros Hnd anomalies k; simpl; auto.
  simpl in Hnd. inversion Hnd as [|? ? Hnotin Hnd']; subst.
  rewrite IH by assumption.
  destruct (String.eqb sensor k) eqn:E.
  - apply String.eqb_eq in E. subst k.
    apply lookup_None in Hnotin. rewrite Hnotin.
    unfold flag; simpl. destruct (out_of_rangeb sensor reading); auto.
    apply lookup_setitem_eq.
  - apply String.eqb_neq in E.
    assert (Hk : lookup (flag anomalies (sensor, reading)) k = lookup anomalies k).
    { unfold flag; simpl. destruct (out_of_rangeb sensor reading); auto.
      now apply lookup_setitem_neq. }
    rewrite Hk. reflexivity.
Qed.

Lemma out_of_rangeb_spec sensor v :
  In sensor (keys SENSOR_CONFIG) ->
  (out_of_rangeb sensor v = true <-> out_of_range sensor v).
Proof.
  intros Hin. unfold out_of_rangeb, out_of_range.
  destruct (In_keys_lookup _ _ Hin) as [limits Hl].
  destruct (config_limits _ _ Hl) as (lo & hi & Hlo & Hhi).
  unfold limit. rewrite Hl, Hlo, Hhi. rewrite orb_true_iff. split.
  - intros H. exists lo, hi. auto.
  - intros (lo' & hi' & E1 & E2 & H). congruence.
Qed.

Lemma nothing_flagged (d : dict float) :
  (forall sensor v, In (sensor, v) d -> out_of_rangeb sensor v = false) ->
  forall anomalies, fold_left flag d anomalies = anomalies.
Proof.
  induction d as [|[sensor reading] d IH]; intros H anomalies; simpl; auto.
  rewrite IH by (intros; apply H; now right).
  unfold flag; simpl. now rewrite (H sensor reading) by now left.
Qed.

Lemma In_items_lookup {V} (d : dict V) k v :
  unique_keys d -> In (k, v) d -> lookup d k = Some v.
Proof.
  unfold unique_keys. induction d as [|[k' v'] d IH]; simpl; intros Hnd Hin; [tauto|].
  inversion Hnd as [|? ? Hnotin Hnd']; subst.
  destruct Hin as [E | Hin].
  - inversion E; subst. now rewrite String.eqb_refl.
  - destruct (String.eqb k' k) eqn:E.
    + apply String.eqb_eq in E. subst k'. exfalso. apply Hnotin.
      change k with (fst (k, v)). now apply in_map.
    + auto.
Qed.


Lemma limit_not_out_of_range sensor v :
  limit sensor "min" = Some v \/ limit sensor "max" = Some v ->
  out_of_rangeb sensor v = false.
Proof.
  intros H.
  assert (Hin : In sensor (keys SENSOR_CONFIG)).
  { unfold limit in H.
    destruct (lookup SENSOR_CONFIG sensor) eqn:E.
    - eapply lookup_Some_In; eauto.
    - destruct H; discriminate. }
  apply configured_sensors in Hin.
  destruct Hin as [-> | [-> | ->]]; destruct H as [H | H];
    vm_compute in H; inversion H; subst; vm_compute; reflexivity.
Qed.

(** C1. For a reading whose keys are all configured, [detect_anomalies]
    returns a dict that binds a sensor to a value exactly when the reading
    binds it to that value and the value is strictly below the configured
    min or strictly above the configured max. A value equal to min or max is
    not flagged, a reading with every value within bounds gives the empty
    dict, [{temperature: 25.0, vibration: 0.5, voltage: 115.0}] gives
    exactly [{temperature: 25.0}] and
    [{temperature: 20.0, vibration: 0.5, voltage: 115.0}] gives [{}]. *)
Theorem detect_anomalies_flags_exactly_out_of_range :
  (forall w data,
      g_SENSOR_CONFIG (globals w) = SENSOR_CONFIG ->
      unique_keys (dict_at w data) ->
      (forall k, In k (keys (dict_at w data)) -> In k (keys SENSOR_CONFIG)) ->
      exists anomalies,
        detect_anomalies data w = (Ok anomalies, w) /\
        (forall sensor v,
            lookup anomalies sensor = Some v <->
            lookup (dict_at w data) sensor = Some v /\ out_of_range sensor v) /\
        (forall sensor v,
            lookup (dict_at w data) sensor = Some v ->
            limit sensor "min" = Some v \/ limit sensor "max" = Some v ->
            lookup anomalies sensor = None) /\
        ((forall sensor v,
             lookup (dict_at w data) sensor = Some v -> ~ out_of_range sensor v) ->
         anomalies = [])) /\
  (forall w data,
      g_SENSOR_CONFIG (globals w) = SENSOR_CONFIG ->
      dict_at w data
      = [("temperature", 25.0); ("vibration", 0.5); ("voltage", 115.0)]%float ->
      detect_anomalies data w = (Ok [("temperature", 25.0%float)], w)) /\
  (forall w data,
      g_SENSOR_CONFIG (globals w) = SENSOR_CONFIG ->
      dict_at w data
      = [("temperature", 20.0); ("vibration", 0.5); ("voltage", 115.0)]%float ->
      detect_anomalies data w = (Ok [], w)).
Proof.
  split; [|split].
  - intros w data Hg Hu Hc.
    exists (fold_left flag (dict_at w data) []).
    rewrite detect_anomalies_run by assumption.
    apply first_unconfigured_None in Hc as Hnone. rewrite Hnone.
    split; [reflexivity|].
    assert (Hlk : forall sensor,
               lookup (fold_left flag (dict_at w data) []) sensor
               = match lookup (dict_at w data) sensor with
                 | Some v => if out_of_rangeb sensor v then Some v else None
                 | None => None
                 end).
    { intros sensor. now rewrite lookup_flagged by assumption. }
    split; [|split].
    + intros sensor v. rewrite Hlk.
      destruct (lookup (dict_at w data) sensor) as [v'|] eqn:E.
      * assert (Hin : In sensor (keys SENSOR_CONFIG))
          by (apply Hc; eapply lookup_Some_In; eauto).
        destruct (out_of_rangeb sensor v') eqn:Eo.
        -- apply out_of_rangeb_spec in Eo; auto.
           split; [intros H; inversion H; subst; auto
                  | intros [H _]; inversion H; subst; auto].
        -- split; [discriminate|]. intros [H Ho]. inversion H; subst.
           apply out_of_rangeb_spec in Ho; auto. congruence.
      * split; [discriminate | intros [H _]; discriminate].
    + intros sensor v Hv Hlim. rewrite Hlk, Hv.
      now rewrite (limit_not_out_of_range _ _ Hlim).
    + intros Hall. apply nothing_flagged.
      intros sensor v Hin. apply In_items_lookup in Hin as Hv; auto.
      destruct (out_of_rangeb sensor v) eqn:Eo; auto.
      apply out_of_rangeb_spec in Eo.
      * exfalso. eapply Hall; eauto.
      * apply Hc. eapply lookup_Some_In; eauto.
  - intros w data Hg Hd. rewrite detect_anomalies_run, Hd by assumption.
    vm_compute. reflexivity.
  - intros w data Hg Hd. rewrite detect_anomalies_run, Hd by assumption.
    vm_compute. reflexivity.
Qed.

Lemma detect_anomalies_flags_exactly_out_of_range_witness :
  exists anomalies,
    detect_anomalies 0 hot_reading = (Ok anomalies, hot_reading) /\
    (lookup anomalies "temperature" = Some 25.0%float <->
     lookup (dict_at hot_reading 0) "temperature" = Some 25.0%float /\
     out_of_range "temperature" 25.0%float) /\
    (lookup anomalies "voltage" = Some 109.99%float <->
     lookup (dict_at hot_reading 0) "voltage" = Some 109.99%float /\
     out_of_range "voltage" 109.99%float).
Proof.
  destruct (proj1 detect_anomalies_flags_exactly_out_of_range hot_reading 0%nat)
    as (anomalies & Hrun & Hiff & _).
  - reflexivity.
  - unfold unique_keys. vm_compute.
    repeat constructor; simpl; intuition discriminate.
  - intros k Hk. apply configured_sensors. vm_compute in Hk. intuition.
  - exists anomalies. split; [exact Hrun | split; apply Hiff].
Defined.

(** C7. [detect_anomalies] fails exactly when the reading has a sensor name
    that [SENSOR_CONFIG] lacks, and then with the [KeyError] of such a
    name; when every key is configured it returns a dict; in both cases it
    leaves the world as it found it. *)
Theorem detect_anomalies_fails_iff_unconfigured_sensor :
  forall w data,
    g_SENSOR_CONFIG (globals w) = SENSOR_CONFIG ->
    ((exists e, fst (detect_anomalies data w) = Raise e) <->
     (exists k, In k (keys (dict_at w data)) /\ ~ In k (keys SENSOR_CONFIG))) /\
    (forall e,
        fst (detect_anomalies data w) = Raise e ->
        exists k, e = KeyError k /\
                  In k (keys (dict_at w data)) /\ ~ In k (keys SENSOR_CONFIG)) /\
    ((forall k, In k (keys (dict_at w data)) -> In k (keys SENSOR_CONFIG)) ->
     exists anomalies, detect_anomalies data w = (Ok anomalies, w)) /\
    snd (detect_anomalies data w) = w.
Proof.
  intros w data Hg. rewrite detect_anomalies_run by assumption.
  destruct (first_unconfigured (dict_at w data)) as [k|] eqn:E.
  - apply first_unconfigured_Some in E as [Hin Hnot].
    repeat split.
    + intros _. exists k. auto.
    + intros _. exists (KeyError k). reflexivity.
    + intros e He. simpl in He. inversion He; subst. eauto.
    + intros Hall. exfalso. auto.
  - assert (Hall := proj1 (first_unconfigured_None _) E).
    repeat split.
    + intros [e He]. discriminate.
    + intros (k & Hin & Hnot). exfalso. auto.
    + intros e He. discriminate.
    + intros _. eauto.
Qed.

Lemma detect_anomalies_fails_iff_unconfigured_sensor_witness :
  ((exists e, fst (detect_anomalies 0 humid_reading) = Raise e) <->
   (exists k, In k (keys (dict_at humid_reading 0)) /\
              ~ In k (keys SENSOR_CONFIG))) /\
  fst (detect_anomalies 0 humid_reading) = Raise (KeyError "humidity") /\
  snd (detect_anomalies 0 humid_reading) = humid_reading.
Proof.
  destruct (detect_anomalies_fails_iff_unconfigured_sensor humid_reading 0%nat
              eq_refl) as (Hiff & _ & _ & Hframe).
  split; [exact Hiff|]. split; [vm_compute; reflexivity | exact Hframe].
Defined.

(** C9. [detect_anomalies] and [health_status] change nothing: the world
    after the call is the world before it, so the reading, the log (its
    entries, their order and their contents) and [SENSOR_CONFIG] are what
    they were, whether the call returns or raises. *)
Theorem detect_anomalies_and_health_status_mutate_nothing :
  (forall w data,
      let w' := snd (detect_anomalies data w) in
      w' = w /\
      dict_at w' data = dict_at w data /\
      g_SENSOR_CONFIG (globals w') = g_SENSOR_CONFIG (globals w)) /\
  (forall w log,
      let w' := snd (health_status log w) in
      w' = w /\
      list_at w' log = list_at w log /\
      map (dict_at w') (list_at w' log) = map (dict_at w) (list_at w log) /\
      g_SENSOR_CONFIG (globals w') = g_SENSOR_CONFIG (globals w)).
Proof.
  split.
  - intros w data w'. subst w'.
    now rewrite (reads_only_detect_anomalies data w).
  - intros w log w'. subst w'.
    now rewrite (reads_only_health_status log w).
Qed.


(* ================================================================= *)
(** * Doubles: exact values and comparisons *)

Section ExactValues.
Local Open Scope Z_scope.

Lemma Some_eq {A} (a b : A) : Some a = Some b -> a = b.
Proof. congruence. Qed.

Lemma Ok_eq {A} (a b : A) : Ok a = Ok b -> a = b.
Proof. congruence. Qed.

Lemma digits2_pos_size p : digits2_pos p = Pos.size p.
Proof. induction p; simpl; congruence. Qed.

Lemma digits2_pos_bounds m :
  2 ^ (Z.pos (digits2_pos m) - 1) <= Z.pos m < 2 ^ Z.pos (digits2_pos m).
Proof.
  rewrite digits2_pos_size. split.
  - assert (H := Pos.size_le m).
    assert (H' : 2 ^ Z.pos (Pos.size m) <= 2 * Z.pos m).
    { rewrite <- Pos2Z.inj_pow. change (2 * Z.pos m) with (Z.pos m~0).
      now apply Pos2Z.pos_le_pos. }
    replace (Z.pos (Pos.size m)) with (Z.succ (Z.pos (Pos.size m) - 1)) in H' by lia.
    rewrite Z.pow_succ_r in H' by lia. lia.
  - assert (H := Pos.size_gt m).
    rewrite <- Pos2Z.inj_pow. now apply Pos2Z.pos_lt_pos.
Qed.

(** Shape of a valid binary64 mantissa and exponent. *)
Lemma valid_finite_bounds s m e :
  valid_binary (S754_finite s m e) = true ->
  -1074 <= e <= 971 /\ Z.pos m < 2 ^ 53 /\ (-1074 < e -> 2 ^ 52 <= Z.pos m).
Proof.
  unfold SpecFloat.valid_binary, bounded, canonical_mantissa, fexp, SpecFloat.emin.
  change prec with 53. change emax with 1024.
  intros H. apply andb_true_iff in H as [Hc He].
  apply Z.eqb_eq in Hc. apply Z.leb_le in He.
  assert (Hd := digits2_pos_bounds m).
  set (d := Z.pos (digits2_pos m)) in *.
  assert (Hd53 : d <= 53) by lia.
  assert (Hlt : Z.pos m < 2 ^ 53).
  { eapply Z.lt_le_trans; [apply Hd|]. apply Z.pow_le_mono_r; lia. }
  repeat split; try lia.
  intros Hn. assert (d = 53) by lia.
  replace (d - 1) with 52 in Hd by lia. lia.
Qed.

Lemma exact_finite x s m e :
  Prim2SF x = S754_finite s m e ->
  -1074 <= e <= 971 /\ Z.pos m < 2 ^ 53 /\ (-1074 < e -> 2 ^ 52 <= Z.pos m).
Proof.
  intros H. apply (valid_finite_bounds s). rewrite <- H. apply Prim2SF_valid.
Qed.

(** Among valid mantissa/exponent pairs, the smaller exponent is the
    smaller value. *)
Lemma lower_exponent_lower_value m1 e1 m2 e2 :
  -1074 <= e1 -> Z.pos m1 < 2 ^ 53 -> 2 ^ 52 <= Z.pos m2 -> e1 < e2 ->
  Z.pos m1 * 2 ^ (e1 + 1074) < Z.pos m2 * 2 ^ (e2 + 1074).
Proof.
  intros He1 Hm1 Hm2 Hlt.
  replace (e2 + 1074) with ((e1 + 1074) + (e2 - e1)) by lia.
  rewrite (Z.pow_add_r 2 (e1 + 1074) (e2 - e1)) by lia.
  assert (Hp : 0 < 2 ^ (e1 + 1074)) by (apply Z.pow_pos_nonneg; lia).
  assert (Hq : 2 ^ 1 <= 2 ^ (e2 - e1)) by (apply Z.pow_le_mono_r; lia).
  change (2 ^ 1) with 2 in Hq.
  change (2 ^ 53) with (2 * 2 ^ 52) in Hm1.
  set (P := 2 ^ (e1 + 1074)) in *. set (Q := 2 ^ (e2 - e1)) in *.
  set (K := 2 ^ 52) in *.
  assert (H1 : Z.pos m1 * P < 2 * K * P)
    by (apply Z.mul_lt_mono_pos_r; assumption).
  assert (H2 : K * 2 <= Z.pos m2 * Q)
    by (apply Z.mul_le_mono_nonneg; lia).
  assert (H3 : (K * 2) * P <= (Z.pos m2 * Q) * P)
    by (apply Z.mul_le_mono_nonneg_r; lia).
  lia.
Qed.

Lemma magnitude_compare m1 e1 m2 e2 :
  valid_binary (S754_finite false m1 e1) = true ->
  valid_binary (S754_finite false m2 e2) = true ->
  match e1 ?= e2 with
  | Lt => Lt
  | Gt => Gt
  | Eq => Pos.compare_cont Eq m1 m2
  end = (Z.pos m1 * 2 ^ (e1 + 1074) ?= Z.pos m2 * 2 ^ (e2 + 1074)).
Proof.
  intros V1 V2.
  apply valid_finite_bounds in V1 as (He1 & Hm1 & Hn1).
  apply valid_finite_bounds in V2 as (He2 & Hm2 & Hn2).
  destruct (Z.compare_spec e1 e2) as [-> | Hlt | Hgt].
  - assert (Hp : 0 < 2 ^ (e2 + 1074)) by (apply Z.pow_pos_nonneg; lia).
    rewrite <- Zmult_compare_compat_r by lia. reflexivity.
  - symmetry. apply Z.compare_lt_iff.
    apply lower_exponent_lower_value; lia.
  - symmetry. apply Z.compare_gt_iff.
    apply lower_exponent_lower_value; lia.
Qed.

(** IEEE comparison of finite doubles is the comparison of their exact
    values. *)
Lemma SFcompare_exact f1 f2 z1 z2 :
  valid_binary f1 = true -> valid_binary f2 = true ->
  SFexact f1 = Some z1 -> SFexact f2 = Some z2 ->
  SFcompare f1 f2 = Some (z1 ?= z2).
Proof.
  intros V1 V2 E1 E2.
  destruct f1 as [s1| |  |s1 m1 e1]; try discriminate;
    destruct f2 as [s2| | |s2 m2 e2]; try discriminate;
    cbn [SFexact] in E1, E2; apply Some_eq in E1, E2; subst z1 z2.
  - reflexivity.
  - assert (0 < Z.pos m2 * 2 ^ (e2 + 1074))
      by (apply Z.mul_pos_pos; [lia | apply Z.pow_pos_nonneg;
          [lia | apply valid_finite_bounds in V2; lia]]).
    destruct s2; cbn [SFcompare cond_Zopp]; f_equal; symmetry;
      [apply Z.compare_gt_iff | apply Z.compare_lt_iff]; lia.
  - assert (0 < Z.pos m1 * 2 ^ (e1 + 1074))
      by (apply Z.mul_pos_pos; [lia | apply Z.pow_pos_nonneg;
          [lia | apply valid_finite_bounds in V1; lia]]).
    destruct s1; cbn [SFcompare cond_Zopp]; f_equal; symmetry;
      [apply Z.compare_lt_iff | apply Z.compare_gt_iff]; lia.
  - assert (H1 : 0 < Z.pos m1 * 2 ^ (e1 + 1074))
      by (apply Z.mul_pos_pos; [lia | apply Z.pow_pos_nonneg;
          [lia | apply valid_finite_bounds in V1; lia]]).
    assert (H2 : 0 < Z.pos m2 * 2 ^ (e2 + 1074))
      by (apply Z.mul_pos_pos; [lia | apply Z.pow_pos_nonneg;
          [lia | apply valid_finite_bounds in V2; lia]]).
    assert (Hc := magnitude_compare m1 e1 m2 e2 V1 V2).
    destruct s1, s2; cbn [SFcompare cond_Zopp]; f_equal.
    + transitivity (CompOpp (Z.pos m1 * 2 ^ (e1 + 1074)
                             ?= Z.pos m2 * 2 ^ (e2 + 1074))).
      * rewrite <- Hc. now destruct (e1 ?= e2).
      * rewrite <- Z.compare_antisym. symmetry. apply Z.compare_opp.
    + symmetry. apply Z.compare_lt_iff. lia.
    + symmetry. apply Z.compare_gt_iff. lia.
    + exact Hc.
Qed.

Lemma leb_exact x y zx zy :
  exact x = Some zx -> exact y = Some zy ->
  (x <=? y)%float = (zx <=? zy).
Proof.
  intros Ex Ey. rewrite FloatAxioms.leb_spec. unfold SFleb.
  rewrite (SFcompare_exact _ _ zx zy) by (auto using Prim2SF_valid).
  unfold Z.leb. now destruct (zx ?= zy).
Qed.

Lemma ltb_exact x y zx zy :
  exact x = Some zx -> exact y = Some zy ->
  (x <? y)%float = (zx <? zy).
Proof.
  intros Ex Ey. rewrite FloatAxioms.ltb_spec. unfold SFltb.
  rewrite (SFcompare_exact _ _ zx zy) by (auto using Prim2SF_valid).
  unfold Z.ltb. now destruct (zx ?= zy).
Qed.

(** A double between two finite doubles is finite, and so are its bounds
    in exact terms. *)
Lemma between_exact a u b za zb :
  exact a = Some za -> exact b = Some zb ->
  (a <=? u)%float = true -> (u <=? b)%float = true ->
  exists zu, exact u = Some zu /\ za <= zu <= zb.
Proof.
  intros Ea Eb Hau Hub.
  destruct (exact u) as [zu|] eqn:Eu.
  - exists zu. split; auto.
    rewrite (leb_exact _ _ _ _ Ea Eu) in Hau.
    rewrite (leb_exact _ _ _ _ Eu Eb) in Hub.
    apply Z.leb_le in Hau, Hub. lia.
  - exfalso. rewrite FloatAxioms.leb_spec in Hau, Hub.
    unfold exact in *.
    destruct (Prim2SF u) as [|su| |]; try discriminate.
    destruct su.
    + destruct (Prim2SF a); discriminate.
    + destruct (Prim2SF b); discriminate.
Qed.

(** The largest magnitude of a finite double, times [2^1074]. *)
Lemma exact_magnitude x z :
  exact x = Some z -> Z.abs z <= (2 ^ 53 - 1) * 2 ^ 2045.
Proof.
  unfold exact. intros E.
  destruct (Prim2SF x) as [s| | |s m e] eqn:Ex; try discriminate;
    cbn [SFexact] in E; apply Some_eq in E; subst z.
  - vm_compute. discriminate.
  - apply exact_finite in Ex as (He & Hm & _).
    assert (Hp : 0 < 2 ^ (e + 1074)) by (apply Z.pow_pos_nonneg; lia).
    assert (Hq : 2 ^ (e + 1074) <= 2 ^ 2045) by (apply Z.pow_le_mono_r; lia).
    assert (Hpos : 0 < Z.pos m * 2 ^ (e + 1074)) by (apply Z.mul_pos_pos; lia).
    replace (Z.abs (cond_Zopp s (Z.pos m * 2 ^ (e + 1074))))
      with (Z.pos m * 2 ^ (e + 1074)) by (destruct s; cbn [cond_Zopp]; lia).
    apply Z.mul_le_mono_nonneg; lia.
Qed.

End ExactValues.


(* ================================================================= *)
(** * [statistics]: order of the data does not matter *)

Lemma total_perm (l l' : list Z) :
  Permutation l l' -> statistics.total l = statistics.total l'.
Proof.
  unfold statistics.total.
  induction 1; simpl; lia.
Qed.

Lemma finite_terms_perm data data' :
  Permutation data data' ->
  Permutation (statistics.finite_terms data) (statistics.finite_terms data').
Proof. apply Permutation_flat_map. Qed.

Lemma special_terms_perm data data' :
  Permutation data data' ->
  Permutation (statistics.special_terms data) (statistics.special_terms data').
Proof.
  unfold statistics.special_terms.
  induction 1; simpl.
  - constructor.
  - destruct (negb (is_finite x)); auto.
  - destruct (negb (is_finite x)), (negb (is_finite y)); auto. constructor.
  - etransitivity; eauto.
Qed.

Lemma special_terms_special data :
  Forall (fun x => is_finite x = false) (statistics.special_terms data).
Proof.
  apply Forall_forall. intros x Hx.
  apply filter_In in Hx as [_ Hx]. now apply negb_true_iff.
Qed.

(** Adding two infinities or NaNs to anything gives the same in either
    order. *)
Lemma add_special_swap (a x y : float) :
  is_finite x = false -> is_finite y = false ->
  (a + x + y)%float = (a + y + x)%float.
Proof.
  unfold is_finite, exact. intros Hx Hy.
  apply Prim2SF_inj. rewrite !FloatAxioms.add_spec. unfold SF64add.
  destruct (Prim2SF x) as [|sx| |]; try discriminate;
    destruct (Prim2SF y) as [|sy| |]; try discriminate;
    destruct (Prim2SF a) as [sa|sa| |sa ma ea];
    try destruct sx; try destruct sy; try destruct sa; reflexivity.
Qed.

Lemma fold_add_special_perm (l l' : list float) :
  Permutation l l' ->
  Forall (fun x => is_finite x = false) l ->
  forall a, fold_left PrimFloat.add l a = fold_left PrimFloat.add l' a.
Proof.
  induction 1 as [|x l l' Hp IH|x y l|l l' l'' Hp1 IH1 Hp2 IH2];
    intros Hall a; simpl.
  - reflexivity.
  - inversion Hall; subst. now apply IH.
  - inversion Hall as [|? ? Hy Hall']; subst.
    inversion Hall' as [|? ? Hx _]; subst.
    now rewrite add_special_swap.
  - rewrite IH1 by assumption. apply IH2.
    eapply Permutation_Forall; eauto.
Qed.

Lemma special_total_perm data data' :
  Permutation data data' ->
  statistics.special_total (statistics.special_terms data)
  = statistics.special_total (statistics.special_terms data').
Proof.
  intros Hp. unfold statistics.special_total.
  apply fold_add_special_perm.
  - now apply special_terms_perm.
  - apply special_terms_special.
Qed.

Lemma mean_perm data data' :
  Permutation data data' -> statistics.mean data = statistics.mean data'.
Proof.
  intros Hp. unfold statistics.mean.
  rewrite <- (Permutation_length Hp).
  rewrite <- (total_perm _ _ (finite_terms_perm _ _ Hp)).
  assert (Hs := special_terms_perm _ _ Hp).
  assert (Ht := special_total_perm _ _ Hp).
  destruct (statistics.special_terms data) as [|x sp] eqn:E;
    destruct (statistics.special_terms data') as [|x' sp'] eqn:E'.
  - reflexivity.
  - apply Permutation_nil in Hs. discriminate.
  - apply Permutation_sym, Permutation_nil in Hs. discriminate.
  - now rewrite Ht.
Qed.

Lemma stdev_perm data data' :
  Permutation data data' -> statistics.stdev data = statistics.stdev data'.
Proof.
  intros Hp. unfold statistics.stdev.
  rewrite <- (Permutation_length Hp).
  assert (Hf := finite_terms_perm _ _ Hp).
  rewrite <- (total_perm _ _ Hf).
  rewrite <- (total_perm _ _ (Permutation_map (fun z => z * z)%Z Hf)).
  assert (Hs := special_terms_perm _ _ Hp).
  destruct (statistics.special_terms data) as [|x sp] eqn:E;
    destruct (statistics.special_terms data') as [|x' sp'] eqn:E'.
  - reflexivity.
  - apply Permutation_nil in Hs. discriminate.
  - apply Permutation_sym, Permutation_nil in Hs. discriminate.
  - reflexivity.
Qed.


(* ================================================================= *)
(** * [statistics]: when [mean] and [stdev] return *)

Section StatisticsReturn.
Local Open Scope Z_scope.

Lemma total_bound (B : Z) (l : list Z) :
  Forall (fun z => Z.abs z <= B) l ->
  Z.abs (statistics.total l) <= Z.of_nat (List.length l) * B.
Proof.
  unfold statistics.total.
  induction 1 as [|z l Hz Hl IH]; [simpl; lia|].
  cbn [fold_right List.length]. rewrite Nat2Z.inj_succ. lia.
Qed.

Lemma total_squares_bound (B : Z) (l : list Z) :
  0 <= B ->
  Forall (fun z => Z.abs z <= B) l ->
  0 <= statistics.total (map (fun z => z * z) l) <= Z.of_nat (List.length l) * (B * B).
Proof.
  unfold statistics.total. intros HB.
  induction 1 as [|z l Hz Hl IH]; [simpl; lia|].
  cbn [fold_right List.length map]. rewrite Nat2Z.inj_succ.
  assert (0 <= z * z <= B * B) by nia. lia.
Qed.

Lemma finite_terms_length data :
  (List.length (statistics.finite_terms data) <= List.length data)%nat.
Proof.
  unfold statistics.finite_terms.
  induction data as [|x data IH]; simpl; auto.
  destruct (exact x); simpl; lia.
Qed.

Lemma finite_terms_bounded (P : Z -> Prop) data :
  (forall x z, In x data -> exact x = Some z -> P z) ->
  Forall P (statistics.finite_terms data).
Proof.
  unfold statistics.finite_terms. intros H.
  apply Forall_forall. intros z Hz.
  apply in_flat_map in Hz as (x & Hx & Hz).
  destruct (exact x) as [z'|] eqn:E; simpl in Hz; [|tauto].
  destruct Hz as [<- | []]. eauto.
Qed.

Lemma special_terms_none data :
  Forall (fun x => is_finite x = true) data -> statistics.special_terms data = [].
Proof.
  unfold statistics.special_terms.
  induction 1 as [|x data Hx _ IH]; simpl; auto. now rewrite Hx.
Qed.

(** [mean] returns a float for any data with at least one point. *)
Lemma mean_returns data :
  data <> [] -> exists m, statistics.mean data = Ok m.
Proof.
  intros Hne. unfold statistics.mean.
  assert (Hn : 1 <= Z.of_nat (List.length data))
    by (destruct data; [congruence | simpl; lia]).
  destruct (Z.ltb_spec (Z.of_nat (List.length data)) 1) as [|_]; [lia|].
  destruct (statistics.special_terms data) as [|x sp]; [|eauto].
  unfold int_truediv.
  set (S := statistics.total (statistics.finite_terms data)).
  assert (HS : Z.abs S <= Z.of_nat (List.length data) * ((2 ^ 53 - 1) * 2 ^ 2045)).
  { etransitivity; [apply total_bound|].
    - apply finite_terms_bounded. intros x z _ E. exact (exact_magnitude _ _ E).
    - apply Z.mul_le_mono_nonneg_r; [vm_compute; discriminate|].
      apply Nat2Z.inj_le, finite_terms_length. }
  assert (Hc : (2 ^ 53 - 1) * 2 ^ 2045 < overflow_threshold * 2 ^ 1074)
    by (vm_compute; reflexivity).
  set (n := Z.of_nat (List.length data)) in *.
  set (MX := (2 ^ 53 - 1) * 2 ^ 2045) in *.
  set (T := overflow_threshold * 2 ^ 1074) in *.
  replace (overflow_threshold * (n * 2 ^ 1074)) with (n * T) by (unfold T; ring).
  destruct (Z.leb_spec (n * T) (Z.abs S)) as [Hle|_]; [|eauto].
  exfalso. clearbody MX T S. nia.
Qed.

Lemma moderate_exact x :
  moderate x = true -> exists z, exact x = Some z /\ Z.abs z <= 2 ^ 2097.
Proof.
  unfold moderate. destruct (exact x) as [z|]; [|discriminate].
  intros H. apply Z.leb_le in H. eauto.
Qed.

Lemma moderate_finite x : moderate x = true -> is_finite x = true.
Proof.
  intros H. apply moderate_exact in H as (z & E & _).
  unfold is_finite. now rewrite E.
Qed.

(** [stdev] returns a float for two or more moderate values. *)
Lemma stdev_returns data :
  (2 <= List.length data)%nat ->
  Forall (fun x => moderate x = true) data ->
  exists s, statistics.stdev data = Ok s.
Proof.
  intros Hlen Hmod. unfold statistics.stdev.
  assert (Hn : 2 <= Z.of_nat (List.length data)) by lia.
  destruct (Z.ltb_spec (Z.of_nat (List.length data)) 2) as [|_]; [lia|].
  rewrite special_terms_none
    by (eapply Forall_impl; [|exact Hmod]; intros; now apply moderate_finite).
  unfold float_sqrt_of_frac.
  set (xs := statistics.finite_terms data).
  assert (Hxs : Forall (fun z => Z.abs z <= 2 ^ 2097) xs).
  { apply finite_terms_bounded. intros x z Hx E.
    rewrite Forall_forall in Hmod.
    destruct (moderate_exact x (Hmod x Hx)) as (z' & E' & Hz'). congruence. }
  assert (HB : 0 <= 2 ^ 2097) by (vm_compute; discriminate).
  assert (Hsq := total_squares_bound _ xs HB Hxs).
  assert (Hl : Z.of_nat (List.length xs) <= Z.of_nat (List.length data))
    by (apply Nat2Z.inj_le, finite_terms_length).
  assert (Hc : 3 * (2 ^ 2097 * 2 ^ 2097)
               <= overflow_threshold * overflow_threshold * 2 ^ 2148)
    by (vm_compute; discriminate).
  assert (HBB : 0 < 2 ^ 2097 * 2 ^ 2097) by (vm_compute; reflexivity).
  set (n := Z.of_nat (List.length data)) in *.
  set (sx := statistics.total xs).
  set (sxx := statistics.total (map (fun z => z * z) xs)) in *.
  set (BB := 2 ^ 2097 * 2 ^ 2097) in *.
  set (k := Z.of_nat (List.length xs)) in *.
  replace (overflow_threshold * overflow_threshold * (n * (n - 1) * 2 ^ 2148))
    with (n * (n - 1) * (overflow_threshold * overflow_threshold * 2 ^ 2148))
    by ring.
  set (TT := overflow_threshold * overflow_threshold * 2 ^ 2148) in *.
  destruct (Z.leb_spec (n * (n - 1) * TT) (n * sxx - sx * sx)) as [Hle|_];
    [|eauto].
  exfalso. clearbody BB TT sxx sx k.
  assert (H1 : n * sxx - sx * sx <= n * sxx) by nia.
  assert (H2 : n * sxx <= n * (n * BB)) by nia.
  assert (H3 : n * (n * BB) < n * (n - 1) * (3 * BB)) by nia.
  assert (H4 : n * (n - 1) * (3 * BB) <= n * (n - 1) * TT) by nia.
  lia.
Qed.

End StatisticsReturn.


(* ================================================================= *)
(** * [health_status] as a function of the log entries *)

Lemma bind_run {A B} (m : Py A) (k : A -> Py B) w :
  bind m k w
  = match m w with
    | (Ok a, w') => k a w'
    | (Raise e, w') => (Raise e, w')
    end.
Proof. reflexivity. Qed.

Lemma list_comp_column w (sensor : string) (entries : list addr) :
  list_comp entries
    (fun entry => d <- deref_dict entry ;; lift (getitem d sensor)) w
  = (column_of (map (dict_at w) entries) sensor, w).
Proof.
  induction entries as [|a entries IH]; [reflexivity|].
  cbn [list_comp map column_of]. rewrite bind_run.
  change ((d <- deref_dict a ;; lift (getitem d sensor)) w)
    with (getitem (dict_at w a) sensor, w).
  destruct (getitem (dict_at w a) sensor) as [v|e]; [|reflexivity].
  cbn [result_bind]. rewrite bind_run, IH.
  now destruct (column_of (map (dict_at w) entries) sensor).
Qed.

Lemma health_status_body_run w log sensor status :
  health_status_body log sensor status w
  = (result_bind (sensor_summary (entries_of w log) sensor)
       (fun s => Ok (setitem status sensor s)), w).
Proof.
  unfold health_status_body, sensor_summary, entries_of.
  rewrite bind_run. cbn [deref_list]. rewrite bind_run, list_comp_column.
  destruct (column_of (map (dict_at w) (list_at w log)) sensor) as [values|e];
    [|reflexivity].
  cbn [result_bind]. unfold summarize. rewrite bind_run. unfold lift at 1.
  destruct (statistics.mean values) as [m|e]; [|reflexivity].
  cbn [result_bind]. rewrite bind_run.
  destruct (Nat.ltb 1 (List.length values)); [|reflexivity].
  rewrite bind_run. unfold lift at 1.
  now destruct (statistics.stdev values).
Qed.

Lemma add_summary_raise entries (sensors : list string) e :
  fold_left (add_summary entries) sensors (Raise e) = Raise e.
Proof. induction sensors; simpl; auto. Qed.

Lemma health_status_loop w log (sensors : list string) :
  forall status,
    for_each sensors (health_status_body log) status w
    = (fold_left (add_summary (entries_of w log)) sensors (Ok status), w).
Proof.
  induction sensors as [|sensor sensors IH]; intros status; [reflexivity|].
  cbn [for_each fold_left]. rewrite bind_run, health_status_body_run.
  unfold add_summary at 2. cbn [result_bind].
  destruct (sensor_summary (entries_of w log) sensor) as [s|e]; cbn [result_bind].
  - apply IH.
  - now rewrite add_summary_raise.
Qed.

Lemma health_status_run w log :
  g_SENSOR_CONFIG (globals w) = SENSOR_CONFIG ->
  health_status log w = (summary_of (entries_of w log), w).
Proof.
  intros Hg. unfold health_status, summary_of.
  unfold bind at 1. unfold load_global. rewrite Hg.
  apply health_status_loop.
Qed.

(** With the three configured sensors written out. *)
Lemma summary_of_unfold entries :
  summary_of entries
  = result_bind (sensor_summary entries "temperature") (fun t =>
    result_bind (sensor_summary entries "vibration") (fun v =>
    result_bind (sensor_summary entries "voltage") (fun u =>
    Ok [("temperature", t); ("vibration", v); ("voltage", u)]))).
Proof.
  unfold summary_of.
  replace (keys SENSOR_CONFIG) with ["temperature"; "vibration"; "voltage"]
    by (vm_compute; reflexivity).
  cbn [fold_left]. unfold add_summary. cbn [result_bind].
  destruct (sensor_summary entries "temperature") as [t|e]; [|reflexivity].
  cbn [result_bind].
  destruct (sensor_summary entries "vibration") as [v|e]; [|reflexivity].
  cbn [result_bind].
  destruct (sensor_summary entries "voltage") as [u|e]; reflexivity.
Qed.

(** ** Columns *)

Lemma column_of_complete entries sensor :
  (forall d, In d entries -> In sensor (keys d)) ->
  exists values,
    column_of entries sensor = Ok values /\
    List.length values = List.length entries /\
    (forall v, In v values -> exists d, In d entries /\ lookup d sensor = Some v).
Proof.
  induction entries as [|d entries IH]; intros H.
  - exists []. simpl. repeat split; auto. intros v [].
  - destruct IH as (values & Hc & Hl & Hv); [intros; apply H; now right|].
    destruct (In_keys_lookup d sensor) as [v Hd]; [apply H; now left|].
    exists (v :: values). cbn [column_of]. unfold getitem. rewrite Hd, Hc.
    cbn [result_bind]. repeat split; [simpl; lia|].
    intros v' [<- | Hin].
    + exists d. split; [now left | assumption].
    + destruct (Hv v' Hin) as (d' & Hd' & Hl'). exists d'. split; [now right | assumption].
Qed.

Lemma column_of_raises entries sensor e :
  column_of entries sensor = Raise e -> e = KeyError sensor.
Proof.
  induction entries as [|d entries IH]; cbn [column_of]; [discriminate|].
  unfold getitem. destruct (lookup d sensor); cbn [result_bind].
  - destruct (column_of entries sensor); cbn [result_bind]; [discriminate|].
    intros H. inversion H; subst. now apply IH.
  - intros H. now inversion H.
Qed.

Lemma column_of_empty sensor : column_of [] sensor = Ok [].
Proof. reflexivity. Qed.

Lemma column_of_perm entries entries' sensor :
  Permutation entries entries' ->
  match column_of entries sensor, column_of entries' sensor with
  | Ok values, Ok values' => Permutation values values'
  | Raise e, Raise e' => e = e'
  | _, _ => False
  end.
Proof.
  induction 1 as [|d l l' Hp IH|d1 d2 l|l l' l'' Hp1 IH1 Hp2 IH2].
  - simpl. constructor.
  - cbn [column_of]. destruct (getitem d sensor) as [v|e]; cbn [result_bind]; auto.
    destruct (column_of l sensor), (column_of l' sensor); cbn [result_bind];
      auto.
  - cbn [column_of]. unfold getitem.
    destruct (lookup d1 sensor), (lookup d2 sensor); cbn [result_bind]; auto;
      destruct (column_of l sensor); cbn [result_bind]; auto.
    apply perm_swap.
  - destruct (column_of l sensor), (column_of l' sensor),
      (column_of l'' sensor); try tauto; try congruence.
    etransitivity; eauto.
Qed.

Lemma summarize_perm values values' :
  Permutation values values' -> summarize values = summarize values'.
Proof.
  intros Hp. unfold summarize.
  now rewrite (mean_perm _ _ Hp), (stdev_perm _ _ Hp), (Permutation_length Hp).
Qed.

Lemma sensor_summary_perm entries entries' sensor :
  Permutation entries entries' ->
  sensor_summary entries sensor = sensor_summary entries' sensor.
Proof.
  intros Hp. unfold sensor_summary.
  assert (H := column_of_perm _ _ sensor Hp).
  destruct (column_of entries sensor), (column_of entries' sensor);
    cbn [result_bind]; try tauto.
  - now apply summarize_perm.
  - now subst.
Qed.

Lemma summary_of_perm entries entries' :
  Permutation entries entries' -> summary_of entries = summary_of entries'.
Proof.
  intros Hp. rewrite !summary_of_unfold.
  now rewrite !(sensor_summary_perm _ _ _ Hp).
Qed.


(* ================================================================= *)
(** * [health_status]: what it returns and when *)

Lemma stdev_raise_kinds data e :
  (2 <= List.length data)%nat ->
  statistics.stdev data = Raise e -> e = OverflowError \/ e = AttributeError.
Proof.
  intros Hlen. unfold statistics.stdev.
  destruct (Z.ltb_spec (Z.of_nat (List.length data)) 2) as [|_]; [lia|].
  destruct (statistics.special_terms data).
  - unfold float_sqrt_of_frac.
    destruct (Z.leb _ _); intros H; inversion H; auto.
  - intros H; inversion H; auto.
Qed.

(** One sensor of a complete log: the column exists, the mean is taken,
    and the deviation is [stdev] from two values on and [0.0] for one. *)
Lemma sensor_summary_complete entries sensor :
  entries <> [] ->
  (forall d, In d entries -> In sensor (keys d)) ->
  exists values m,
    column_of entries sensor = Ok values /\
    List.length values = List.length entries /\
    (forall v, In v values -> exists d, In d entries /\ lookup d sensor = Some v) /\
    statistics.mean values = Ok m /\
    sensor_summary entries sensor
    = result_bind (if Nat.ltb 1 (List.length values)
                   then result_bind (statistics.stdev values)
                                    (fun s => Ok (round s 2))
                   else Ok 0%float)
        (fun sd => Ok [("avg", round m 2); ("std_dev", sd)]).
Proof.
  intros Hne Hall.
  destruct (column_of_complete entries sensor Hall) as (values & Hc & Hl & Hv).
  destruct (mean_returns values) as [m Hm].
  { intros ->. destruct entries; [congruence | discriminate]. }
  exists values, m. repeat split; auto.
  unfold sensor_summary. rewrite Hc. cbn [result_bind].
  unfold summarize. now rewrite Hm.
Qed.

Lemma sensor_summary_moderate entries sensor :
  entries <> [] ->
  (forall d, In d entries -> In sensor (keys d)) ->
  (forall d v, In d entries -> lookup d sensor = Some v -> moderate v = true) ->
  exists values m sd,
    column_of entries sensor = Ok values /\
    List.length values = List.length entries /\
    statistics.mean values = Ok m /\
    sensor_summary entries sensor = Ok [("avg", round m 2); ("std_dev", sd)] /\
    ((2 <= List.length values)%nat ->
     exists s, statistics.stdev values = Ok s /\ sd = round s 2) /\
    (List.length values = 1%nat -> sd = 0%float).
Proof.
  intros Hne Hall Hmod.
  destruct (sensor_summary_complete entries sensor Hne Hall)
    as (values & m & Hc & Hl & Hv & Hm & Hs).
  destruct (Nat.ltb_spec 1 (List.length values)) as [Hlt|Hge].
  - destruct (stdev_returns values) as [s Hsd]; [lia| |].
    { apply Forall_forall. intros v Hin.
      destruct (Hv v Hin) as (d & Hd & Hl'). eauto. }
    exists values, m, (round s 2). rewrite Hs, Hsd. cbn [result_bind].
    repeat split; auto.
    + intros _. eauto.
    + intros H1. lia.
  - exists values, m, 0%float. rewrite Hs. cbn [result_bind].
    repeat split; auto. intros H2. lia.
Qed.

Lemma complete_sensor entries sensor :
  complete entries -> In sensor (keys SENSOR_CONFIG) ->
  forall d, In d entries -> In sensor (keys d).
Proof. unfold complete. eauto. Qed.

Lemma moderate_sensor entries sensor :
  moderate_entries entries -> In sensor (keys SENSOR_CONFIG) ->
  forall d v, In d entries -> lookup d sensor = Some v -> moderate v = true.
Proof. unfold moderate_entries. eauto. Qed.

Lemma configured_temperature : In "temperature" (keys SENSOR_CONFIG).
Proof. apply configured_sensors. auto. Qed.
Lemma configured_vibration : In "vibration" (keys SENSOR_CONFIG).
Proof. apply configured_sensors. auto. Qed.
Lemma configured_voltage : In "voltage" (keys SENSOR_CONFIG).
Proof. apply configured_sensors. auto. Qed.

#[local] Hint Resolve configured_temperature configured_vibration
  configured_voltage complete_sensor moderate_sensor : core.

(** A returned summary has the configured sensors as keys, in order. *)
Lemma summary_of_keys entries status :
  summary_of entries = Ok status -> keys status = keys SENSOR_CONFIG.
Proof.
  rewrite summary_of_unfold.
  destruct (sensor_summary entries "temperature"); [|discriminate].
  destruct (sensor_summary entries "vibration"); [|discriminate].
  destruct (sensor_summary entries "voltage"); [|discriminate].
  cbn [result_bind]. intros H. apply Ok_eq in H. subst status.
  vm_compute. reflexivity.
Qed.

Lemma summary_of_lookup entries status sensor :
  summary_of entries = Ok status ->
  In sensor (keys SENSOR_CONFIG) ->
  exists s, sensor_summary entries sensor = Ok s /\ lookup status sensor = Some s.
Proof.
  rewrite summary_of_unfold.
  destruct (sensor_summary entries "temperature") as [t|] eqn:Et; [|discriminate].
  destruct (sensor_summary entries "vibration") as [v|] eqn:Ev; [|discriminate].
  destruct (sensor_summary entries "voltage") as [u|] eqn:Eu; [|discriminate].
  cbn [result_bind]. intros H Hin. apply Ok_eq in H. subst status.
  apply configured_sensors in Hin. destruct Hin as [-> | [-> | ->]]; eauto.
Qed.

Lemma summary_of_moderate entries :
  entries <> [] -> complete entries -> moderate_entries entries ->
  exists status, summary_of entries = Ok status.
Proof.
  intros Hne Hc Hm. rewrite summary_of_unfold.
  destruct (sensor_summary_moderate entries "temperature" Hne)
    as (? & ? & ? & _ & _ & _ & -> & _); eauto.
  destruct (sensor_summary_moderate entries "vibration" Hne)
    as (? & ? & ? & _ & _ & _ & -> & _); eauto.
  destruct (sensor_summary_moderate entries "voltage" Hne)
    as (? & ? & ? & _ & _ & _ & -> & _); eauto.
  cbn [result_bind]. eauto.
Qed.

Lemma entries_of_nonempty w log :
  list_at w log <> [] -> entries_of w log <> [].
Proof. unfold entries_of. destruct (list_at w log); [congruence | discriminate]. Qed.


Lemma complete_concrete entries :
  forallb (fun d =>
             forallb (fun sensor => match lookup d sensor with
                                    | Some _ => true
                                    | None => false
                                    end)
                     (keys SENSOR_CONFIG)) entries = true ->
  complete entries.
Proof.
  intros H d sensor Hd Hs.
  rewrite forallb_forall in H. specialize (H d Hd).
  rewrite forallb_forall in H. specialize (H sensor Hs).
  destruct (lookup d sensor) eqn:E; [|discriminate].
  eapply lookup_Some_In; eauto.
Qed.

Lemma moderate_concrete entries :
  forallb (fun d => forallb (fun kv => moderate (snd kv)) d) entries = true ->
  moderate_entries entries.
Proof.
  intros H d sensor v Hd _ Hv.
  rewrite forallb_forall in H. specialize (H d Hd).
  rewrite forallb_forall in H.
  assert (Hin : In (sensor, v) d).
  { clear -Hv. induction d as [|[k v'] d IH]; simpl in *; [discriminate|].
    destruct (String.eqb k sensor) eqn:E.
    - apply String.eqb_eq in E. inversion Hv; subst. now left.
    - right. auto. }
  exact (H _ Hin).
Qed.

(** C2, as stated, fails: with temperatures [1.5e308] and [-1.5e308] the
    log is non-empty and every entry has the three sensors, yet
    [health_status] returns no map: [stdev] raises [OverflowError]. *)
Lemma health_status_overflows_on_huge_temperatures :
  g_SENSOR_CONFIG (globals huge_temperature_log) = SENSOR_CONFIG /\
  list_at huge_temperature_log 0 <> [] /\
  complete (entries_of huge_temperature_log 0) /\
  fst (health_status 0 huge_temperature_log) = Raise OverflowError.
Proof.
  split; [reflexivity|]. split; [vm_compute; discriminate|].
  split; [apply complete_concrete; vm_compute; reflexivity|].
  vm_compute. reflexivity.
Qed.

(** C2 (amended). For a non-empty log whose entries all have the three
    configured sensors, with finite values of magnitude at most [2^1023],
    [health_status] returns a dict that binds every configured sensor to
    [{avg, std_dev}]: [avg] is [mean] of the sensor's values across the log
    rounded to 2 decimals, and [std_dev] is [stdev] (the sample standard
    deviation) of those values rounded to 2 decimals when there are at
    least 2 entries and [0.0] when there is one. A log of the single
    reading [{temperature: 20.0, vibration: 0.5, voltage: 115.0}] has
    [std_dev = 0.0] for every sensor. *)
Theorem health_status_summarises_moderate_logs :
  (forall w log,
      g_SENSOR_CONFIG (globals w) = SENSOR_CONFIG ->
      list_at w log <> [] ->
      complete (entries_of w log) ->
      moderate_entries (entries_of w log) ->
      exists status,
        health_status log w = (Ok status, w) /\
        forall sensor,
          In sensor (keys SENSOR_CONFIG) ->
          exists values m sd,
            column_of (entries_of w log) sensor = Ok values /\
            List.length values = List.length (list_at w log) /\
            statistics.mean values = Ok m /\
            lookup status sensor = Some [("avg", round m 2); ("std_dev", sd)] /\
            ((2 <= List.length values)%nat ->
             exists s, statistics.stdev values = Ok s /\ sd = round s 2) /\
            (List.length values = 1%nat -> sd = 0%float)) /\
  (forall w log entry,
      g_SENSOR_CONFIG (globals w) = SENSOR_CONFIG ->
      list_at w log = [entry] ->
      dict_at w entry
      = [("temperature", 20.0); ("vibration", 0.5); ("voltage", 115.0)]%float ->
      health_status log w
      = (Ok [("temperature", [("avg", 20.0); ("std_dev", 0.0)]);
             ("vibration", [("avg", 0.5); ("std_dev", 0.0)]);
             ("voltage", [("avg", 115.0); ("std_dev", 0.0)])]%float, w)).
Proof.
  split.
  - intros w log Hg Hne Hc Hm.
    apply entries_of_nonempty in Hne as Hne'.
    destruct (summary_of_moderate _ Hne' Hc Hm) as [status Hs].
    exists status. rewrite health_status_run by assumption.
    split; [now rewrite Hs|].
    intros sensor Hin.
    destruct (summary_of_lookup _ _ _ Hs Hin) as (s & Hsum & Hlk).
    destruct (sensor_summary_moderate (entries_of w log) sensor Hne')
      as (values & m & sd & Hcol & Hlen & Hmean & Hsum' & H2 & H1); eauto.
    exists values, m, sd.
    assert (s = [("avg", round m 2); ("std_dev", sd)]) by congruence. subst s.
    unfold entries_of in Hlen. rewrite length_map in Hlen.
    repeat split; auto.
  - intros w log entry Hg Hl Hd.
    rewrite health_status_run by assumption.
    unfold entries_of. rewrite Hl. cbn [map]. rewrite Hd.
    vm_compute. reflexivity.
Qed.

Lemma health_status_summarises_moderate_logs_witness :
  exists status,
    health_status 0 three_reading_log = (Ok status, three_reading_log) /\
    lookup status "temperature"
    = Some [("avg", 21.17); ("std_dev", 3.4)]%float.
Proof.
  destruct (proj1 health_status_summarises_moderate_logs three_reading_log 0%nat)
    as (status & Hrun & Hsensors).
  - reflexivity.
  - vm_compute. discriminate.
  - apply complete_concrete. vm_compute. reflexivity.
  - apply moderate_concrete. vm_compute. reflexivity.
  - exists status. split; [exact Hrun|].
    assert (E : fst (health_status 0 three_reading_log) = Ok status)
      by now rewrite Hrun.
    vm_compute in E. apply Ok_eq in E. subst status. vm_compute. reflexivity.
Defined.

(** C5. Permuting the entries of a log does not change what
    [health_status] does: same result (the same [avg] and [std_dev] for
    every sensor, or the same exception), same world. *)
Theorem health_status_permutation_invariant :
  forall w log log',
    g_SENSOR_CONFIG (globals w) = SENSOR_CONFIG ->
    Permutation (entries_of w log) (entries_of w log') ->
    health_status log w = health_status log' w.
Proof.
  intros w log log' Hg Hp.
  rewrite !health_status_run by assumption.
  now rewrite (summary_of_perm _ _ Hp).
Qed.

Lemma health_status_permutation_invariant_witness :
  health_status 0 two_orders_log = health_status 4 two_orders_log.
Proof.
  apply health_status_permutation_invariant.
  - reflexivity.
  - vm_compute.
    eapply perm_trans; [apply perm_skip, perm_swap|].
    apply perm_swap.
Defined.


Lemma sensor_summary_raise_kinds entries sensor e :
  entries <> [] ->
  (forall d, In d entries -> In sensor (keys d)) ->
  sensor_summary entries sensor = Raise e ->
  e = OverflowError \/ e = AttributeError.
Proof.
  intros Hne Hall.
  destruct (sensor_summary_complete entries sensor Hne Hall)
    as (values & m & _ & _ & _ & _ & ->).
  destruct (Nat.ltb_spec 1 (List.length values)) as [Hlt|Hge];
    [|discriminate].
  destruct (statistics.stdev values) as [s|e'] eqn:Es; [discriminate|].
  cbn [result_bind]. intros H. apply stdev_raise_kinds in Es; [|lia].
  congruence.
Qed.

Lemma summary_of_raise_kinds entries e :
  entries <> [] -> complete entries ->
  summary_of entries = Raise e ->
  e = OverflowError \/ e = AttributeError.
Proof.
  intros Hne Hc. rewrite summary_of_unfold.
  destruct (sensor_summary entries "temperature") eqn:Et; cbn [result_bind].
  2: { intros H. inversion H; subst.
       eapply sensor_summary_raise_kinds in Et; eauto. }
  destruct (sensor_summary entries "vibration") eqn:Ev; cbn [result_bind].
  2: { intros H. inversion H; subst.
       eapply sensor_summary_raise_kinds in Ev; eauto. }
  destruct (sensor_summary entries "voltage") eqn:Eu; cbn [result_bind].
  2: { intros H. inversion H; subst.
       eapply sensor_summary_raise_kinds in Eu; eauto. }
  discriminate.
Qed.

(** C8, as stated, fails: with voltages [1.7e308] and [-1.7e308] the log is
    non-empty and every entry has the three sensors, yet [health_status]
    raises: the sample variance is too large for a float. *)
Lemma health_status_raises_on_huge_voltages :
  g_SENSOR_CONFIG (globals huge_voltage_log) = SENSOR_CONFIG /\
  list_at huge_voltage_log 0 <> [] /\
  complete (entries_of huge_voltage_log 0) /\
  health_status 0 huge_voltage_log = (Raise OverflowError, huge_voltage_log).
Proof.
  split; [reflexivity|]. split; [vm_compute; discriminate|].
  split; [apply complete_concrete; vm_compute; reflexivity|].
  rewrite health_status_run by reflexivity.
  apply (f_equal (fun r => (r, huge_voltage_log))).
  vm_compute. reflexivity.
Qed.

(** C8 (amended). For a non-empty log whose entries all have the
    configured sensors: [health_status] never raises [StatisticsError] (the
    failure of [mean] and [stdev] on too few values) nor [KeyError]; and
    when all values are finite and of magnitude at most [2^1023] it does
    not raise at all. On an empty log [mean] is called on no values and
    fails, for each configured sensor, and so does [health_status]. *)
Theorem health_status_never_raises_on_moderate_logs :
  (forall w log,
      g_SENSOR_CONFIG (globals w) = SENSOR_CONFIG ->
      list_at w log <> [] ->
      complete (entries_of w log) ->
      moderate_entries (entries_of w log) ->
      exists status, health_status log w = (Ok status, w)) /\
  (forall w log e,
      g_SENSOR_CONFIG (globals w) = SENSOR_CONFIG ->
      list_at w log <> [] ->
      complete (entries_of w log) ->
      fst (health_status log w) = Raise e ->
      e <> StatisticsError /\ (forall k, e <> KeyError k)) /\
  (forall w log,
      g_SENSOR_CONFIG (globals w) = SENSOR_CONFIG ->
      list_at w log = [] ->
      health_status log w = (Raise StatisticsError, w) /\
      forall sensor,
        In sensor (keys SENSOR_CONFIG) ->
        column_of (entries_of w log) sensor = Ok [] /\
        statistics.mean [] = Raise StatisticsError).
Proof.
  split; [|split].
  - intros w log Hg Hne Hc Hm.
    rewrite health_status_run by assumption.
    destruct (summary_of_moderate (entries_of w log)) as [status ->]; eauto.
    now apply entries_of_nonempty.
  - intros w log e Hg Hne Hc. rewrite health_status_run by assumption.
    cbn [fst]. intros H.
    apply summary_of_raise_kinds in H; auto using entries_of_nonempty.
    destruct H as [-> | ->]; split; try discriminate; intros k; discriminate.
  - intros w log Hg Hl. rewrite health_status_run by assumption.
    unfold entries_of. rewrite Hl. split; [reflexivity|].
    intros sensor _. split; reflexivity.
Qed.

Lemma health_status_never_raises_on_moderate_logs_witness :
  (exists status,
      health_status 0 three_reading_log = (Ok status, three_reading_log)) /\
  health_status 0 (boot module_globals lowest)
  = (Raise StatisticsError, boot module_globals lowest).
Proof.
  split.
  - apply (proj1 health_status_never_raises_on_moderate_logs).
    + reflexivity.
    + vm_compute. discriminate.
    + apply complete_concrete. vm_compute. reflexivity.
    + apply moderate_concrete. vm_compute. reflexivity.
  - apply (proj2 (proj2 health_status_never_raises_on_moderate_logs));
      reflexivity.
Defined.

(** ** Keys of the summary *)

Lemma column_of_agree entries entries' sensor :
  Forall2 (fun d d' => lookup d sensor = lookup d' sensor) entries entries' ->
  column_of entries sensor = column_of entries' sensor.
Proof.
  induction 1 as [|d d' l l' Hd Hl IH]; [reflexivity|].
  cbn [column_of]. unfold getitem. now rewrite Hd, IH.
Qed.

Lemma summary_of_agree entries entries' :
  Forall2 (fun d d' =>
             forall sensor,
               In sensor (keys SENSOR_CONFIG) ->
               lookup d sensor = lookup d' sensor) entries entries' ->
  summary_of entries = summary_of entries'.
Proof.
  intros H. rewrite !summary_of_unfold. unfold sensor_summary.
  rewrite (column_of_agree entries entries' "temperature")
    by (eapply Forall2_impl; [|exact H]; cbv beta; auto).
  rewrite (column_of_agree entries entries' "vibration")
    by (eapply Forall2_impl; [|exact H]; cbv beta; auto).
  rewrite (column_of_agree entries entries' "voltage")
    by (eapply Forall2_impl; [|exact H]; cbv beta; auto).
  reflexivity.
Qed.

(** C10. Whatever the log, a map returned by [health_status] has exactly
    the keys of [SENSOR_CONFIG] (in its order), so a key outside the
    configuration is not in the summary; entries that agree on the
    configured sensors give the same summary, whatever else they hold; and
    for a non-empty log whose entries have at least the configured
    sensors, with moderate values, the map is returned. *)
Theorem health_status_keys_are_the_configured_sensors :
  (forall w log status,
      g_SENSOR_CONFIG (globals w) = SENSOR_CONFIG ->
      fst (health_status log w) = Ok status ->
      keys status = keys SENSOR_CONFIG /\
      (forall k, ~ In k (keys SENSOR_CONFIG) -> lookup status k = None)) /\
  (forall w log log',
      g_SENSOR_CONFIG (globals w) = SENSOR_CONFIG ->
      Forall2 (fun d d' =>
                 forall sensor,
                   In sensor (keys SENSOR_CONFIG) ->
                   lookup d sensor = lookup d' sensor)
              (entries_of w log) (entries_of w log') ->
      health_status log w = health_status log' w) /\
  (forall w log,
      g_SENSOR_CONFIG (globals w) = SENSOR_CONFIG ->
      list_at w log <> [] ->
      complete (entries_of w log) ->
      moderate_entries (entries_of w log) ->
      exists status,
        health_status log w = (Ok status, w) /\
        keys status = keys SENSOR_CONFIG).
Proof.
  split; [|split].
  - intros w log status Hg. rewrite health_status_run by assumption.
    cbn [fst]. intros H. apply summary_of_keys in H as Hk. split; auto.
    intros k Hnot. apply lookup_None. now rewrite Hk.
  - intros w log log' Hg H. rewrite !health_status_run by assumption.
    now rewrite (summary_of_agree _ _ H).
  - intros w log Hg Hne Hc Hm. rewrite health_status_run by assumption.
    destruct (summary_of_moderate (entries_of w log)) as [status Hs];
      auto using entries_of_nonempty.
    exists status. rewrite Hs. split; auto. eapply summary_of_keys; eauto.
Qed.

Lemma health_status_keys_are_the_configured_sensors_witness :
  exists status,
    health_status 0 extra_key_log = (Ok status, extra_key_log) /\
    keys status = ["temperature"; "vibration"; "voltage"] /\
    lookup status "humidity" = None.
Proof.
  destruct (proj2 (proj2 health_status_keys_are_the_configured_sensors)
              extra_key_log 0%nat) as (status & Hrun & Hkeys).
  - reflexivity.
  - vm_compute. discriminate.
  - apply complete_concrete. vm_compute. reflexivity.
  - apply moderate_concrete. vm_compute. reflexivity.
  - exists status. split; [exact Hrun|]. split; [exact Hkeys|].
    apply (proj1 health_status_keys_are_the_configured_sensors
             extra_key_log 0%nat status eq_refl).
    + now rewrite Hrun.
    + rewrite configured_sensors. intuition discriminate.
Defined.


(* ================================================================= *)
(** * Rounding to 2 decimals *)

Section Rounding.
Local Open Scope Z_scope.

Lemma round_half_even_range p q :
  0 < q -> p / q <= round_half_even p q <= p / q + 1.
Proof.
  intros Hq. unfold round_half_even.
  destruct (2 * (p mod q) ?= q); [destruct (Z.even (p / q))| |]; lia.
Qed.

Lemma round_half_even_mono p p' q :
  0 < q -> p <= p' -> round_half_even p q <= round_half_even p' q.
Proof.
  intros Hq Hle.
  assert (Hk : p / q <= p' / q) by (apply Z.div_le_mono; lia).
  destruct (Z.eq_dec (p / q) (p' / q)) as [E|N].
  - unfold round_half_even. rewrite <- E.
    assert (Hr : p mod q <= p' mod q).
    { rewrite !Z.mod_eq by lia. rewrite <- E. lia. }
    destruct (Z.compare_spec (2 * (p mod q)) q);
      destruct (Z.compare_spec (2 * (p' mod q)) q);
      destruct (Z.even (p / q)); lia.
  - assert (H1 := round_half_even_range p q Hq).
    assert (H2 := round_half_even_range p' q Hq). lia.
Qed.

Lemma round_half_even_scale p q c :
  0 < q -> 0 < c -> round_half_even (p * c) (q * c) = round_half_even p q.
Proof.
  intros Hq Hc. unfold round_half_even.
  rewrite Z.div_mul_cancel_r by lia.
  rewrite Z.mul_mod_distr_r by lia.
  replace (2 * (p mod q * c)) with (2 * (p mod q) * c) by ring.
  now rewrite <- Zmult_compare_compat_r by lia.
Qed.

Lemma round_half_even_whole p c :
  0 < c -> round_half_even (p * c) c = p.
Proof.
  intros Hc. unfold round_half_even.
  rewrite Z.div_mul by lia. rewrite Z.mod_mul by lia.
  assert (E : (2 * 0 ?= c) = Lt) by (apply Z.compare_lt_iff; lia).
  now rewrite E.
Qed.

(** The decimal digits that [round] takes depend on the exact value only. *)
Lemma decimal_digits_hundredths m e :
  -1074 <= e ->
  decimal_digits m e 2 = hundredths (Z.pos m * 2 ^ (e + 1074)).
Proof.
  intros He. unfold decimal_digits, hundredths.
  change (10 ^ Z.of_nat 2) with 100.
  destruct (Z.leb_spec 0 e) as [Hpos|Hneg].
  - replace (Z.pos m * 2 ^ (e + 1074) * 100)
      with (Z.pos m * 2 ^ e * 100 * 2 ^ 1074)
      by (rewrite Z.pow_add_r by lia; ring).
    symmetry. apply round_half_even_whole. apply Z.pow_pos_nonneg; lia.
  - replace (2 ^ 1074) with (2 ^ (- e) * 2 ^ (e + 1074))
      by (rewrite <- Z.pow_add_r by lia; f_equal; lia).
    replace (Z.pos m * 2 ^ (e + 1074) * 100)
      with (Z.pos m * 100 * 2 ^ (e + 1074)) by ring.
    symmetry. apply round_half_even_scale; apply Z.pow_pos_nonneg; lia.
Qed.

Lemma round_positive u zu :
  exact u = Some zu -> 0 < zu ->
  round u 2 = decimal false (hundredths zu) 2.
Proof.
  unfold exact, round. intros E Hpos.
  destruct (Prim2SF u) as [s| | |s m e] eqn:Eu; try discriminate;
    cbn [SFexact] in E; apply Some_eq in E; subst zu; [lia|].
  apply exact_finite in Eu as (He & _ & _).
  assert (Hp : 0 < Z.pos m * 2 ^ (e + 1074))
    by (apply Z.mul_pos_pos; [lia | apply Z.pow_pos_nonneg; lia]).
  destruct s; cbn [cond_Zopp] in *; [lia|].
  now rewrite decimal_digits_hundredths by lia.
Qed.

Lemma Zrange_In lo n d :
  lo <= d < lo + Z.of_nat n -> In d (Zrange lo n).
Proof.
  intros H. unfold Zrange. apply in_map_iff.
  exists (Z.to_nat (d - lo)). split; [lia|].
  apply in_seq. lia.
Qed.

(** Rounding a value between two positive bounds gives a decimal between
    the bounds' hundredths. *)
Lemma round_within lo hi dlo n u :
  range_digits lo hi dlo n = true ->
  decimals_within lo hi dlo n = true ->
  (lo <=? u)%float = true -> (u <=? hi)%float = true ->
  (lo <=? round u 2)%float = true /\ (round u 2 <=? hi)%float = true /\
  moderate (round u 2) = true /\ two_decimals (round u 2).
Proof.
  unfold range_digits, decimals_within. intros Hr Hd Hlo Hhi.
  destruct (exact lo) as [za|] eqn:Ea; [|discriminate].
  destruct (exact hi) as [zb|] eqn:Eb; [|discriminate].
  apply andb_true_iff in Hr as [Hr Hb]. apply andb_true_iff in Hr as [Hpos Ha].
  apply Z.ltb_lt in Hpos, Hb. apply Z.leb_le in Ha.
  destruct (between_exact lo u hi za zb Ea Eb Hlo Hhi) as (zu & Eu & Hzu).
  rewrite (round_positive u zu Eu) by lia.
  assert (Hm1 : hundredths za <= hundredths zu)
    by (apply round_half_even_mono; [apply Z.pow_pos_nonneg|]; lia).
  assert (Hm2 : hundredths zu <= hundredths zb)
    by (apply round_half_even_mono; [apply Z.pow_pos_nonneg|]; lia).
  rewrite forallb_forall in Hd.
  assert (Hin : In (hundredths zu) (Zrange dlo n)) by (apply Zrange_In; lia).
  specialize (Hd (hundredths zu) Hin).
  cbv zeta in Hd.
  apply andb_true_iff in Hd as [Hd Hmod]. apply andb_true_iff in Hd as [H1 H2].
  repeat split; auto.
  exists false, (hundredths zu). split; [|reflexivity].
  unfold hundredths.
  assert (Hq : 0 < 2 ^ 1074) by (apply Z.pow_pos_nonneg; lia).
  assert (H0 := round_half_even_range (zu * 100) (2 ^ 1074) Hq).
  assert (0 <= zu * 100 / 2 ^ 1074) by (apply Z.div_pos; lia).
  lia.
Qed.

End Rounding.

(** The three sampler ranges. *)
Lemma temperature_range u :
  (18.5 <=? u)%float = true -> (u <=? 24.5)%float = true ->
  (18.5 <=? round u 2)%float = true /\ (round u 2 <=? 24.5)%float = true /\
  moderate (round u 2) = true /\ two_decimals (round u 2).
Proof. apply (round_within _ _ 1850 601); vm_compute; reflexivity. Qed.

Lemma vibration_range u :
  (0.05 <=? u)%float = true -> (u <=? 1.1)%float = true ->
  (0.05 <=? round u 2)%float = true /\ (round u 2 <=? 1.1)%float = true /\
  moderate (round u 2) = true /\ two_decimals (round u 2).
Proof. apply (round_within _ _ 5 106); vm_compute; reflexivity. Qed.

Lemma voltage_range u :
  (108.0 <=? u)%float = true -> (u <=? 127.0)%float = true ->
  (108.0 <=? round u 2)%float = true /\ (round u 2 <=? 127.0)%float = true /\
  moderate (round u 2) = true /\ two_decimals (round u 2).
Proof. apply (round_within _ _ 10800 1901); vm_compute; reflexivity. Qed.


(* ================================================================= *)
(** * [generate_sensor_data] *)

Lemma generate_sensor_data_run w :
  generate_sensor_data w = (Ok (next_addr w), snd (generate_sensor_data w)).
Proof. reflexivity. Qed.

Lemma generate_sensor_data_effect w :
  let w' := snd (generate_sensor_data w) in
  dict_at w' (next_addr w) = generated w /\
  (forall a, a <> next_addr w -> dict_at w' a = dict_at w a) /\
  list_at w' = list_at w /\
  next_addr w' = S (next_addr w) /\
  globals w' = globals w /\
  uniform_outcome w' = uniform_outcome w /\
  uniform_calls w' = S (S (S (uniform_calls w))) /\
  trace w' = trace w /\
  files w' = files w.
Proof.
  cbn. rewrite Nat.eqb_refl. repeat split; auto.
  intros a Ha. apply Nat.eqb_neq in Ha. now rewrite Ha.
Qed.

Lemma generated_ranges w :
  honest_randomness (uniform_outcome w) ->
  exists t v u,
    generated w = [("temperature", t); ("vibration", v); ("voltage", u)] /\
    ((18.5 <=? t)%float = true /\ (t <=? 24.5)%float = true /\
     moderate t = true /\ two_decimals t) /\
    ((0.05 <=? v)%float = true /\ (v <=? 1.1)%float = true /\
     moderate v = true /\ two_decimals v) /\
    ((108.0 <=? u)%float = true /\ (u <=? 127.0)%float = true /\
     moderate u = true /\ two_decimals u).
Proof.
  intros H. unfold generated. do 3 eexists. split; [reflexivity|].
  split; [|split].
  - destruct (H (uniform_calls w) 18.5 24.5 eq_refl)%float.
    now apply temperature_range.
  - destruct (H (S (uniform_calls w)) 0.05 1.1 eq_refl)%float.
    now apply vibration_range.
  - destruct (H (S (S (uniform_calls w))) 108.0 127.0 eq_refl)%float.
    now apply voltage_range.
Qed.

Lemma leb_refl_of_leb (a b : float) :
  (a <=? b)%float = true -> (a <=? a)%float = true.
Proof.
  rewrite !FloatAxioms.leb_spec. unfold SFleb.
  destruct (Prim2SF a) as [s|s| |s m e]; cbn [SFcompare]; auto.
  - now destruct s.
  - rewrite Z.compare_refl, Pos.compare_cont_refl. now destruct s.
Qed.

Lemma honest_lowest : honest_randomness lowest.
Proof.
  intros k a b H. unfold lowest. split; auto.
  eapply leb_refl_of_leb; eauto.
Qed.

(** C6. Whatever the randomness source returns within the bounds that
    [random.uniform] promises, the reading that [generate_sensor_data]
    builds has exactly the three sensors, with temperature in
    [18.5, 24.5], vibration in [0.05, 1.1] and voltage in [108.0, 127.0],
    each the double nearest to a decimal with 2 fractional digits. *)
Theorem generate_sensor_data_within_ranges :
  forall w,
    honest_randomness (uniform_outcome w) ->
    exists data t v u,
      fst (generate_sensor_data w) = Ok data /\
      dict_at (snd (generate_sensor_data w)) data
      = [("temperature", t); ("vibration", v); ("voltage", u)] /\
      ((18.5 <=? t)%float = true /\ (t <=? 24.5)%float = true /\
       two_decimals t) /\
      ((0.05 <=? v)%float = true /\ (v <=? 1.1)%float = true /\
       two_decimals v) /\
      ((108.0 <=? u)%float = true /\ (u <=? 127.0)%float = true /\
       two_decimals u).
Proof.
  intros w H.
  destruct (generated_ranges w H) as (t & v & u & Hg & Ht & Hv & Hu).
  exists (next_addr w), t, v, u.
  destruct (generate_sensor_data_effect w) as (Hd & _).
  split; [reflexivity|]. split; [now rewrite Hd|].
  tauto.
Qed.

Lemma generate_sensor_data_within_ranges_witness :
  exists data t v u,
    fst (generate_sensor_data (boot module_globals lowest)) = Ok data /\
    dict_at (snd (generate_sensor_data (boot module_globals lowest))) data
    = [("temperature", t); ("vibration", v); ("voltage", u)] /\
    ((18.5 <=? t)%float = true /\ (t <=? 24.5)%float = true /\
     two_decimals t) /\
    ((0.05 <=? v)%float = true /\ (v <=? 1.1)%float = true /\
     two_decimals v) /\
    ((108.0 <=? u)%float = true /\ (u <=? 127.0)%float = true /\
     two_decimals u).
Proof.
  apply generate_sensor_data_within_ranges. exact honest_lowest.
Defined.


(* ================================================================= *)
(** * The driver loop *)

Lemma generated_configured w : first_unconfigured (generated w) = None.
Proof.
  apply first_unconfigured_None. intros k Hk. apply configured_sensors.
  cbn in Hk. intuition.
Qed.

(** One tick: a fresh dict holding the generated reading, appended to the
    log; nothing else in the store changes. *)
Lemma main_tick_run w log i :
  g_SENSOR_CONFIG (globals w) = SENSOR_CONFIG ->
  exists w',
    main_tick log i w = (Ok tt, w') /\
    globals w' = globals w /\
    uniform_outcome w' = uniform_outcome w /\
    uniform_calls w' = 3 + uniform_calls w /\
    next_addr w' = S (next_addr w) /\
    list_at w' log = list_at w log ++ [next_addr w] /\
    dict_at w' (next_addr w) = generated w /\
    (forall a, a <> next_addr w -> dict_at w' a = dict_at w a) /\
    files w' = files w.
Proof.
  intros Hg. unfold main_tick.
  pose proof (generate_sensor_data_run w) as Hrun.
  pose proof (generate_sensor_data_effect w) as Heff. cbv zeta in Heff.
  revert Hrun Heff. generalize (snd (generate_sensor_data w)). intros w1 Hrun Heff.
  destruct Heff as (Hd & Hd' & Hl & Hn & Hgl & Hu & Hc & Ht & Hf).
  rewrite bind_run, Hrun. rewrite bind_run. cbn [list_append].
  rewrite bind_run.
  rewrite detect_anomalies_run by (cbn [globals]; congruence).
  cbn [dict_at]. rewrite Hd, generated_configured.
  rewrite bind_run. cbn [deref_dict]. rewrite bind_run. cbn [print emit].
  rewrite bind_run.
  destruct (truthy (fold_left flag (generated w) []));
    cbn [print emit ret]; rewrite bind_run; cbn [load_global time.sleep emit];
    eexists; (split; [reflexivity|]); cbn;
    rewrite Nat.eqb_refl; repeat split; auto; now rewrite Hl.
Qed.

Lemma for_each_app {A S} (xs ys : list A) (body : A -> S -> Py S) s w :
  for_each (xs ++ ys) body s w
  = match for_each xs body s w with
    | (Ok s', w') => for_each ys body s' w'
    | (Raise e, w') => (Raise e, w')
    end.
Proof.
  revert s w. induction xs as [|x xs IH]; intros s w; [reflexivity|].
  cbn [app for_each]. rewrite !bind_run.
  destruct (body x s w) as [[s'|e] w']; auto.
Qed.

Lemma main_loop_split log k n w :
  main_loop log (k + n) w
  = match main_loop log k w with
    | (Ok _, w') => main_loop_from log k n w'
    | (Raise e, w') => (Raise e, w')
    end.
Proof.
  unfold main_loop, main_loop_from. rewrite seq_app, for_each_app.
  now destruct (for_each (seq 0 k) _ tt w) as [[[]|e] w'].
Qed.

(** After [k] ticks the log holds the [k] dicts allocated so far, in
    allocation order, and the dict of tick [i] is the reading of tick [i]. *)
Lemma main_loop_run w0 log k :
  g_SENSOR_CONFIG (globals w0) = SENSOR_CONFIG ->
  exists wk,
    main_loop log k w0 = (Ok tt, wk) /\
    globals wk = globals w0 /\
    uniform_outcome wk = uniform_outcome w0 /\
    uniform_calls wk = uniform_calls w0 + 3 * k /\
    next_addr wk = next_addr w0 + k /\
    list_at wk log = list_at w0 log ++ seq (next_addr w0) k /\
    (forall i, i < k -> dict_at wk (next_addr w0 + i) = reading_of_tick w0 i) /\
    files wk = files w0.
Proof.
  intros Hg. induction k as [|k IH].
  - exists w0. cbn. rewrite app_nil_r, !Nat.add_0_r.
    repeat split; auto. intros i Hi. lia.
  - destruct IH as (wk & Hrun & Hgl & Hu & Hc & Hn & Hl & Hd & Hf).
    destruct (main_tick_run wk log k) as
      (w' & Htick & Hgl' & Hu' & Hc' & Hn' & Hl' & Hd' & Hd'' & Hf');
      [congruence|].
    assert (Hs : main_loop log (S k) w0 = (Ok tt, w')).
    { rewrite <- Nat.add_1_r, main_loop_split, Hrun.
      unfold main_loop_from. cbn [seq for_each].
      now rewrite bind_run, Htick. }
    exists w'. rewrite Hs.
    repeat split; try congruence; try lia.
    + rewrite Hl', Hl, Hn, seq_S, app_assoc. reflexivity.
    + intros i Hi. destruct (Nat.eq_dec i k) as [->|Hne].
      * rewrite <- Hn, Hd'. unfold generated, reading_of_tick.
        rewrite Hu, Hc. reflexivity.
      * rewrite Hd'' by lia. apply Hd. lia.
Qed.


Lemma nth_error_seq a n i : i < n -> nth_error (seq a n) i = Some (a + i).
Proof.
  revert a i. induction n as [|n IH]; intros a i Hi; [lia|].
  destruct i as [|i]; cbn [seq nth_error].
  - f_equal. lia.
  - rewrite IH by lia. f_equal. lia.
Qed.

Lemma firstn_seq_le a k j : j <= k -> firstn j (seq a k) = seq a j.
Proof.
  revert a k. induction j as [|j IH]; intros a k Hj; [reflexivity|].
  destruct k as [|k]; [lia|]. cbn [seq firstn]. f_equal. apply IH. lia.
Qed.

(** C3. In the driver loop, started on an empty log, after any number [k]
    of the [n] ticks: the log has [k] entries, its [i]-th entry is the
    reading produced on tick [i] and has exactly the keys temperature,
    vibration and voltage; and the log after [j <= k] ticks is the first
    [j] entries of the log after [k] ticks (entries are only appended). *)
Theorem log_holds_the_generated_readings_in_order :
  forall w0 log n k,
    g_SENSOR_CONFIG (globals w0) = SENSOR_CONFIG ->
    list_at w0 log = [] ->
    k <= n ->
    exists wk,
      main_loop log k w0 = (Ok tt, wk) /\
      main_loop log n w0 = main_loop_from log k (n - k) wk /\
      List.length (list_at wk log) = k /\
      (forall i,
          i < k ->
          exists entry,
            nth_error (list_at wk log) i = Some entry /\
            dict_at wk entry = reading_of_tick w0 i /\
            keys (dict_at wk entry) = ["temperature"; "vibration"; "voltage"]) /\
      (forall j,
          j <= k ->
          exists wj,
            main_loop log j w0 = (Ok tt, wj) /\
            list_at wj log = firstn j (list_at wk log)).
Proof.
  intros w0 log n k Hg Hempty Hk.
  destruct (main_loop_run w0 log k Hg)
    as (wk & Hrun & _ & _ & _ & _ & Hl & Hd & _).
  rewrite Hempty in Hl. cbn [app] in Hl.
  exists wk. split; [exact Hrun|]. split; [|split; [|split]].
  - replace n with (k + (n - k)) at 1 by lia.
    now rewrite main_loop_split, Hrun.
  - now rewrite Hl, length_seq.
  - intros i Hi. exists (next_addr w0 + i). rewrite Hl.
    split; [now apply nth_error_seq|].
    rewrite Hd by assumption. split; reflexivity.
  - intros j Hj.
    destruct (main_loop_run w0 log j Hg)
      as (wj & Hrunj & _ & _ & _ & _ & Hlj & _).
    rewrite Hempty in Hlj. cbn [app] in Hlj.
    exists wj. split; [exact Hrunj|].
    now rewrite Hlj, Hl, firstn_seq_le.
Qed.

Lemma log_holds_the_generated_readings_in_order_witness :
  exists wk,
    main_loop 0 2 (boot module_globals lowest) = (Ok tt, wk) /\
    main_loop 0 3 (boot module_globals lowest) = main_loop_from 0 2 (3 - 2) wk /\
    List.length (list_at wk 0) = 2 /\
    (forall i,
        i < 2 ->
        exists entry,
          nth_error (list_at wk 0) i = Some entry /\
          dict_at wk entry = reading_of_tick (boot module_globals lowest) i /\
          keys (dict_at wk entry) = ["temperature"; "vibration"; "voltage"]) /\
    (forall j,
        j <= 2 ->
        exists wj,
          main_loop 0 j (boot module_globals lowest) = (Ok tt, wj) /\
          list_at wj 0 = firstn j (list_at wk 0)).
Proof.
  apply log_holds_the_generated_readings_in_order.
  - reflexivity.
  - reflexivity.
  - lia.
Defined.


(* ================================================================= *)
(** * Writing the file *)

Lemma keeps_ret {A} (a : A) : keeps_write_outcome (ret a).
Proof. now intros w. Qed.

Lemma keeps_bind {A B} (m : Py A) (k : A -> Py B) :
  keeps_write_outcome m -> (forall a, keeps_write_outcome (k a)) ->
  keeps_write_outcome (bind m k).
Proof.
  intros Hm Hk w. unfold bind. specialize (Hm w).
  destruct (m w) as [[a|e] w']; cbn [snd] in *; [|exact Hm].
  now rewrite Hk.
Qed.

Lemma keeps_for_each {A S} (xs : list A) (body : A -> S -> Py S) :
  (forall x s, keeps_write_outcome (body x s)) ->
  forall s, keeps_write_outcome (for_each xs body s).
Proof.
  intros Hb. induction xs as [|x xs IH]; intros s; cbn [for_each].
  - apply keeps_ret.
  - apply keeps_bind; auto.
Qed.

Lemma keeps_reads_only {A} (m : Py A) : reads_only m -> keeps_write_outcome m.
Proof. intros H w. now rewrite H. Qed.

Lemma keeps_generate_sensor_data : keeps_write_outcome generate_sensor_data.
Proof. now intros w. Qed.

Lemma keeps_list_append l x : keeps_write_outcome (list_append l x).
Proof. now intros w. Qed.

Lemma keeps_emit e : keeps_write_outcome (emit e).
Proof. now intros w. Qed.

Lemma keeps_main_tick log i : keeps_write_outcome (main_tick log i).
Proof.
  unfold main_tick.
  apply keeps_bind; [apply keeps_generate_sensor_data | intros data].
  apply keeps_bind; [apply keeps_list_append | intros _].
  apply keeps_bind;
    [apply keeps_reads_only, reads_only_detect_anomalies | intros anomalies].
  apply keeps_bind; [now intros w | intros d].
  apply keeps_bind; [apply keeps_emit | intros _].
  apply keeps_bind;
    [destruct (truthy anomalies); [apply keeps_emit | apply keeps_ret]
    | intros _].
  apply keeps_bind; [now intros w | intros delay].
  apply keeps_emit.
Qed.

Lemma keeps_main_loop log n : keeps_write_outcome (main_loop log n).
Proof. unfold main_loop. apply keeps_for_each. intros. apply keeps_main_tick. Qed.

(** What the [with] block does under each answer of the file system. Only
    the named file and the console can change. *)
Lemma main_save_run log summary w :
  globals (snd (main_save log summary w)) = globals w /\
  dict_at (snd (main_save log summary w)) = dict_at w /\
  list_at (snd (main_save log summary w)) = list_at w /\
  next_addr (snd (main_save log summary w)) = next_addr w /\
  uniform_calls (snd (main_save log summary w)) = uniform_calls w /\
  (forall p, p <> "edge_health_log.json" ->
     lookup (files (snd (main_save log summary w))) p = lookup (files w) p) /\
  match write_outcome w "edge_health_log.json" with
  | Written =>
      fst (main_save log summary w) = Ok tt /\
      trace (snd (main_save log summary w)) = trace w ++ [Print LoggedNotice] /\
      lookup (files (snd (main_save log summary w))) "edge_health_log.json"
      = Some (log_document (entries_of w log) summary)
  | Refused =>
      fst (main_save log summary w) = Raise OSError /\
      trace (snd (main_save log summary w)) = trace w /\
      files (snd (main_save log summary w)) = files w
  | FailsInDump =>
      fst (main_save log summary w) = Raise OSError /\
      trace (snd (main_save log summary w)) = trace w /\
      lookup (files (snd (main_save log summary w))) "edge_health_log.json"
      = Some Incomplete
  | FailsAtClose =>
      fst (main_save log summary w) = Raise OSError /\
      trace (snd (main_save log summary w)) = trace w ++ [Print LoggedNotice] /\
      lookup (files (snd (main_save log summary w))) "edge_health_log.json"
      = Some Incomplete
  end.
Proof.
  unfold main_save, with_open_w. rewrite bind_run. unfold open_w.
  destruct (write_outcome w "edge_health_log.json") eqn:E.
  - rewrite !bind_run. cbn [json_of_log]. rewrite bind_run.
    unfold json_dump. unfold set_file. cbn [write_outcome]. rewrite E.
    cbn [print emit]. rewrite bind_run. unfold close.
    unfold set_file. cbn [write_outcome]. rewrite E. cbn [ret fst snd].
    unfold set_file.
    cbn [globals dict_at list_at next_addr uniform_calls files trace].
    repeat split; auto.
    + intros p Hp. now rewrite !lookup_setitem_neq by congruence.
    + rewrite lookup_setitem_eq. unfold log_document, entries_of.
      now rewrite map_map.
  - cbn [fst snd]. repeat split; auto.
  - rewrite !bind_run. cbn [json_of_log]. rewrite bind_run.
    unfold json_dump. unfold set_file. cbn [write_outcome]. rewrite E.
    unfold close. unfold set_file. cbn [write_outcome]. rewrite E. cbn [fst snd].
    unfold set_file.
    cbn [globals dict_at list_at next_addr uniform_calls files trace].
    repeat split; auto.
    + intros p Hp. now rewrite lookup_setitem_neq by congruence.
    + now rewrite lookup_setitem_eq.
  - rewrite !bind_run. cbn [json_of_log]. rewrite bind_run.
    unfold json_dump. unfold set_file. cbn [write_outcome]. rewrite E.
    cbn [print emit]. rewrite bind_run. unfold close.
    unfold set_file. cbn [write_outcome]. rewrite E. cbn [fst snd].
    unfold set_file.
    cbn [globals dict_at list_at next_addr uniform_calls files trace].
    repeat split; auto.
    + intros p Hp. now rewrite !lookup_setitem_neq by congruence.
    + now rewrite lookup_setitem_eq.
Qed.


(* ================================================================= *)
(** * [main] *)

Lemma reading_of_tick_ranges w i :
  honest_randomness (uniform_outcome w) ->
  exists t v u,
    reading_of_tick w i = [("temperature", t); ("vibration", v); ("voltage", u)] /\
    moderate t = true /\ moderate v = true /\ moderate u = true.
Proof.
  intros H. unfold reading_of_tick. do 3 eexists. split; [reflexivity|].
  split; [|split].
  - destruct (H (uniform_calls w + 3 * i) 18.5%float 24.5%float eq_refl).
    now apply temperature_range.
  - destruct (H (S (uniform_calls w + 3 * i)) 0.05%float 1.1%float eq_refl).
    now apply vibration_range.
  - destruct (H (S (S (uniform_calls w + 3 * i))) 108.0%float 127.0%float
                eq_refl).
    now apply voltage_range.
Qed.

Lemma tick_readings_complete w n :
  complete (map (reading_of_tick w) (seq 0 n)).
Proof.
  intros d sensor Hd Hs. apply in_map_iff in Hd as (i & <- & _).
  apply configured_sensors in Hs. destruct Hs as [-> | [-> | ->]]; cbn; auto.
Qed.

Lemma tick_readings_moderate w n :
  honest_randomness (uniform_outcome w) ->
  moderate_entries (map (reading_of_tick w) (seq 0 n)).
Proof.
  intros H d sensor x Hd Hs Hx. apply in_map_iff in Hd as (i & <- & _).
  destruct (reading_of_tick_ranges w i H) as (t & v & u & E & Ht & Hv & Hu).
  rewrite E in Hx. apply configured_sensors in Hs.
  destruct Hs as [-> | [-> | ->]]; cbn in Hx; congruence.
Qed.

Lemma map_seq_shift {A} (f g : nat -> A) a b n :
  (forall i, i < n -> f (a + i) = g (b + i)) ->
  map f (seq a n) = map g (seq b n).
Proof.
  revert a b. induction n as [|n IH]; intros a b H; [reflexivity|].
  cbn [seq map]. f_equal.
  - specialize (H 0 ltac:(lia)). now rewrite !Nat.add_0_r in H.
  - apply IH. intros i Hi. specialize (H (S i) ltac:(lia)).
    now rewrite !Nat.add_succ_r in H.
Qed.

(** The summary of a complete log with moderate values, as JSON. *)
Lemma summary_of_shape entries :
  entries <> [] -> complete entries -> moderate_entries entries ->
  exists status at_ st av sv au su,
    summary_of entries = Ok status /\
    json_of_summary status
    = JObject
        [("temperature", JObject [("avg", JNumber at_); ("std_dev", JNumber st)]);
         ("vibration", JObject [("avg", JNumber av); ("std_dev", JNumber sv)]);
         ("voltage", JObject [("avg", JNumber au); ("std_dev", JNumber su)])].
Proof.
  intros Hne Hc Hm. rewrite summary_of_unfold.
  destruct (sensor_summary_moderate entries "temperature" Hne)
    as (? & mt & st & _ & _ & _ & -> & _); eauto.
  destruct (sensor_summary_moderate entries "vibration" Hne)
    as (? & mv & sv & _ & _ & _ & -> & _); eauto.
  destruct (sensor_summary_moderate entries "voltage" Hne)
    as (? & mu & su & _ & _ & _ & -> & _); eauto.
  cbn [result_bind]. do 7 eexists. split; reflexivity.
Qed.

(** C4, as stated, fails for [N = 0]: the log stays empty, [mean] raises
    [StatisticsError] and no file is written. *)
Lemma main_with_no_readings_writes_nothing :
  g_READINGS (globals (boot (globals_with_readings 0) lowest)) = 0 /\
  fst (main (boot (globals_with_readings 0) lowest)) = Raise StatisticsError /\
  files (snd (main (boot (globals_with_readings 0) lowest))) = [].
Proof. vm_compute. auto. Qed.

(** C4 (amended). With a reading count [N >= 1] and a file system that
    lets the write go through, [main] returns and [edge_health_log.json]
    holds a JSON object with exactly the two members [readings] and
    [summary]: [readings] is the array of the [N] readings of the log in
    tick order, each an object with the numbers temperature, vibration and
    voltage; [summary] is an object with exactly the three configured
    sensors, each an object with the numbers [avg] and [std_dev]. No other
    file changes. *)
Theorem main_writes_the_log_and_its_summary :
  forall w N,
    g_SENSOR_CONFIG (globals w) = SENSOR_CONFIG ->
    g_READINGS (globals w) = N ->
    1 <= N ->
    honest_randomness (uniform_outcome w) ->
    write_outcome w "edge_health_log.json" = Written ->
    exists w' log summary at_ st av sv au su,
      main w = (Ok tt, w') /\
      entries_of w' log = map (reading_of_tick w) (seq 0 N) /\
      lookup (files w') "edge_health_log.json"
      = Some (Document
                (JObject
                   [("readings", JArray (map json_of_floats (entries_of w' log)));
                    ("summary", summary)])) /\
      (forall p, p <> "edge_health_log.json" ->
                 lookup (files w') p = lookup (files w) p) /\
      List.length (entries_of w' log) = N /\
      (forall d,
          In d (entries_of w' log) ->
          exists t v u,
            json_of_floats d
            = JObject [("temperature", JNumber t); ("vibration", JNumber v);
                       ("voltage", JNumber u)]) /\
      summary
      = JObject
          [("temperature", JObject [("avg", JNumber at_); ("std_dev", JNumber st)]);
           ("vibration", JObject [("avg", JNumber av); ("std_dev", JNumber sv)]);
           ("voltage", JObject [("avg", JNumber au); ("std_dev", JNumber su)])].
Proof.
  intros w N Hg HN H1 Hr Hw. unfold main.
  rewrite bind_run. cbn [print emit]. rewrite bind_run. cbn [new_list].
  rewrite bind_run. cbn [load_global globals]. rewrite HN.
  rewrite bind_run.
  match goal with
  | |- context [main_loop ?l N ?w0] =>
      destruct (main_loop_run w0 l N) as
        (wN & Hrun & Hgl & Hu & Hc & Hn & Hl & Hd & Hf); [exact Hg|];
      pose proof (keeps_main_loop l N w0) as Hwo;
      rewrite Hrun in *
  end.
  cbn [globals uniform_outcome uniform_calls next_addr list_at files
       write_outcome snd] in *.
  rewrite Nat.eqb_refl in Hl. cbn [app] in Hl.
  rewrite bind_run. cbn [print emit]. rewrite bind_run.
  rewrite health_status_run by (cbn [globals]; congruence).
  assert (He : map (dict_at wN) (list_at wN (next_addr w))
               = map (reading_of_tick w) (seq 0 N)).
  { rewrite Hl. apply map_seq_shift. intros i Hi. now rewrite Hd. }
  unfold entries_of at 1. cbn [dict_at list_at]. rewrite He.
  destruct (summary_of_shape (map (reading_of_tick w) (seq 0 N)))
    as (status & at_ & st & av & sv & au & su & Hs & Hj).
  { destruct N; [lia | discriminate]. }
  { apply tick_readings_complete. }
  { now apply tick_readings_moderate. }
  rewrite Hs. rewrite bind_run. cbn [print emit].
  fold (main_save (next_addr w) status).
  match goal with
  | |- context [main_save ?l status ?w1] => set (W := w1)
  end.
  assert (HW : write_outcome W "edge_health_log.json" = Written)
    by (unfold W; cbn [write_outcome]; now rewrite Hwo).
  assert (HWd : dict_at W = dict_at wN) by reflexivity.
  assert (HWl : list_at W = list_at wN) by reflexivity.
  assert (HWf : files W = files wN) by reflexivity.
  clearbody W.
  pose proof (main_save_run (next_addr w) status W) as Hsave.
  rewrite HW in Hsave.
  destruct (main_save (next_addr w) status W) as [r w'].
  cbn [fst snd] in Hsave.
  destruct Hsave as (_ & Hsd & Hsl & _ & _ & Hso & Hok & _ & Hdoc).
  subst r. unfold log_document, entries_of in Hdoc.
  rewrite HWd, HWl in *.
  exists w', (next_addr w), (json_of_summary status), at_, st, av, sv, au, su.
  split; [reflexivity|].
  unfold entries_of. rewrite Hsd, Hsl, He.
  split; [reflexivity|]. split; [|split; [|split; [|split]]].
  - rewrite Hdoc, He. reflexivity.
  - intros p Hp. rewrite Hso by exact Hp. now rewrite HWf, Hf.
  - now rewrite length_map, length_seq.
  - intros d Hd'. apply in_map_iff in Hd' as (i & <- & _).
    do 3 eexists. reflexivity.
  - exact Hj.
Qed.

Lemma main_writes_the_log_and_its_summary_witness :
  exists w' log summary at_ st av sv au su,
    main (boot (globals_with_readings 3) lowest) = (Ok tt, w') /\
    entries_of w' log
    = map (reading_of_tick (boot (globals_with_readings 3) lowest)) (seq 0 3) /\
    lookup (files w') "edge_health_log.json"
    = Some (Document
              (JObject
                 [("readings", JArray (map json_of_floats (entries_of w' log)));
                  ("summary", summary)])) /\
    (forall p, p <> "edge_health_log.json" ->
               lookup (files w') p
               = lookup (files (boot (globals_with_readings 3) lowest)) p) /\
    List.length (entries_of w' log) = 3 /\
    (forall d,
        In d (entries_of w' log) ->
        exists t v u,
          json_of_floats d
          = JObject [("temperature", JNumber t); ("vibration", JNumber v);
                     ("voltage", JNumber u)]) /\
    summary
    = JObject
        [("temperature", JObject [("avg", JNumber at_); ("std_dev", JNumber st)]);
         ("vibration", JObject [("avg", JNumber av); ("std_dev", JNumber sv)]);
         ("voltage", JObject [("avg", JNumber au); ("std_dev", JNumber su)])].
Proof.
  apply main_writes_the_log_and_its_summary.
  - reflexivity.
  - reflexivity.
  - lia.
  - exact honest_lowest.
  - reflexivity.
Defined.


(* ================================================================= *)
(** * More on [detect_anomalies] *)

Lemma setitem_new {V} (d : dict V) k v :
  ~ In k (keys d) -> setitem d k v = d ++ [(k, v)].
Proof.
  induction d as [|[k' v'] d IH]; simpl; intros H; auto.
  destruct (String.eqb k' k) eqn:E.
  - apply String.eqb_eq in E. tauto.
  - f_equal. apply IH. tauto.
Qed.

(** With unique keys the loop appends the flagged items to what it has. *)
Lemma flagged_items (d : dict float) :
  forall anomalies,
    NoDup (keys anomalies ++ keys d) ->
    fold_left flag d anomalies = anomalies ++ anomalies_of d.
Proof.
  unfold anomalies_of.
  induction d as [|[k v] d IH]; intros anomalies Hnd; cbn [fold_left filter].
  - now rewrite app_nil_r.
  - cbn [keys map fst] in Hnd. unfold flag at 2. cbn [fst snd].
    assert (Hk : ~ In k (keys anomalies)).
    { apply NoDup_remove_2 in Hnd. intros Hin. apply Hnd.
      apply in_or_app. now left. }
    destruct (out_of_rangeb k v).
    + rewrite setitem_new by assumption. rewrite IH.
      * now rewrite <- app_assoc.
      * unfold keys in *. rewrite map_app, <- app_assoc. exact Hnd.
    + apply IH. now apply NoDup_remove_1 in Hnd.
Qed.

Lemma anomalies_of_keys (d : dict float) k :
  In k (keys (anomalies_of d)) -> In k (keys d).
Proof.
  unfold anomalies_of, keys. intros H.
  apply in_map_iff in H as ([k' v] & <- & Hin).
  apply filter_In in Hin as [Hin _]. now apply (in_map fst) in Hin.
Qed.

Lemma anomalies_of_unique (d : dict float) :
  unique_keys d -> unique_keys (anomalies_of d).
Proof.
  unfold unique_keys, anomalies_of.
  induction d as [|[k v] d IH]; cbn [keys map filter fst snd]; intros H; auto.
  inversion H as [|? ? Hnot Hnd]; subst.
  destruct (out_of_rangeb k v); cbn [keys map fst]; auto.
  constructor; auto. intros Hin. apply Hnot.
  now apply (anomalies_of_keys d).
Qed.

Lemma anomalies_of_idempotent (d : dict float) :
  anomalies_of (anomalies_of d) = anomalies_of d.
Proof.
  unfold anomalies_of.
  induction d as [|[k v] d IH]; cbn [filter fst snd]; auto.
  destruct (out_of_rangeb k v) eqn:E; auto.
  cbn [filter fst snd]. now rewrite E, IH.
Qed.

Lemma detect_anomalies_is_anomalies_of w data :
  g_SENSOR_CONFIG (globals w) = SENSOR_CONFIG ->
  unique_keys (dict_at w data) ->
  (forall k, In k (keys (dict_at w data)) -> In k (keys SENSOR_CONFIG)) ->
  detect_anomalies data w = (Ok (anomalies_of (dict_at w data)), w).
Proof.
  intros Hg Hu Hc. rewrite detect_anomalies_run by assumption.
  apply first_unconfigured_None in Hc. rewrite Hc.
  now rewrite flagged_items by exact Hu.
Qed.

(** X1. For a reading with unique, configured keys, the dict that
    [detect_anomalies] returns is the reading with the in-range items left
    out: the flagged sensors, with their values, in the reading's order. *)
Theorem detect_anomalies_keeps_reading_order :
  forall w data,
    g_SENSOR_CONFIG (globals w) = SENSOR_CONFIG ->
    unique_keys (dict_at w data) ->
    (forall k, In k (keys (dict_at w data)) -> In k (keys SENSOR_CONFIG)) ->
    detect_anomalies data w = (Ok (anomalies_of (dict_at w data)), w).
Proof. exact detect_anomalies_is_anomalies_of. Qed.

Lemma detect_anomalies_keeps_reading_order_witness :
  detect_anomalies 0 hot_reading
  = (Ok [("temperature", 25.0); ("voltage", 109.99)]%float, hot_reading).
Proof.
  rewrite detect_anomalies_keeps_reading_order.
  - vm_compute. reflexivity.
  - reflexivity.
  - unfold unique_keys. vm_compute.
    repeat constructor; simpl; intuition discriminate.
  - intros k Hk. apply configured_sensors. vm_compute in Hk. intuition.
Defined.

Lemma first_unconfigured_app (prefix rest : dict float) :
  (forall k, In k (keys prefix) -> In k (keys SENSOR_CONFIG)) ->
  first_unconfigured (prefix ++ rest) = first_unconfigured rest.
Proof.
  induction prefix as [|[k v] prefix IH]; intros H; [reflexivity|].
  cbn [app]. rewrite first_unconfigured_cons.
  destruct (In_keys_lookup SENSOR_CONFIG k) as [limits ->].
  - apply H. now left.
  - apply IH. intros k' Hk'. apply H. now right.
Qed.

(** X2. A reading whose first unconfigured key is [k] makes
    [detect_anomalies] raise [KeyError k]: whatever was flagged before [k]
    is lost, and the keys after [k] are not looked at. *)
Theorem detect_anomalies_stops_at_first_unconfigured_key :
  forall w data prefix k v rest,
    g_SENSOR_CONFIG (globals w) = SENSOR_CONFIG ->
    dict_at w data = prefix ++ (k, v) :: rest ->
    (forall k', In k' (keys prefix) -> In k' (keys SENSOR_CONFIG)) ->
    ~ In k (keys SENSOR_CONFIG) ->
    detect_anomalies data w = (Raise (KeyError k), w).
Proof.
  intros w data prefix k v rest Hg Hd Hp Hk.
  rewrite detect_anomalies_run, Hd by assumption.
  rewrite first_unconfigured_app by assumption.
  rewrite first_unconfigured_cons.
  apply lookup_None in Hk. now rewrite Hk.
Qed.

Lemma detect_anomalies_stops_at_first_unconfigured_key_witness :
  detect_anomalies 0 humid_reading
  = (Raise (KeyError "humidity"), humid_reading).
Proof.
  apply (detect_anomalies_stops_at_first_unconfigured_key
           humid_reading 0%nat [("temperature", 20.0%float)]
           "humidity" 0.5%float [("voltage", 115.0%float)]).
  - reflexivity.
  - reflexivity.
  - intros k' [<- | []]. apply configured_temperature.
  - rewrite configured_sensors. intuition discriminate.
Defined.

Lemma nan_not_out_of_range sensor : out_of_rangeb sensor nan = false.
Proof.
  unfold out_of_rangeb.
  destruct (limit sensor "min") as [lo|]; [|reflexivity].
  destruct (limit sensor "max") as [hi|]; [|reflexivity].
  rewrite !FloatAxioms.ltb_spec. unfold SFltb.
  change (Prim2SF nan) with S754_nan. cbn [SFcompare orb].
  now destruct (Prim2SF hi).
Qed.

Lemma infinities_out_of_range sensor :
  In sensor (keys SENSOR_CONFIG) ->
  out_of_rangeb sensor infinity = true /\
  out_of_rangeb sensor neg_infinity = true.
Proof.
  intros H. apply configured_sensors in H.
  destruct H as [-> | [-> | ->]]; vm_compute; auto.
Qed.

(** X3. A NaN value is never flagged, and an infinite value of a
    configured sensor always is. *)
Theorem detect_anomalies_on_nan_and_infinities :
  forall w data,
    g_SENSOR_CONFIG (globals w) = SENSOR_CONFIG ->
    unique_keys (dict_at w data) ->
    (forall k, In k (keys (dict_at w data)) -> In k (keys SENSOR_CONFIG)) ->
    exists anomalies,
      detect_anomalies data w = (Ok anomalies, w) /\
      forall sensor,
        (lookup (dict_at w data) sensor = Some nan ->
         lookup anomalies sensor = None) /\
        (lookup (dict_at w data) sensor = Some infinity ->
         lookup anomalies sensor = Some infinity) /\
        (lookup (dict_at w data) sensor = Some neg_infinity ->
         lookup anomalies sensor = Some neg_infinity).
Proof.
  intros w data Hg Hu Hc.
  exists (fold_left flag (dict_at w data) []).
  rewrite detect_anomalies_run by assumption.
  apply first_unconfigured_None in Hc as Hnone. rewrite Hnone.
  split; [reflexivity|]. intros sensor.
  rewrite lookup_flagged by assumption.
  repeat split; intros H; rewrite H.
  - now rewrite nan_not_out_of_range.
  - apply lookup_Some_In, Hc, infinities_out_of_range in H as [-> _].
    reflexivity.
  - apply lookup_Some_In, Hc, infinities_out_of_range in H as [_ ->].
    reflexivity.
Qed.

Lemma detect_anomalies_on_nan_and_infinities_witness :
  detect_anomalies 0 odd_reading
  = (Ok [("vibration", infinity); ("voltage", neg_infinity)], odd_reading) /\
  exists anomalies,
    detect_anomalies 0 odd_reading = (Ok anomalies, odd_reading) /\
    lookup anomalies "temperature" = None.
Proof.
  split.
  - rewrite detect_anomalies_run by reflexivity. vm_compute. reflexivity.
  - destruct (detect_anomalies_on_nan_and_infinities odd_reading 0%nat)
      as (anomalies & Hrun & H).
    + reflexivity.
    + unfold unique_keys. vm_compute.
      repeat constructor; simpl; intuition discriminate.
    + intros k Hk. apply configured_sensors. vm_compute in Hk. intuition.
    + exists anomalies. split; [exact Hrun|]. now apply H.
Defined.

(** X4. Checking a dict of anomalies again changes nothing: if
    [detect_anomalies] returned [anomalies] for some reading, it returns
    [anomalies] for a reading that holds just them. *)
Theorem detect_anomalies_idempotent :
  forall w data data' anomalies,
    g_SENSOR_CONFIG (globals w) = SENSOR_CONFIG ->
    unique_keys (dict_at w data) ->
    (forall k, In k (keys (dict_at w data)) -> In k (keys SENSOR_CONFIG)) ->
    detect_anomalies data w = (Ok anomalies, w) ->
    dict_at w data' = anomalies ->
    detect_anomalies data' w = (Ok anomalies, w).
Proof.
  intros w data data' anomalies Hg Hu Hc Hrun Hd.
  rewrite detect_anomalies_is_anomalies_of in Hrun by assumption.
  apply (f_equal fst) in Hrun. cbn [fst] in Hrun. apply Ok_eq in Hrun.
  subst anomalies.
  rewrite detect_anomalies_is_anomalies_of; rewrite ?Hd.
  - now rewrite anomalies_of_idempotent.
  - assumption.
  - now apply anomalies_of_unique.
  - intros k Hk. now apply Hc, anomalies_of_keys.
Qed.

Lemma detect_anomalies_idempotent_witness :
  detect_anomalies 1 hot_reading_and_anomalies
  = (Ok [("temperature", 25.0); ("voltage", 109.99)]%float,
     hot_reading_and_anomalies).
Proof.
  apply (detect_anomalies_idempotent hot_reading_and_anomalies 0%nat 1%nat).
  - reflexivity.
  - unfold unique_keys. vm_compute.
    repeat constructor; simpl; intuition discriminate.
  - intros k Hk. apply configured_sensors. vm_compute in Hk. intuition.
  - rewrite detect_anomalies_is_anomalies_of.
    + vm_compute. reflexivity.
    + reflexivity.
    + unfold unique_keys. vm_compute.
      repeat constructor; simpl; intuition discriminate.
    + intros k Hk. apply configured_sensors. vm_compute in Hk. intuition.
  - reflexivity.
Defined.


(* ================================================================= *)
(** * More on [health_status] *)

Lemma column_of_missing entries sensor d :
  In d entries -> ~ In sensor (keys d) ->
  column_of entries sensor = Raise (KeyError sensor).
Proof.
  intros Hin Hnot. apply lookup_None in Hnot.
  induction entries as [|d' entries IH]; [destruct Hin|].
  cbn [column_of]. unfold getitem.
  destruct Hin as [-> | Hin].
  - now rewrite Hnot.
  - destruct (lookup d' sensor); [|reflexivity].
    cbn [result_bind]. now rewrite IH.
Qed.

Lemma column_of_raise_missing entries sensor e :
  column_of entries sensor = Raise e ->
  e = KeyError sensor /\ exists d, In d entries /\ ~ In sensor (keys d).
Proof.
  induction entries as [|d entries IH]; cbn [column_of]; [discriminate|].
  unfold getitem. destruct (lookup d sensor) eqn:El; cbn [result_bind].
  - destruct (column_of entries sensor); cbn [result_bind]; [discriminate|].
    intros H. inversion H; subst.
    destruct (IH eq_refl) as (He & d' & Hd' & Hn).
    split; auto. exists d'. split; [now right | assumption].
  - intros H. inversion H; subst. split; auto.
    exists d. split; [now left | now apply lookup_None].
Qed.

Lemma mean_raise_kinds data e :
  statistics.mean data = Raise e -> e = StatisticsError \/ e = OverflowError.
Proof.
  unfold statistics.mean.
  destruct (Z.ltb _ 1); [intros H; inversion H; auto|].
  destruct (statistics.special_terms data); [|discriminate].
  unfold int_truediv. destruct (Z.leb _ _); intros H; inversion H; auto.
Qed.

Lemma stdev_raise_any data e :
  statistics.stdev data = Raise e ->
  e = StatisticsError \/ e = OverflowError \/ e = AttributeError.
Proof.
  unfold statistics.stdev.
  destruct (Z.ltb _ 2); [intros H; inversion H; auto|].
  destruct (statistics.special_terms data).
  - unfold float_sqrt_of_frac. destruct (Z.leb _ _); intros H; inversion H; auto.
  - intros H; inversion H; auto.
Qed.

Lemma summarize_raise_not_KeyError values k :
  summarize values <> Raise (KeyError k).
Proof.
  unfold summarize. intros H.
  destruct (statistics.mean values) eqn:Em; cbn [result_bind] in H.
  - destruct (Nat.ltb 1 (List.length values)); [|discriminate].
    destruct (statistics.stdev values) eqn:Es; cbn [result_bind] in H;
      [discriminate|].
    inversion H; subst. apply stdev_raise_any in Es.
    intuition discriminate.
  - inversion H; subst. apply mean_raise_kinds in Em. intuition discriminate.
Qed.

Lemma sensor_summary_KeyError entries sensor k :
  sensor_summary entries sensor = Raise (KeyError k) ->
  k = sensor /\ exists d, In d entries /\ ~ In sensor (keys d).
Proof.
  unfold sensor_summary.
  destruct (column_of entries sensor) as [values|e] eqn:Ec; cbn [result_bind].
  - intros H. now apply summarize_raise_not_KeyError in H.
  - intros H. inversion H; subst.
    apply column_of_raise_missing in Ec as (He & Hd). inversion He; subst.
    auto.
Qed.

(** X5. [health_status] raises [KeyError k] only for a configured sensor
    [k] that some entry of the log lacks; and an entry without the first
    configured sensor, temperature, makes it raise [KeyError "temperature"]
    whatever else the log holds. *)
Theorem health_status_raises_KeyError_for_missing_sensor :
  (forall w log k,
      g_SENSOR_CONFIG (globals w) = SENSOR_CONFIG ->
      fst (health_status log w) = Raise (KeyError k) ->
      In k (keys SENSOR_CONFIG) /\
      exists d, In d (entries_of w log) /\ ~ In k (keys d)) /\
  (forall w log d,
      g_SENSOR_CONFIG (globals w) = SENSOR_CONFIG ->
      In d (entries_of w log) ->
      ~ In "temperature" (keys d) ->
      health_status log w = (Raise (KeyError "temperature"), w)).
Proof.
  split.
  - intros w log k Hg. rewrite health_status_run by assumption. cbn [fst].
    rewrite summary_of_unfold.
    destruct (sensor_summary (entries_of w log) "temperature") eqn:Et;
      cbn [result_bind].
    2: { intros H. inversion H; subst.
         apply sensor_summary_KeyError in Et as [-> Hd]. auto. }
    destruct (sensor_summary (entries_of w log) "vibration") eqn:Ev;
      cbn [result_bind].
    2: { intros H. inversion H; subst.
         apply sensor_summary_KeyError in Ev as [-> Hd]. auto. }
    destruct (sensor_summary (entries_of w log) "voltage") eqn:Eu;
      cbn [result_bind].
    2: { intros H. inversion H; subst.
         apply sensor_summary_KeyError in Eu as [-> Hd]. auto. }
    discriminate.
  - intros w log d Hg Hd Hn. rewrite health_status_run by assumption.
    rewrite summary_of_unfold. unfold sensor_summary at 1.
    now rewrite (column_of_missing _ _ d Hd Hn).
Qed.

Lemma health_status_raises_KeyError_for_missing_sensor_witness :
  fst (health_status 0 missing_vibration_log) = Raise (KeyError "vibration") /\
  In "vibration" (keys SENSOR_CONFIG) /\
  exists d, In d (entries_of missing_vibration_log 0) /\
            ~ In "vibration" (keys d).
Proof.
  assert (H : fst (health_status 0 missing_vibration_log)
              = Raise (KeyError "vibration")) by (vm_compute; reflexivity).
  split; [exact H|].
  exact (proj1 health_status_raises_KeyError_for_missing_sensor
           missing_vibration_log 0%nat "vibration" eq_refl H).
Defined.

(** X6. A log of one entry that has the configured sensors always gets a
    summary, whatever the values (NaN, infinite, huge): [stdev] is not
    called, [std_dev] is [0.0] for every sensor and [avg] is the rounded
    [mean] of the one value. *)
Theorem health_status_of_single_entry :
  forall w log entry,
    g_SENSOR_CONFIG (globals w) = SENSOR_CONFIG ->
    list_at w log = [entry] ->
    (forall sensor,
        In sensor (keys SENSOR_CONFIG) -> In sensor (keys (dict_at w entry))) ->
    exists status,
      health_status log w = (Ok status, w) /\
      forall sensor,
        In sensor (keys SENSOR_CONFIG) ->
        exists v m,
          lookup (dict_at w entry) sensor = Some v /\
          statistics.mean [v] = Ok m /\
          lookup status sensor = Some [("avg", round m 2); ("std_dev", 0%float)].
Proof.
  intros w log entry Hg Hl Hc.
  assert (Hs : forall sensor,
             In sensor (keys SENSOR_CONFIG) ->
             exists v m,
               lookup (dict_at w entry) sensor = Some v /\
               statistics.mean [v] = Ok m /\
               sensor_summary (entries_of w log) sensor
               = Ok [("avg", round m 2); ("std_dev", 0%float)]).
  { intros sensor Hin.
    destruct (In_keys_lookup _ _ (Hc sensor Hin)) as [v Hv].
    destruct (mean_returns [v]) as [m Hm]; [discriminate|].
    exists v, m. repeat split; auto.
    unfold sensor_summary, entries_of. rewrite Hl. cbn [map column_of].
    unfold getitem. rewrite Hv. cbn [result_bind].
    unfold summarize. rewrite Hm. reflexivity. }
  rewrite health_status_run by assumption. rewrite summary_of_unfold.
  destruct (Hs "temperature") as (vt & mt & Ht1 & Ht2 & Ht3); auto.
  destruct (Hs "vibration") as (vv & mv & Hv1 & Hv2 & Hv3); auto.
  destruct (Hs "voltage") as (vu & mu & Hu1 & Hu2 & Hu3); auto.
  rewrite Ht3, Hv3, Hu3. cbn [result_bind]. eexists. split; [reflexivity|].
  intros sensor Hin. apply configured_sensors in Hin.
  destruct Hin as [-> | [-> | ->]]; do 2 eexists; eauto.
Qed.

Lemma health_status_of_single_entry_witness :
  exists status,
    health_status 0 single_odd_reading_log = (Ok status, single_odd_reading_log) /\
    forall sensor,
      In sensor (keys SENSOR_CONFIG) ->
      exists v m,
        lookup (dict_at single_odd_reading_log 1) sensor = Some v /\
        statistics.mean [v] = Ok m /\
        lookup status sensor = Some [("avg", round m 2); ("std_dev", 0%float)].
Proof.
  apply health_status_of_single_entry.
  - reflexivity.
  - reflexivity.
  - intros sensor H. apply configured_sensors in H.
    destruct H as [-> | [-> | ->]]; vm_compute; auto.
Defined.


Lemma column_of_constant entries sensor v :
  (forall d, In d entries -> lookup d sensor = Some v) ->
  column_of entries sensor = Ok (repeat v (List.length entries)).
Proof.
  induction entries as [|d entries IH]; intros H; [reflexivity|].
  cbn [column_of List.length repeat]. unfold getitem.
  rewrite (H d) by now left. cbn [result_bind].
  rewrite IH by (intros; apply H; now right). reflexivity.
Qed.

Section ConstantData.
Local Open Scope Z_scope.

Lemma finite_terms_repeat v z n :
  exact v = Some z -> statistics.finite_terms (repeat v n) = repeat z n.
Proof.
  intros E. unfold statistics.finite_terms.
  induction n as [|n IH]; [reflexivity|].
  cbn [repeat flat_map]. now rewrite E, IH.
Qed.

Lemma special_terms_repeat v z n :
  exact v = Some z -> statistics.special_terms (repeat v n) = [].
Proof.
  intros E. apply special_terms_none. apply Forall_forall.
  intros x Hx. apply repeat_spec in Hx. subst x.
  unfold is_finite. now rewrite E.
Qed.

Lemma total_repeat z n : statistics.total (repeat z n) = Z.of_nat n * z.
Proof.
  unfold statistics.total. induction n as [|n IH]; [reflexivity|].
  cbn [repeat fold_right]. rewrite IH. lia.
Qed.

(** The sample deviation of two or more equal finite values is zero. *)
Lemma stdev_of_equal_values v z n :
  exact v = Some z -> (2 <= n)%nat ->
  statistics.stdev (repeat v n) = Ok 0%float.
Proof.
  intros E Hn. unfold statistics.stdev.
  rewrite repeat_length.
  destruct (Z.ltb_spec (Z.of_nat n) 2) as [|_]; [lia|].
  rewrite (special_terms_repeat v z n E), (finite_terms_repeat v z n E).
  rewrite map_repeat, !total_repeat.
  replace (Z.of_nat n * (Z.of_nat n * (z * z))
           - Z.of_nat n * z * (Z.of_nat n * z)) with 0 by ring.
  unfold float_sqrt_of_frac.
  assert (HT : 0 < overflow_threshold * overflow_threshold)
    by (vm_compute; reflexivity).
  assert (HP : 0 < 2 ^ 2148) by (vm_compute; reflexivity).
  set (TT := overflow_threshold * overflow_threshold) in *.
  set (P := 2 ^ 2148) in *.
  destruct (Z.leb_spec (TT * (Z.of_nat n * (Z.of_nat n - 1) * P)) 0) as [Hle|_];
    [|reflexivity].
  exfalso. clearbody TT P.
  assert (0 < Z.of_nat n * (Z.of_nat n - 1)) by nia.
  assert (0 < Z.of_nat n * (Z.of_nat n - 1) * P) by nia.
  nia.
Qed.

End ConstantData.

(** X7. In a log of two or more complete entries with moderate values, a
    sensor that has the same value in every entry gets [std_dev = 0.0]. *)
Theorem health_status_of_constant_sensor :
  forall w log sensor v,
    g_SENSOR_CONFIG (globals w) = SENSOR_CONFIG ->
    2 <= List.length (list_at w log) ->
    complete (entries_of w log) ->
    moderate_entries (entries_of w log) ->
    In sensor (keys SENSOR_CONFIG) ->
    (forall d, In d (entries_of w log) -> lookup d sensor = Some v) ->
    exists status m,
      health_status log w = (Ok status, w) /\
      statistics.mean (repeat v (List.length (list_at w log))) = Ok m /\
      lookup status sensor = Some [("avg", round m 2); ("std_dev", 0%float)].
Proof.
  intros w log sensor v Hg Hlen Hc Hm Hin Hv.
  assert (Hne : entries_of w log <> []).
  { apply entries_of_nonempty. destruct (list_at w log); [simpl in Hlen; lia|].
    discriminate. }
  destruct (summary_of_moderate _ Hne Hc Hm) as [status Hs].
  destruct (summary_of_lookup _ _ _ Hs Hin) as (s & Hsum & Hlk).
  assert (Hel : List.length (entries_of w log) = List.length (list_at w log))
    by (unfold entries_of; apply length_map).
  assert (Hfin : exists z, exact v = Some z).
  { destruct (entries_of w log) as [|d ds] eqn:E; [congruence|].
    assert (Hd : In d (d :: ds)) by now left.
    specialize (Hm d sensor v Hd Hin (Hv d Hd)).
    apply moderate_exact in Hm as (z & Ez & _). eauto. }
  destruct Hfin as [z Ez].
  destruct (mean_returns (repeat v (List.length (list_at w log)))) as [m Hmean].
  { destruct (list_at w log); [simpl in Hlen; lia | discriminate]. }
  exists status, m. rewrite health_status_run, Hs by assumption.
  split; [reflexivity|]. split; [exact Hmean|].
  rewrite Hlk. f_equal.
  unfold sensor_summary in Hsum.
  rewrite (column_of_constant _ _ v Hv), Hel in Hsum. cbn [result_bind] in Hsum.
  unfold summarize in Hsum. rewrite Hmean in Hsum. cbn [result_bind] in Hsum.
  rewrite repeat_length in Hsum.
  destruct (Nat.ltb_spec 1 (List.length (list_at w log))) as [_|Hbad]; [|lia].
  rewrite (stdev_of_equal_values v z _ Ez Hlen) in Hsum.
  cbn [result_bind] in Hsum. apply Ok_eq in Hsum. subst s.
  reflexivity.
Qed.

Lemma health_status_of_constant_sensor_witness :
  exists status m,
    health_status 0 steady_voltage_log = (Ok status, steady_voltage_log) /\
    statistics.mean (repeat 115.0%float (List.length (list_at steady_voltage_log 0)))
    = Ok m /\
    lookup status "voltage" = Some [("avg", round m 2); ("std_dev", 0%float)].
Proof.
  apply health_status_of_constant_sensor.
  - reflexivity.
  - vm_compute. lia.
  - apply complete_concrete. vm_compute. reflexivity.
  - apply moderate_concrete. vm_compute. reflexivity.
  - apply configured_voltage.
  - intros d Hd. vm_compute in Hd.
    destruct Hd as [<- | [<- | [<- | []]]]; reflexivity.
Defined.


(* ================================================================= *)
(** * More on [generate_sensor_data] *)

Lemma generated_unique w : unique_keys (generated w).
Proof.
  unfold unique_keys, generated. cbn [keys map fst].
  repeat constructor; simpl; intuition discriminate.
Qed.

Lemma generated_keys_configured w k :
  In k (keys (generated w)) -> In k (keys SENSOR_CONFIG).
Proof. intros H. apply configured_sensors. cbn in H. intuition. Qed.

Lemma lookup_anomalies_of (d : dict float) k v :
  unique_keys d ->
  lookup (anomalies_of d) k = Some v ->
  lookup d k = Some v /\ out_of_rangeb k v = true.
Proof.
  intros Hu. rewrite <- (app_nil_l (anomalies_of d)).
  rewrite <- flagged_items by exact Hu.
  rewrite lookup_flagged by assumption.
  destruct (lookup d k) as [v'|]; [|discriminate].
  destruct (out_of_rangeb k v') eqn:E; [|discriminate].
  intros H. apply Some_eq in H. subst v'. auto.
Qed.

Lemma out_of_range_temperature t :
  out_of_rangeb "temperature" t = ((t <? 19.0) || (24.0 <? t))%float.
Proof. vm_compute. reflexivity. Qed.

Lemma out_of_range_vibration v :
  out_of_rangeb "vibration" v = ((v <? 0.1) || (1.0 <? v))%float.
Proof. vm_compute. reflexivity. Qed.

Lemma out_of_range_voltage u :
  out_of_rangeb "voltage" u = ((u <? 110.0) || (125.0 <? u))%float.
Proof. vm_compute. reflexivity. Qed.

Lemma margins lo lower upper hi x :
  (lo <=? x)%float = true -> (x <=? hi)%float = true ->
  ((x <? lower) || (upper <? x))%float = true ->
  in_margins lo lower upper hi x = true.
Proof.
  unfold in_margins. intros -> -> H.
  rewrite andb_true_l, andb_true_r. exact H.
Qed.

(** X8. A generated reading never makes [detect_anomalies] fail, and what
    is flagged lies in the margins by which the sampler's ranges exceed
    the configured bounds: temperature in [18.5, 19.0) or (24.0, 24.5],
    vibration in [0.05, 0.1) or (1.0, 1.1], voltage in [108.0, 110.0) or
    (125.0, 127.0]. *)
Theorem generated_anomalies_lie_in_the_margins :
  forall w,
    g_SENSOR_CONFIG (globals w) = SENSOR_CONFIG ->
    honest_randomness (uniform_outcome w) ->
    exists data w1 anomalies,
      generate_sensor_data w = (Ok data, w1) /\
      detect_anomalies data w1 = (Ok anomalies, w1) /\
      (forall t, lookup anomalies "temperature" = Some t ->
                 in_margins 18.5 19.0 24.0 24.5 t = true) /\
      (forall v, lookup anomalies "vibration" = Some v ->
                 in_margins 0.05 0.1 1.0 1.1 v = true) /\
      (forall u, lookup anomalies "voltage" = Some u ->
                 in_margins 108.0 110.0 125.0 127.0 u = true) /\
      (forall k, In k (keys anomalies) -> In k (keys SENSOR_CONFIG)).
Proof.
  intros w Hg Hr.
  destruct (generate_sensor_data_effect w) as (Hd & _ & _ & _ & Hgl & _).
  destruct (generated_ranges w Hr) as (t & v & u & E & Ht & Hv & Hu).
  exists (next_addr w), (snd (generate_sensor_data w)),
    (anomalies_of (generated w)).
  split; [reflexivity|].
  split.
  { rewrite detect_anomalies_is_anomalies_of; rewrite ?Hd.
    - reflexivity.
    - congruence.
    - apply generated_unique.
    - apply generated_keys_configured. }
  assert (Hu' := generated_unique w).
  repeat split.
  - intros t' H. apply lookup_anomalies_of in H as [Hl Ho]; auto.
    rewrite E in Hl. cbn in Hl. apply Some_eq in Hl. subst t'.
    rewrite out_of_range_temperature in Ho. apply margins; tauto.
  - intros v' H. apply lookup_anomalies_of in H as [Hl Ho]; auto.
    rewrite E in Hl. cbn in Hl. apply Some_eq in Hl. subst v'.
    rewrite out_of_range_vibration in Ho. apply margins; tauto.
  - intros u' H. apply lookup_anomalies_of in H as [Hl Ho]; auto.
    rewrite E in Hl. cbn in Hl. apply Some_eq in Hl. subst u'.
    rewrite out_of_range_voltage in Ho. apply margins; tauto.
  - intros k Hk. apply generated_keys_configured with (w := w).
    now apply anomalies_of_keys.
Qed.

Lemma generated_anomalies_lie_in_the_margins_witness :
  exists data w1 anomalies,
    generate_sensor_data (boot module_globals lowest) = (Ok data, w1) /\
    detect_anomalies data w1 = (Ok anomalies, w1) /\
    (forall t, lookup anomalies "temperature" = Some t ->
               in_margins 18.5 19.0 24.0 24.5 t = true) /\
    (forall v, lookup anomalies "vibration" = Some v ->
               in_margins 0.05 0.1 1.0 1.1 v = true) /\
    (forall u, lookup anomalies "voltage" = Some u ->
               in_margins 108.0 110.0 125.0 127.0 u = true) /\
    (forall k, In k (keys anomalies) -> In k (keys SENSOR_CONFIG)).
Proof.
  apply generated_anomalies_lie_in_the_margins.
  - reflexivity.
  - exact honest_lowest.
Defined.

(** X9. Every call of [generate_sensor_data] builds a new dict: two calls
    in a row return different addresses, the second leaves the first
    reading as it was, and neither touches an earlier dict, a list, the
    globals, the console trace or the files; together they take six
    outcomes from the randomness source. *)
Theorem generate_sensor_data_builds_fresh_dicts :
  forall w,
    fst (generate_sensor_data w) = Ok (next_addr w) /\
    fst (generate_sensor_data (snd (generate_sensor_data w)))
    = Ok (S (next_addr w)) /\
    dict_at (snd (generate_sensor_data (snd (generate_sensor_data w))))
            (next_addr w)
    = dict_at (snd (generate_sensor_data w)) (next_addr w) /\
    (forall a, a < next_addr w ->
       dict_at (snd (generate_sensor_data (snd (generate_sensor_data w)))) a
       = dict_at w a) /\
    list_at (snd (generate_sensor_data (snd (generate_sensor_data w))))
    = list_at w /\
    globals (snd (generate_sensor_data (snd (generate_sensor_data w))))
    = globals w /\
    trace (snd (generate_sensor_data (snd (generate_sensor_data w))))
    = trace w /\
    files (snd (generate_sensor_data (snd (generate_sensor_data w))))
    = files w /\
    uniform_calls (snd (generate_sensor_data (snd (generate_sensor_data w))))
    = 6 + uniform_calls w.
Proof.
  intros w.
  pose proof (generate_sensor_data_effect w) as H1. cbv zeta in H1.
  pose proof (generate_sensor_data_effect (snd (generate_sensor_data w))) as H2.
  cbv zeta in H2.
  assert (E1 : fst (generate_sensor_data w) = Ok (next_addr w))
    by reflexivity.
  assert (E2 : fst (generate_sensor_data (snd (generate_sensor_data w)))
               = Ok (next_addr (snd (generate_sensor_data w))))
    by reflexivity.
  revert H2 E2.
  generalize (generate_sensor_data (snd (generate_sensor_data w))).
  revert H1 E1. generalize (generate_sensor_data w).
  intros r1 (Hd1 & Hf1 & Hl1 & Hn1 & Hg1 & Ho1 & Hc1 & Ht1 & Hfi1) E1
         r2 (Hd2 & Hf2 & Hl2 & Hn2 & Hg2 & Ho2 & Hc2 & Ht2 & Hfi2) E2.
  rewrite Hn1 in *.
  split; [exact E1|]. split; [exact E2|].
  split; [apply Hf2; lia|].
  split; [intros a Ha; rewrite Hf2, Hf1 by lia; reflexivity|].
  repeat split; try congruence.
  rewrite Hc2, Hc1. reflexivity.
Qed.


(* ================================================================= *)
(** * More on [main]: console, pauses and footprint *)

(** One tick, with what it prints and what it leaves alone. *)
Lemma main_tick_events w log i :
  g_SENSOR_CONFIG (globals w) = SENSOR_CONFIG ->
  exists w',
    main_tick log i w = (Ok tt, w') /\
    globals w' = globals w /\
    uniform_outcome w' = uniform_outcome w /\
    uniform_calls w' = 3 + uniform_calls w /\
    next_addr w' = S (next_addr w) /\
    (forall l, l <> log -> list_at w' l = list_at w l) /\
    (forall a, a <> next_addr w -> dict_at w' a = dict_at w a) /\
    files w' = files w /\
    trace w'
    = trace w
      ++ [Print (ReadingLine (i + 1) (generated w))]
      ++ (if truthy (anomalies_of (generated w))
          then [Print (AnomalyLine (anomalies_of (generated w)))] else [])
      ++ [Sleep (g_DELAY_SEC (globals w))].
Proof.
  intros Hg. unfold main_tick.
  pose proof (generate_sensor_data_run w) as Hrun.
  pose proof (generate_sensor_data_effect w) as Heff. cbv zeta in Heff.
  revert Hrun Heff. generalize (snd (generate_sensor_data w)). intros w1 Hrun Heff.
  destruct Heff as (Hd & Hd' & Hl & Hn & Hgl & Hu & Hc & Ht & Hf).
  rewrite bind_run, Hrun. rewrite bind_run. cbn [list_append].
  rewrite bind_run.
  rewrite detect_anomalies_run by (cbn [globals]; congruence).
  cbn [dict_at]. rewrite Hd, generated_configured.
  rewrite (flagged_items (generated w) []) by apply generated_unique.
  cbn [app].
  rewrite bind_run. cbn [deref_dict]. rewrite bind_run. cbn [print emit].
  rewrite bind_run.
  destruct (truthy (anomalies_of (generated w)));
    cbn [print emit ret]; rewrite bind_run; cbn [load_global time.sleep emit];
    eexists; (split; [reflexivity|]);
    cbn [globals uniform_outcome uniform_calls next_addr list_at dict_at
         files trace];
    rewrite ?Hgl, ?Ht, ?Hd, <- ?app_assoc; cbn [app];
    (split; [reflexivity|]); (split; [exact Hu|]); (split; [exact Hc|]);
    (split; [exact Hn|]);
    (split; [intros l Hl'; apply Nat.eqb_neq in Hl'; rewrite Hl';
             now rewrite Hl|]);
    (split; [exact Hd'|]); (split; [exact Hf|]); reflexivity.
Qed.

Lemma tick_events_shift w0 w1 k :
  uniform_outcome w1 = uniform_outcome w0 ->
  uniform_calls w1 = uniform_calls w0 + 3 * k ->
  globals w1 = globals w0 ->
  generated w1 = reading_of_tick w0 k.
Proof.
  intros Hu Hc _. unfold generated, reading_of_tick. now rewrite Hu, Hc.
Qed.

(** The loop, with what it prints and what it leaves alone. *)
Lemma main_loop_events w0 log k :
  g_SENSOR_CONFIG (globals w0) = SENSOR_CONFIG ->
  exists wk,
    main_loop log k w0 = (Ok tt, wk) /\
    globals wk = globals w0 /\
    uniform_outcome wk = uniform_outcome w0 /\
    uniform_calls wk = uniform_calls w0 + 3 * k /\
    next_addr wk = next_addr w0 + k /\
    (forall l, l <> log -> list_at wk l = list_at w0 l) /\
    (forall a, a < next_addr w0 -> dict_at wk a = dict_at w0 a) /\
    files wk = files w0 /\
    trace wk = trace w0 ++ flat_map (tick_events w0) (seq 0 k).
Proof.
  intros Hg. induction k as [|k IH].
  - exists w0. cbn. rewrite app_nil_r, !Nat.add_0_r. repeat split; auto.
  - destruct IH as (wk & Hrun & Hgl & Hu & Hc & Hn & Hl & Hd & Hf & Ht).
    destruct (main_tick_events wk log k) as
      (w' & Htick & Hgl' & Hu' & Hc' & Hn' & Hl' & Hd' & Hf' & Ht');
      [congruence|].
    assert (Hs : main_loop log (S k) w0 = (Ok tt, w')).
    { rewrite <- Nat.add_1_r, main_loop_split, Hrun.
      unfold main_loop_from. cbn [seq for_each].
      now rewrite bind_run, Htick. }
    exists w'. rewrite Hs.
    split; [reflexivity|].
    split; [congruence|]. split; [congruence|]. split; [lia|].
    split; [lia|].
    split; [intros l Hne; rewrite Hl' by exact Hne; now apply Hl|].
    split; [intros a Ha; rewrite Hd' by lia; now apply Hd|].
    split; [congruence|].
    rewrite Ht', Ht, seq_S, flat_map_app, <- app_assoc. f_equal.
    cbn [flat_map Nat.add]. rewrite app_nil_r. unfold tick_events.
    rewrite (tick_events_shift w0 wk k) by assumption.
    now rewrite Hgl.
Qed.

(** [main] up to its last statement, for a reading count [N >= 1]: the
    loop has run, the summary is computed and printed, and what is left is
    the [with] block. *)
Lemma main_until_save w N :
  g_SENSOR_CONFIG (globals w) = SENSOR_CONFIG ->
  g_READINGS (globals w) = N ->
  1 <= N ->
  honest_randomness (uniform_outcome w) ->
  exists status W,
    summary_of (map (reading_of_tick w) (seq 0 N)) = Ok status /\
    main w = main_save (next_addr w) status W /\
    entries_of W (next_addr w) = map (reading_of_tick w) (seq 0 N) /\
    trace W
    = trace w
      ++ [Print Banner]
      ++ flat_map (tick_events w) (seq 0 N)
      ++ [Print SummaryHeader; Print (SummaryBody status)] /\
    files W = files w /\
    write_outcome W = write_outcome w.
Proof.
  intros Hg HN H1 Hr. unfold main.
  rewrite bind_run. cbn [print emit]. rewrite bind_run. cbn [new_list].
  rewrite bind_run. cbn [load_global globals]. rewrite HN.
  rewrite bind_run.
  match goal with
  | |- context [main_loop ?l N ?w0] =>
      destruct (main_loop_run w0 l N) as
        (wN & Hrun & Hgl & Hu & Hc & Hn & Hl & Hd & Hf); [exact Hg|];
      destruct (main_loop_events w0 l N) as
        (wN' & Hrun' & _ & _ & _ & _ & _ & _ & _ & Ht); [exact Hg|];
      rewrite Hrun in Hrun'; apply (f_equal snd) in Hrun'; cbn [snd] in Hrun';
      subst wN';
      pose proof (keeps_main_loop l N w0) as Hwo;
      rewrite Hrun in *
  end.
  cbn [globals uniform_outcome uniform_calls next_addr list_at files trace
       write_outcome snd] in *.
  rewrite Nat.eqb_refl in Hl. cbn [app] in Hl.
  rewrite bind_run. cbn [print emit]. rewrite bind_run.
  rewrite health_status_run by (cbn [globals]; congruence).
  assert (He : map (dict_at wN) (list_at wN (next_addr w))
               = map (reading_of_tick w) (seq 0 N)).
  { rewrite Hl. apply map_seq_shift. intros i Hi. now rewrite Hd. }
  unfold entries_of at 1. cbn [dict_at list_at]. rewrite He.
  destruct (summary_of_shape (map (reading_of_tick w) (seq 0 N)))
    as (status & at_ & st & av & sv & au & su & Hs & Hj).
  { destruct N; [lia | discriminate]. }
  { apply tick_readings_complete. }
  { now apply tick_readings_moderate. }
  rewrite Hs. rewrite bind_run. cbn [print emit].
  fold (main_save (next_addr w) status).
  exists status. eexists. split; [reflexivity|]. split; [reflexivity|].
  unfold entries_of.
  cbn [dict_at list_at trace files write_outcome].
  split; [exact He|]. split; [|split; [exact Hf | exact Hwo]].
  rewrite Ht, <- !app_assoc. cbn [app]. reflexivity.
Qed.

(** X10. With a reading count [N >= 1] and a file system that lets the
    write go through, [main] returns, having sent to the console, in this
    order: the banner; for each tick the reading line numbered from 1, a
    warning line exactly when the reading has an out-of-range value
    (carrying those values), and one pause of [DELAY_SEC]; then the
    summary header, the summary and the notice that the log was written.
    The summary printed is the one written to the file. *)
Theorem main_console_output :
  forall w N,
    g_SENSOR_CONFIG (globals w) = SENSOR_CONFIG ->
    g_READINGS (globals w) = N ->
    1 <= N ->
    honest_randomness (uniform_outcome w) ->
    write_outcome w "edge_health_log.json" = Written ->
    exists w' status,
      main w = (Ok tt, w') /\
      summary_of (map (reading_of_tick w) (seq 0 N)) = Ok status /\
      trace w'
      = trace w
        ++ [Print Banner]
        ++ flat_map (tick_events w) (seq 0 N)
        ++ [Print SummaryHeader; Print (SummaryBody status); Print LoggedNotice] /\
      lookup (files w') "edge_health_log.json"
      = Some (Document
                (JObject
                   [("readings",
                     JArray (map json_of_floats
                                 (map (reading_of_tick w) (seq 0 N))));
                    ("summary", json_of_summary status)])).
Proof.
  intros w N Hg HN H1 Hr Hw.
  destruct (main_until_save w N Hg HN H1 Hr)
    as (status & W & Hs & Hmain & He & Ht & Hf & Hwo).
  pose proof (main_save_run (next_addr w) status W) as Hsave.
  rewrite Hwo, Hw, <- Hmain in Hsave.
  destruct Hsave as (_ & _ & _ & _ & _ & _ & Hok & Htr & Hdoc).
  exists (snd (main w)), status.
  split; [rewrite <- Hok; apply surjective_pairing|].
  split; [exact Hs|]. split.
  - rewrite Htr, Ht, <- !app_assoc. reflexivity.
  - rewrite Hdoc, He. reflexivity.
Qed.

Lemma main_console_output_witness :
  exists w' status,
    main (boot (globals_with_readings 2) lowest) = (Ok tt, w') /\
    summary_of (map (reading_of_tick (boot (globals_with_readings 2) lowest))
                    (seq 0 2)) = Ok status /\
    trace w'
    = trace (boot (globals_with_readings 2) lowest)
      ++ [Print Banner]
      ++ flat_map (tick_events (boot (globals_with_readings 2) lowest)) (seq 0 2)
      ++ [Print SummaryHeader; Print (SummaryBody status); Print LoggedNotice] /\
    lookup (files w') "edge_health_log.json"
    = Some (Document
              (JObject
                 [("readings",
                   JArray (map json_of_floats
                               (map (reading_of_tick
                                       (boot (globals_with_readings 2) lowest))
                                    (seq 0 2))));
                  ("summary", json_of_summary status)])).
Proof.
  apply main_console_output.
  - reflexivity.
  - reflexivity.
  - lia.
  - exact honest_lowest.
  - reflexivity.
Defined.

(** X11. With a reading count of 0, in any world, [main] prints the banner
    and the summary header, then fails with [StatisticsError] (the mean of
    an empty column): no summary is printed and no file is written. *)
Theorem main_without_readings_fails_before_writing :
  forall w,
    g_SENSOR_CONFIG (globals w) = SENSOR_CONFIG ->
    g_READINGS (globals w) = 0 ->
    fst (main w) = Raise StatisticsError /\
    files (snd (main w)) = files w /\
    trace (snd (main w)) = trace w ++ [Print Banner; Print SummaryHeader].
Proof.
  intros w Hg HN. unfold main.
  rewrite bind_run. cbn [print emit]. rewrite bind_run. cbn [new_list].
  rewrite bind_run. cbn [load_global globals]. rewrite HN.
  rewrite bind_run. cbn [main_loop seq for_each ret].
  rewrite bind_run. cbn [print emit]. rewrite bind_run.
  rewrite health_status_run by (cbn [globals]; congruence).
  unfold entries_of. cbn [dict_at list_at]. rewrite Nat.eqb_refl.
  cbn [map]. 
  replace (summary_of []) with (@Raise (dict (dict float)) StatisticsError)
    by (vm_compute; reflexivity).
  cbn [fst snd files trace]. rewrite <- app_assoc. cbn [app]. auto.
Qed.

Lemma main_without_readings_fails_before_writing_witness :
  fst (main (boot (globals_with_readings 0) lowest)) = Raise StatisticsError /\
  files (snd (main (boot (globals_with_readings 0) lowest)))
  = files (boot (globals_with_readings 0) lowest) /\
  trace (snd (main (boot (globals_with_readings 0) lowest)))
  = trace (boot (globals_with_readings 0) lowest)
    ++ [Print Banner; Print SummaryHeader].
Proof.
  apply main_without_readings_fails_before_writing.
  - reflexivity.
  - reflexivity.
Defined.

(** X12. Whatever the randomness source and the file system answer, and
    whether [main] returns or raises, it leaves the globals as they were,
    takes exactly [3 * N] outcomes from the randomness source, changes no
    dict or list that existed before, and changes no file other than
    [edge_health_log.json]. *)
Theorem main_footprint :
  forall w N,
    g_SENSOR_CONFIG (globals w) = SENSOR_CONFIG ->
    g_READINGS (globals w) = N ->
    globals (snd (main w)) = globals w /\
    uniform_calls (snd (main w)) = uniform_calls w + 3 * N /\
    (forall a, a < next_addr w ->
       dict_at (snd (main w)) a = dict_at w a /\
       list_at (snd (main w)) a = list_at w a) /\
    (forall p, p <> "edge_health_log.json" ->
       lookup (files (snd (main w))) p = lookup (files w) p).
Proof.
  intros w N Hg HN. unfold main.
  rewrite bind_run. cbn [print emit]. rewrite bind_run. cbn [new_list].
  rewrite bind_run. cbn [load_global globals]. rewrite HN.
  rewrite bind_run.
  match goal with
  | |- context [main_loop ?l N ?w0] =>
      destruct (main_loop_events w0 l N) as
        (wN & Hrun & Hgl & Hu & Hc & Hn & Hl & Hd & Hf & Ht); [exact Hg|];
      rewrite Hrun
  end.
  cbn [globals uniform_outcome uniform_calls next_addr list_at dict_at files
       trace] in *.
  assert (Hl' : forall a, a < next_addr w -> list_at wN a = list_at w a).
  { intros a Ha. rewrite Hl by lia.
    destruct (Nat.eqb a (next_addr w)) eqn:E; [|reflexivity].
    apply Nat.eqb_eq in E. lia. }
  rewrite bind_run. cbn [print emit]. rewrite bind_run.
  rewrite health_status_run by (cbn [globals]; congruence).
  match goal with
  | |- context [summary_of ?es] => destruct (summary_of es) as [status|e]
  end.
  - rewrite bind_run. cbn [print emit].
    fold (main_save (next_addr w) status).
    match goal with
    | |- context [main_save ?l status ?w1] =>
        destruct (main_save_run l status w1)
          as (Hsg & Hsd & Hsl & _ & Hsc & Hso & _)
    end.
    rewrite Hsg, Hsd, Hsl, Hsc.
    cbn [globals uniform_calls dict_at list_at].
    split; [congruence|]. split; [lia|].
    split.
    + intros a Ha. split; [apply Hd; lia | now apply Hl'].
    + intros p Hp. rewrite Hso by exact Hp. cbn [files]. now rewrite Hf.
  - cbn [snd globals uniform_calls next_addr dict_at list_at files].
    split; [congruence|]. split; [lia|].
    split.
    + intros a Ha. split; [apply Hd; lia | now apply Hl'].
    + intros p Hp. now rewrite Hf.
Qed.

Lemma main_footprint_witness :
  globals (snd (main hot_reading)) = globals hot_reading /\
  uniform_calls (snd (main hot_reading)) = uniform_calls hot_reading + 3 * 10 /\
  (forall a, a < next_addr hot_reading ->
     dict_at (snd (main hot_reading)) a = dict_at hot_reading a /\
     list_at (snd (main hot_reading)) a = list_at hot_reading a) /\
  (forall p, p <> "edge_health_log.json" ->
     lookup (files (snd (main hot_reading))) p = lookup (files hot_reading) p).
Proof.
  apply main_footprint.
  - reflexivity.
  - reflexivity.
Defined.


(* ================================================================= *)
(** * A log of one generated reading *)

Lemma same_float_eq a b : same_float a b = true -> a = b.
Proof.
  unfold same_float. intros H. apply Prim2SF_inj.
  destruct (Prim2SF a) as [s|s| |s m e], (Prim2SF b) as [s'|s'| |s' m' e'];
    try discriminate; auto.
  - apply Bool.eqb_prop in H. now subst.
  - apply Bool.eqb_prop in H. now subst.
  - apply andb_true_iff in H as [H He]. apply andb_true_iff in H as [Hs Hm].
    apply Bool.eqb_prop in Hs. apply Pos.eqb_eq in Hm. apply Z.eqb_eq in He.
    now subst.
Qed.

Section Stable.
Open Scope Z_scope.

(** ** A quotient does not depend on a shared power of two *)

Lemma Zdigits2_double a : 0 < a -> Zdigits2 (2 * a) = Zdigits2 a + 1.
Proof.
  destruct a as [|p|p]; try lia. intros _.
  cbn [Z.mul Pos.mul Zdigits2 digits2_pos]. lia.
Qed.

Lemma Zdigits2_scaled a k :
  0 < a -> 0 <= k -> Zdigits2 (a * 2 ^ k) = Zdigits2 a + k.
Proof.
  intros Ha Hk. revert k Hk. apply natlike_ind.
  - rewrite Z.pow_0_r, Z.mul_1_r. lia.
  - intros k Hk IH. rewrite Z.pow_succ_r by exact Hk.
    replace (a * (2 * 2 ^ k)) with (2 * (a * 2 ^ k)) by ring.
    assert (0 < 2 ^ k) by (apply Z.pow_pos_nonneg; lia).
    rewrite Zdigits2_double by (apply Z.mul_pos_pos; lia).
    lia.
Qed.

Lemma div_eucl_div_mod a b : Z.div_eucl a b = (a / b, a mod b).
Proof. unfold Z.div, Z.modulo. now destruct (Z.div_eucl a b). Qed.

Lemma new_location_scaled b r c :
  0 < c -> Z.even b = true ->
  new_location (b * c) (r * c) = new_location b r.
Proof.
  intros Hc Hb. unfold new_location. rewrite Z.even_mul, Hb. cbn [orb].
  unfold new_location_even.
  destruct (Z.eqb_spec r 0) as [->|Hr].
  - reflexivity.
  - destruct (Z.eqb_spec (r * c) 0) as [E|_]; [nia|].
    replace (2 * (r * c)) with (2 * r * c) by ring.
    now rewrite <- Zmult_compare_compat_r by lia.
Qed.

Lemma nearest_ratio_cancel s a b k :
  0 < a -> 0 < b -> Z.even b = true -> 0 <= k ->
  nearest_ratio s (a * 2 ^ k) (b * 2 ^ k) = nearest_ratio s a b.
Proof.
  intros Ha Hb He Hk. unfold nearest_ratio, SFdiv_core_binary.
  rewrite !Zdigits2_scaled by assumption.
  replace (Zdigits2 a + k + 0 - (Zdigits2 b + k + 0))
    with (Zdigits2 a + 0 - (Zdigits2 b + 0)) by lia.
  assert (Hc : 0 < 2 ^ k) by (apply Z.pow_pos_nonneg; lia).
  set (c := 2 ^ k) in *.
  set (e' := Z.min (fexp prec emax (Zdigits2 a + 0 - (Zdigits2 b + 0))) (0 - 0)).
  assert (Hm : match 0 - 0 - e' with
               | Z.pos _ => Z.shiftl (a * c) (0 - 0 - e')
               | 0 => a * c
               | Z.neg _ => 0
               end
               = match 0 - 0 - e' with
                 | Z.pos _ => Z.shiftl a (0 - 0 - e')
                 | 0 => a
                 | Z.neg _ => 0
                 end * c).
  { destruct (0 - 0 - e') as [|p|p] eqn:E; auto.
    rewrite !Z.shiftl_mul_pow2 by lia. ring. }
  rewrite Hm. rewrite !div_eucl_div_mod.
  rewrite Z.div_mul_cancel_r by lia.
  rewrite Z.mul_mod_distr_r by lia.
  now rewrite new_location_scaled.
Qed.

(** ** The mean of one value *)

Lemma mean_of_one_spec x s m e :
  Prim2SF x = S754_finite s m e -> e < 0 ->
  statistics.mean [x] = Ok (mean_of_one x).
Proof.
  intros Ex He. destruct (exact_finite x s m e Ex) as ((Hlo & _) & Hm & _).
  unfold statistics.mean, mean_of_one. rewrite Ex.
  change (Z.of_nat (List.length [x])) with 1.
  change (1 <? 1) with false. cbv iota.
  assert (Hx : exact x = Some (cond_Zopp s (Z.pos m * 2 ^ (e + 1074))))
    by (unfold exact; now rewrite Ex).
  unfold statistics.special_terms, statistics.finite_terms, is_finite.
  cbn [filter flat_map]. rewrite Hx. cbn [negb app statistics.total fold_right].
  rewrite Z.add_0_r, Z.mul_1_l.
  assert (Hp : 0 < 2 ^ (e + 1074)) by (apply Z.pow_pos_nonneg; lia).
  assert (Hz : 0 < Z.pos m * 2 ^ (e + 1074)) by (apply Z.mul_pos_pos; lia).
  set (z := Z.pos m * 2 ^ (e + 1074)) in *.
  unfold int_truediv.
  assert (Habs : Z.abs (cond_Zopp s z) = z)
    by (destruct s; cbn [cond_Zopp]; lia).
  rewrite Habs.
  assert (Hbig : z < overflow_threshold * 2 ^ 1074).
  { assert (Hq : 2 ^ (e + 1074) <= 2 ^ 1074) by (apply Z.pow_le_mono_r; lia).
    assert (Hq' : 0 < 2 ^ 1074) by (apply Z.pow_pos_nonneg; lia).
    assert (Ht : 2 ^ 53 <= overflow_threshold) by (vm_compute; discriminate).
    assert (Hk : 0 < 2 ^ 53) by reflexivity.
    unfold z. set (T := overflow_threshold) in *. clearbody T.
    set (P := 2 ^ (e + 1074)) in *. set (Q := 2 ^ 1074) in *.
    set (K := 2 ^ 53) in *.
    assert (Z.pos m * P < K * P) by (apply Z.mul_lt_mono_pos_r; assumption).
    assert (K * P <= T * Q)
      by (apply Z.mul_le_mono_nonneg; lia).
    lia. }
  destruct (Z.leb_spec (overflow_threshold * 2 ^ 1074) z) as [Hle|_]; [lia|].
  destruct (Z.eqb_spec (cond_Zopp s z) 0) as [E0|_];
    [destruct s; cbn [cond_Zopp] in E0; lia|].
  assert (Hs : (cond_Zopp s z <? 0) = s).
  { destruct s; cbn [cond_Zopp].
    - apply Z.ltb_lt. lia.
    - apply Z.ltb_ge. lia. }
  rewrite Hs. do 2 f_equal. unfold z.
  replace (2 ^ 1074) with (2 ^ (- e) * 2 ^ (e + 1074)).
  - apply nearest_ratio_cancel; try lia.
    rewrite Z.even_pow by lia. reflexivity.
  - rewrite <- Z.pow_add_r by lia. f_equal. lia.
Qed.

(** Rounding a value between two positive bounds gives a decimal of the
    range. *)
Lemma round_digits lo hi dlo n u :
  range_digits lo hi dlo n = true ->
  (lo <=? u)%float = true -> (u <=? hi)%float = true ->
  exists d, In d (Zrange dlo n) /\ round u 2 = decimal false d 2.
Proof.
  unfold range_digits. intros Hr Hlo Hhi.
  destruct (exact lo) as [za|] eqn:Ea; [|discriminate].
  destruct (exact hi) as [zb|] eqn:Eb; [|discriminate].
  apply andb_true_iff in Hr as [Hr Hb]. apply andb_true_iff in Hr as [Hpos Ha].
  apply Z.ltb_lt in Hpos, Hb. apply Z.leb_le in Ha.
  destruct (between_exact lo u hi za zb Ea Eb Hlo Hhi) as (zu & Eu & Hzu).
  rewrite (round_positive u zu Eu) by lia.
  assert (Hm1 : hundredths za <= hundredths zu)
    by (apply round_half_even_mono; [apply Z.pow_pos_nonneg|]; lia).
  assert (Hm2 : hundredths zu <= hundredths zb)
    by (apply round_half_even_mono; [apply Z.pow_pos_nonneg|]; lia).
  exists (hundredths zu). split; [|reflexivity].
  apply Zrange_In. lia.
Qed.

Lemma summarize_stable dlo n d :
  decimals_stable dlo n = true -> In d (Zrange dlo n) ->
  summarize [decimal false d 2]
  = Ok [("avg", decimal false d 2); ("std_dev", 0%float)].
Proof.
  unfold decimals_stable. intros H Hin.
  rewrite forallb_forall in H. specialize (H d Hin). cbv zeta in H.
  revert H. generalize (decimal false d 2). intros x H.
  destruct (Prim2SF x) as [| | |s m e] eqn:Ex; try discriminate.
  apply andb_true_iff in H as [He H]. apply Z.ltb_lt in He.
  apply same_float_eq in H.
  unfold summarize. rewrite (mean_of_one_spec x s m e Ex He).
  cbn [result_bind List.length Nat.ltb Nat.leb]. now rewrite H.
Qed.

Lemma summarize_rounded lo hi dlo n u :
  range_digits lo hi dlo n = true ->
  decimals_stable dlo n = true ->
  (lo <=? u)%float = true -> (u <=? hi)%float = true ->
  summarize [round u 2] = Ok [("avg", round u 2); ("std_dev", 0%float)].
Proof.
  intros Hr Hs Hlo Hhi.
  destruct (round_digits lo hi dlo n u Hr Hlo Hhi) as (d & Hin & ->).
  now apply (summarize_stable dlo n).
Qed.

End Stable.

Lemma summarize_temperature u :
  (18.5 <=? u)%float = true -> (u <=? 24.5)%float = true ->
  summarize [round u 2] = Ok [("avg", round u 2); ("std_dev", 0%float)].
Proof. apply (summarize_rounded _ _ 1850 601); vm_compute; reflexivity. Qed.

Lemma summarize_vibration u :
  (0.05 <=? u)%float = true -> (u <=? 1.1)%float = true ->
  summarize [round u 2] = Ok [("avg", round u 2); ("std_dev", 0%float)].
Proof. apply (summarize_rounded _ _ 5 106); vm_compute; reflexivity. Qed.

Lemma summarize_voltage u :
  (108.0 <=? u)%float = true -> (u <=? 127.0)%float = true ->
  summarize [round u 2] = Ok [("avg", round u 2); ("std_dev", 0%float)].
Proof. apply (summarize_rounded _ _ 10800 1901); vm_compute; reflexivity. Qed.


(** X13. A log of one reading made the way [generate_sensor_data] makes
    it (values of the sampler's ranges rounded to 2 decimals) is
    summarised by the reading itself: for every sensor [avg] is the
    reading's value, unchanged by [mean] and the second rounding, and
    [std_dev] is [0.0]. *)
Theorem health_status_of_one_generated_reading :
  forall w log entry a b c,
    g_SENSOR_CONFIG (globals w) = SENSOR_CONFIG ->
    list_at w log = [entry] ->
    dict_at w entry
    = [("temperature", round a 2); ("vibration", round b 2);
       ("voltage", round c 2)] ->
    (18.5 <=? a)%float = true -> (a <=? 24.5)%float = true ->
    (0.05 <=? b)%float = true -> (b <=? 1.1)%float = true ->
    (108.0 <=? c)%float = true -> (c <=? 127.0)%float = true ->
    health_status log w
    = (Ok [("temperature", [("avg", round a 2); ("std_dev", 0%float)]);
           ("vibration", [("avg", round b 2); ("std_dev", 0%float)]);
           ("voltage", [("avg", round c 2); ("std_dev", 0%float)])],
       w).
Proof.
  intros w log entry a b c Hg Hl Hd Ha1 Ha2 Hb1 Hb2 Hc1 Hc2.
  rewrite health_status_run by assumption. rewrite summary_of_unfold.
  unfold sensor_summary, entries_of. rewrite Hl. cbn [map]. rewrite Hd.
  cbn [column_of getitem lookup String.eqb Ascii.eqb Bool.eqb result_bind].
  rewrite (summarize_temperature a Ha1 Ha2),
          (summarize_vibration b Hb1 Hb2),
          (summarize_voltage c Hc1 Hc2).
  reflexivity.
Qed.

Lemma health_status_of_one_generated_reading_witness :
  health_status 0 one_generated_log
  = (Ok [("temperature", [("avg", round 18.5 2); ("std_dev", 0%float)]);
         ("vibration", [("avg", round 0.05 2); ("std_dev", 0%float)]);
         ("voltage", [("avg", round 108.0 2); ("std_dev", 0%float)])],
     one_generated_log).
Proof.
  apply (health_status_of_one_generated_reading one_generated_log 0 1
           18.5%float 0.05%float 108.0%float); reflexivity.
Defined.

(** X14. On a log without entries [health_status] raises
    [StatisticsError], from the mean of the first sensor's empty column;
    it returns no empty summary, and the world is unchanged. *)
Theorem health_status_of_empty_log :
  forall w log,
    g_SENSOR_CONFIG (globals w) = SENSOR_CONFIG ->
    list_at w log = [] ->
    health_status log w = (Raise StatisticsError, w).
Proof.
  intros w log Hg Hl. rewrite health_status_run by assumption.
  unfold entries_of. rewrite Hl. cbn [map].
  apply (f_equal (fun r => (r, w))). vm_compute. reflexivity.
Qed.

Lemma health_status_of_empty_log_witness :
  health_status 0 empty_log = (Raise StatisticsError, empty_log).
Proof.
  apply health_status_of_empty_log; reflexivity.
Defined.


(* ================================================================= *)
(** * [main] when the file cannot be written *)

(** X15. With a reading count [N >= 1], when the file system does not let
    the write go through, [main] raises [OSError] after the loop and the
    summary have been printed as usual. If [open] is refused the file is
    left as it was; if the disk fails later the file is left without the
    complete text. The notice that the log was written is not printed,
    except when the failure only shows on closing the file: the notice is
    printed inside the [with] block, before the file is closed. *)
Theorem main_when_the_write_fails :
  forall w N,
    g_SENSOR_CONFIG (globals w) = SENSOR_CONFIG ->
    g_READINGS (globals w) = N ->
    1 <= N ->
    honest_randomness (uniform_outcome w) ->
    write_outcome w "edge_health_log.json" <> Written ->
    exists status,
      summary_of (map (reading_of_tick w) (seq 0 N)) = Ok status /\
      fst (main w) = Raise OSError /\
      trace (snd (main w))
      = trace w
        ++ [Print Banner]
        ++ flat_map (tick_events w) (seq 0 N)
        ++ [Print SummaryHeader; Print (SummaryBody status)]
        ++ match write_outcome w "edge_health_log.json" with
           | FailsAtClose => [Print LoggedNotice]
           | _ => []
           end /\
      lookup (files (snd (main w))) "edge_health_log.json"
      = match write_outcome w "edge_health_log.json" with
        | Refused => lookup (files w) "edge_health_log.json"
        | _ => Some Incomplete
        end.
Proof.
  intros w N Hg HN H1 Hr Hw.
  destruct (main_until_save w N Hg HN H1 Hr)
    as (status & W & Hs & Hmain & He & Ht & Hf & Hwo).
  pose proof (main_save_run (next_addr w) status W) as Hsave.
  rewrite Hwo, <- Hmain in Hsave.
  destruct Hsave as (_ & _ & _ & _ & _ & _ & Hsave).
  exists status. split; [exact Hs|].
  destruct (write_outcome w "edge_health_log.json"); [congruence| | |];
    destruct Hsave as (Hraise & Htr & Hfile);
    (split; [exact Hraise|]);
    rewrite Htr, Ht, Hfile, <- ?app_assoc, ?Hf; cbn [app];
    split; reflexivity.
Qed.

Lemma main_when_the_write_fails_witness :
  exists status,
    summary_of
      (map (reading_of_tick
              (on_disk FailsAtClose (boot (globals_with_readings 2) lowest)))
           (seq 0 2)) = Ok status /\
    fst (main (on_disk FailsAtClose (boot (globals_with_readings 2) lowest)))
    = Raise OSError /\
    trace (snd (main (on_disk FailsAtClose
                              (boot (globals_with_readings 2) lowest))))
    = trace (on_disk FailsAtClose (boot (globals_with_readings 2) lowest))
      ++ [Print Banner]
      ++ flat_map (tick_events
                     (on_disk FailsAtClose
                              (boot (globals_with_readings 2) lowest)))
                  (seq 0 2)
      ++ [Print SummaryHeader; Print (SummaryBody status)]
      ++ [Print LoggedNotice] /\
    lookup (files (snd (main (on_disk FailsAtClose
                                      (boot (globals_with_readings 2) lowest)))))
           "edge_health_log.json"
    = Some Incomplete.
Proof.
  apply (main_when_the_write_fails
           (on_disk FailsAtClose (boot (globals_with_readings 2) lowest)) 2).
  - reflexivity.
  - reflexivity.
  - lia.
  - exact honest_lowest.
  - discriminate.
Defined.
